(** * BuildGraph: the build-graph execution engine

    A shallow embedding of the [Build] command of BuildGraph
    ([Execute], [FindAvailableTasks], [IsPublicAssembly],
    [FindCompletedNodes], [BuildAllNodes], [BuildSingleNode] and
    [FindFileToOutputNameMapping]) together with theorems about the order
    in which it cleans, builds, archives and marks nodes.

    The command is stateful: it mutates the temp storage and writes to the
    log.  Every operation is therefore a function from the storage to a
    result, the new storage and the list of events it emitted, in the order
    in which they happened.

    The file [AnimCurveTypes.cpp] also holds the curve types of the
    animation system: the flags of a curve and the arrays of float, vector
    and transform curves of [FRawCurveTracks].  They are embedded in the
    module [AnimCurve], as pure functions on the flags and on the arrays. *)

From stdpp Require Import gmap strings list fin_maps.
From Stdlib Require Import Ascii String.

Set Warnings "-register-all".
Local Open Scope list_scope.

(** ** Data model *)

(** A [ManualTrigger] is an object with an optional parent.  Objects are
    compared by reference in the source ([HashSet<ManualTrigger>], [!=]);
    [TriggerRef] is that reference. *)
Inductive ManualTrigger : Type :=
  MkTrigger { TriggerRef : nat;
              TriggerName : string;
              Parent : option ManualTrigger }.

(** A [Node].  [NodeRef] is the object's reference; [InputDependencies]
    holds the references of the nodes it depends on. *)
Record Node : Type := MkNode {
  NodeRef : nat;
  Name : string;
  InputNames : list string;
  OutputNames : list string;
  InputDependencies : list nat;
  ControllingTrigger : option ManualTrigger
}.

Record AgentGroup : Type := MkGroup {
  GroupName : string;
  Nodes : list Node
}.

Record Graph : Type := MkGraph {
  Groups : list AgentGroup;
  NameToNode : gmap string Node;
  OutputNameToNode : gmap string Node;
  NameToTrigger : gmap string ManualTrigger
}.

(** [Dictionary<string, HashSet<FileReference>>]: a key may be bound to
    [null], which is [None] here. *)
Abbreviation TagMap := (gmap string (option (gset string))).

(** Reference equality of two nodes, and of two possibly null triggers. *)
Definition SameNode (a b : Node) : bool :=
  bool_decide (NodeRef a = NodeRef b).

Definition SameTrigger (a b : option ManualTrigger) : bool :=
  bool_decide (TriggerRef <$> a = TriggerRef <$> b).

(** [Group.Nodes.Contains(Node)] *)
Definition ContainsNode (l : list Node) (n : Node) : bool :=
  existsb (SameNode n) l.

(** [Graph.Groups.SelectMany(x => x.Nodes)] *)
Definition AllNodes (G : Graph) : list Node :=
  List.concat (map Nodes (Groups G)).

(** [Graph.Groups.SelectMany(x => x.Nodes).SelectMany(x => x.OutputNames)] *)
Definition AllOutputNames (G : Graph) : list string :=
  List.concat (map OutputNames (AllNodes G)).

(** ** Temp storage *)

(** A manifest is the list of the files of one output of one node. *)
Abbreviation TempStorageManifest := (list string).

(** Modelled from the spec: the class [TempStorage] is not part of the
    sources.  The spec describes it as a two-tier cache keyed by
    [(NodeName, OutputTagName)]: a completion marker per node and a
    manifest per output in local storage, and manifests in an optional
    shared storage that is written only when shared writes are enabled. *)
Record TempStorage : Type := MkStorage {
  CompleteMarkers : gset string;
  LocalManifests : gmap (string * string) TempStorageManifest;
  SharedManifests : option (gmap (string * string) TempStorageManifest);
  bWriteToSharedStorage : bool
}.

(** ** Events *)

Inductive LogMessage : Type :=
| MissingScriptParameter
| MissingTargetParameter
| TargetNotInGraph (TargetName : string)
| TriggerNotFound (TriggerName : string)
| NodeNotInTrimmedGraph (NodeName : string)
| NotDerivedFromTask (TypeName : string)
| MultipleHandlers (ElementName : string)
| AddedToMultipleOutputs (File ExistingOutputName OutputName : string)
| NodeBanner (NodeIdx Total : nat) (NodeName : string)
| BlankLine.

(** What the command does to the outside world, one event per call.
    [EvBuildAllNodes] and [EvBuildSingleNode] record that the method of
    that name was entered; [EvNodeBuild] records a call of [Node.Build]
    with the tag map it was given and the value it returned; the events of
    the storage name the method of [TempStorage] that was called. *)
Inductive Event : Type :=
| EvLogError (m : LogMessage)
| EvLog (m : LogMessage)
| EvSchemaExport (FileName : string)
| EvCleanLocal
| EvCleanLocalNode (NodeName : string)
| EvIsComplete (NodeName : string) (bResult : bool)
| EvCheckLocalIntegrity (NodeName : string) (OutputNames : list string)
                        (bResult : bool)
| EvRetreive (NodeName OutputName : string)
| EvArchive (NodeName OutputName : string) (Files : gset string)
            (bPushToShared : bool)
| EvMarkAsComplete (NodeName : string)
| EvPrint (CompletedNodes : list Node) (ShowDeps ShowNotifications : bool)
| EvExport (FileName : string) (Triggers : list ManualTrigger)
           (CompletedNodes : list Node)
| EvBuildAllNodes
| EvBuildSingleNode (n : Node)
| EvNodeBuild (n : Node) (TagNameToFileSet : TagMap) (bResult : bool).

(** ** The monad of the command: storage, exceptions and the event log *)

Inductive Exn : Type :=
| KeyNotFound (Key : string)
| NullReference (Key : string)
| MissingOutput (NodeName OutputName : string).

Inductive Result (A : Type) : Type :=
| Ok (a : A)
| Raise (e : Exn).
Arguments Ok {A} a.
Arguments Raise {A} e.

Definition M (A : Type) : Type :=
  TempStorage -> Result A * TempStorage * list Event.

Definition ret {A} (a : A) : M A := fun s => (Ok a, s, []).

Definition bind {A B} (m : M A) (f : A -> M B) : M B :=
  fun s =>
    match m s with
    | (Ok a, s1, t1) =>
        match f a s1 with
        | (r, s2, t2) => (r, s2, t1 ++ t2)
        end
    | (Raise e, s1, t1) => (Raise e, s1, t1)
    end.

Definition throw {A} (e : Exn) : M A := fun s => (Raise e, s, []).

Definition emit (e : Event) : M unit := fun s => (Ok tt, s, [e]).

Definition get : M TempStorage := fun s => (Ok s, s, []).

Definition put (s : TempStorage) : M unit := fun _ => (Ok tt, s, []).

Notation "x <- m ;; k" := (bind m (fun x => k))
  (at level 100, m at next level, right associativity).
Notation "m ;;; k" := (bind m (fun _ => k))
  (at level 100, right associativity).

(** [foreach(x in l) { body }], with the exceptions of the body leaving
    the loop. *)
Fixpoint ForEach {A} (l : list A) (body : A -> M unit) : M unit :=
  match l with
  | [] => ret tt
  | x :: l' => body x ;;; ForEach l' body
  end.

(** The component of a run. *)
Definition ResultOf {A} (r : Result A * TempStorage * list Event) : Result A :=
  r.1.1.
Definition StorageOf {A} (r : Result A * TempStorage * list Event) : TempStorage :=
  r.1.2.
Definition TraceOf {A} (r : Result A * TempStorage * list Event) : list Event :=
  r.2.

(** ** Strings *)

(** [String.Split(separators)]: the pieces between the separators, empty
    pieces included; an empty string has one empty piece. *)
Fixpoint Split (Separators : list ascii) (s : string) : list string :=
  match s with
  | EmptyString => [EmptyString]
  | String c s' =>
      if bool_decide (c ∈ Separators) then EmptyString :: Split Separators s'
      else
        match Split Separators s' with
        | [] => [String c EmptyString]
        | Piece :: Pieces => String c Piece :: Pieces
        end
  end.

(** [String.Split(separators, StringSplitOptions.RemoveEmptyEntries)] *)
Definition SplitRemoveEmptyEntries (Separators : list ascii) (s : string)
    : list string :=
  filter (fun Piece => Piece ≠ EmptyString) (Split Separators s).

(** White space, for the characters of the ASCII range. *)
Definition IsWhiteSpace (c : ascii) : bool :=
  let n := nat_of_ascii c in
  ((9 <=? n) && (n <=? 13)) || (n =? 32).

(** The list without the white space it starts with. *)
Fixpoint TrimStartChars (l : list ascii) : list ascii :=
  match l with
  | [] => []
  | c :: l' => if IsWhiteSpace c then TrimStartChars l' else l
  end.

(** [String.Trim()] *)
Definition Trim (s : string) : string :=
  string_of_list_ascii
    (rev (TrimStartChars (rev (TrimStartChars (list_ascii_of_string s))))).

(** The lower case of a letter of the ASCII range. *)
Definition ToLowerChar (c : ascii) : ascii :=
  let n := nat_of_ascii c in
  if (65 <=? n) && (n <=? 90) then ascii_of_nat (n + 32) else c.

(** [String.Equals(other, StringComparison.InvariantCultureIgnoreCase)],
    for strings of the ASCII range. *)
Definition EqualsIgnoreCase (a b : string) : bool :=
  bool_decide (map ToLowerChar (list_ascii_of_string a)
               = map ToLowerChar (list_ascii_of_string b)).

(** ** External collaborators *)

(** [new ScriptTask(Name, Type, ParametersType)] *)
Record ScriptTask : Type := MkScriptTask {
  TaskName : string;
  TaskType : string;
  TaskParametersType : string
}.

(** What reflection shows of a loaded assembly: its types, the
    [TaskElementAttribute]s of each and whether the type derives from
    [CustomTask]; and its location relative to the engine directory when it
    is under it. *)
Record TaskElementAttribute : Type := MkTaskElement {
  ElementName : string;
  ParametersType : string
}.

Record TypeInfo : Type := MkTypeInfo {
  TypeName : string;
  IsSubclassOfCustomTask : bool;
  TaskElementAttributes : list TaskElementAttribute
}.

Record Assembly : Type := MkAssembly {
  LocationUnderEngineDirectory : option string;
  Types : list TypeInfo
}.

(** The process and the machine the command runs on.  The local cache on
    disk is the storage that [Execute] starts from; the shared storage is
    found under the directory of [-SharedStorageDir=]. *)
Record Host : Type := MkHost {
  LoadedAssemblies : list Assembly;
  DirectorySeparatorChar : ascii;
  AltDirectorySeparatorChar : ascii;
  IsBuildMachine : bool;
  SharedStorageOnDisk : string -> gmap (string * string) TempStorageManifest
}.

Inductive ExitCode : Type :=
| Success
| Error_Unknown.

(** The command line, as [Execute] parses it with [ParseParamValue],
    [ParseParamValues] and [ParseParam]; [None] is a [null] value. *)
Record CommandLine : Type := MkCommandLine {
  ScriptParam : option string;
  TargetParam : option string;
  SchemaParam : option string;
  ExportParam : option string;
  SharedStorageDirParam : option string;
  SingleNodeParam : option string;
  TriggerParam : string;
  SkipTriggersParam : bool;
  CleanParam : bool;
  ListOnlyParam : bool;
  WriteToSharedStorageParam : bool;
  PublicTasksOnlyParam : bool;
  ShowDepsParam : bool;
  ShowNotificationsParam : bool;
  CleanNodeParams : list string
}.

(** The classes and functions the command calls and the sources do not
    contain: the build logic of a node, the integrity check of the storage
    (it reads the files on disk), the conversions between files and
    manifest entries, the script reader and the operations of [Graph]. *)
Class Collaborators : Type := {
  (** [Node.Build(Job, TagNameToFileSet)]: the result and the dictionary
      as the build logic left it. *)
  NodeBuild : Node -> TagMap -> bool * TagMap;
  (** [TempStorage.CheckLocalIntegrity(NodeName, OutputNames)] *)
  LocalIntegrity : TempStorage -> string -> list string -> bool;
  (** [TempStorageFile.ToFileReference(RootDir)] *)
  ToFileReference : string -> string;
  (** [FileReference.MakeRelativeTo(RootDir)] *)
  MakeRelativeTo : string -> string;
  (** [ScriptReader.TryRead(File, DefaultProperties, Schema, out Graph)];
      the schema is made of the tasks found, and the properties come from
      the environment and the command line. *)
  TryRead : string -> CommandLine -> gmap string ScriptTask -> option Graph;
  (** [Graph.TryResolveReference(Name, out Nodes)] *)
  TryResolveReference : Graph -> string -> option (list Node);
  (** [Graph.Select(TargetNodes)], as the graph it leaves *)
  Select : Graph -> list Node -> Graph
}.

(** ** The operations of the temp storage *)

(** Modelled from the spec: [IsComplete] is true if a completion marker
    for the node exists in local storage. *)
Definition IsComplete (NodeName : string) : M bool :=
  s <- get ;;
  let b := bool_decide (NodeName ∈ CompleteMarkers s) in
  emit (EvIsComplete NodeName b) ;;; ret b.

(** Modelled from the spec: [MarkAsComplete] writes the completion
    marker. *)
Definition MarkAsComplete (NodeName : string) : M unit :=
  s <- get ;;
  emit (EvMarkAsComplete NodeName) ;;;
  put {| CompleteMarkers := {[NodeName]} ∪ CompleteMarkers s;
         LocalManifests := LocalManifests s;
         SharedManifests := SharedManifests s;
         bWriteToSharedStorage := bWriteToSharedStorage s |}.

(** Modelled from the spec: [CleanLocalNode] removes the local manifests
    and the completion marker of a node. *)
Definition CleanLocalNode (NodeName : string) : M unit :=
  s <- get ;;
  emit (EvCleanLocalNode NodeName) ;;;
  put {| CompleteMarkers := CompleteMarkers s ∖ {[NodeName]};
         LocalManifests :=
           filter (fun kv => fst (fst kv) ≠ NodeName) (LocalManifests s);
         SharedManifests := SharedManifests s;
         bWriteToSharedStorage := bWriteToSharedStorage s |}.

(** Modelled from the spec: [CleanLocal] does so for all nodes. *)
Definition CleanLocal : M unit :=
  s <- get ;;
  emit EvCleanLocal ;;;
  put {| CompleteMarkers := ∅;
         LocalManifests := ∅;
         SharedManifests := SharedManifests s;
         bWriteToSharedStorage := bWriteToSharedStorage s |}.

(** Modelled from the spec: [Retreive] returns the manifest of an output,
    fetching it from shared storage into the local cache first if it is not
    local, and fails with [MissingOutput] if it is in neither. *)
Definition Retreive (NodeName OutputName : string) : M TempStorageManifest :=
  s <- get ;;
  emit (EvRetreive NodeName OutputName) ;;;
  match LocalManifests s !! (NodeName, OutputName) with
  | Some Manifest => ret Manifest
  | None =>
      match SharedManifests s ≫= (fun sh => sh !! (NodeName, OutputName)) with
      | Some Manifest =>
          put {| CompleteMarkers := CompleteMarkers s;
                 LocalManifests :=
                   <[(NodeName, OutputName) := Manifest]> (LocalManifests s);
                 SharedManifests := SharedManifests s;
                 bWriteToSharedStorage := bWriteToSharedStorage s |} ;;;
          ret Manifest
      | None => throw (MissingOutput NodeName OutputName)
      end
  end.

Section Engine.
Context `{!Collaborators}.

(** Modelled from the spec: [Archive] records the manifest locally and,
    if the output must be pushed and shared writes are enabled, in shared
    storage as well. *)
Definition Archive (NodeName OutputName : string) (Files : gset string)
    (bPushToShared : bool) : M unit :=
  s <- get ;;
  emit (EvArchive NodeName OutputName Files bPushToShared) ;;;
  let Manifest := map MakeRelativeTo (elements Files) in
  put {| CompleteMarkers := CompleteMarkers s;
         LocalManifests :=
           <[(NodeName, OutputName) := Manifest]> (LocalManifests s);
         SharedManifests :=
           if bPushToShared && bWriteToSharedStorage s
           then insert (NodeName, OutputName) Manifest <$> SharedManifests s
           else SharedManifests s;
         bWriteToSharedStorage := bWriteToSharedStorage s |}.

(** [Storage.CheckLocalIntegrity(NodeName, OutputNames)] *)
Definition CheckLocalIntegrity (NodeName : string) (OutputNames : list string)
    : M bool :=
  s <- get ;;
  let b := LocalIntegrity s NodeName OutputNames in
  emit (EvCheckLocalIntegrity NodeName OutputNames b) ;;; ret b.

(** ** Building one node *)

(** The first loop of [BuildSingleNode]: every output name of the graph is
    bound to [null]. *)
Definition SeedTagNames (G : Graph) : TagMap :=
  foldl (fun (TagNameToFileSet : TagMap) OutputName =>
           <[OutputName := None]> TagNameToFileSet)
        ∅ (AllOutputNames G).

(** The second loop: the manifest of every input is retrieved from the
    node that produces it.  The indexer [Graph.OutputNameToNode[InputName]]
    throws when the key is absent. *)
Fixpoint FetchInputs (G : Graph) (Inputs : list string)
    (TagNameToFileSet : TagMap) : M TagMap :=
  match Inputs with
  | [] => ret TagNameToFileSet
  | InputName :: Inputs' =>
      match OutputNameToNode G !! InputName with
      | None => throw (KeyNotFound InputName)
      | Some InputNode =>
          Manifest <- Retreive (Name InputNode) InputName ;;
          FetchInputs G Inputs'
            (<[InputName := Some (list_to_set (map ToFileReference Manifest))]>
               TagNameToFileSet)
      end
  end.

(** The third loop: the outputs of the node are bound to empty sets. *)
Definition AddPlaceholders (OutputNames : list string)
    (TagNameToFileSet : TagMap) : TagMap :=
  foldl (fun (TagNameToFileSet : TagMap) OutputName =>
           <[OutputName := Some ∅]> TagNameToFileSet)
        TagNameToFileSet OutputNames.

(** The outputs referenced from another agent group or from behind
    another trigger. *)
Definition ReferencedInGroup (n : Node) (Group : AgentGroup)
    (ReferencedOutputs : gset string) : gset string :=
  let bSameGroup := ContainsNode (Nodes Group) n in
  foldl (fun (ReferencedOutputs : gset string) OtherNode =>
           if negb bSameGroup
              || negb (SameTrigger (ControllingTrigger n)
                                   (ControllingTrigger OtherNode))
           then ReferencedOutputs ∪ list_to_set (InputNames OtherNode)
           else ReferencedOutputs)
        ReferencedOutputs (Nodes Group).

Definition FindReferencedOutputs (G : Graph) (n : Node) : gset string :=
  foldl (fun ReferencedOutputs Group =>
           ReferencedInGroup n Group ReferencedOutputs)
        ∅ (Groups G).

(** The last loop: every output is archived.  [TagNameToFileSet[OutputName]]
    throws when the key is absent, and [ToArray] when it is bound to
    [null]. *)
Definition PublishOutput (n : Node) (TagNameToFileSet : TagMap)
    (ReferencedOutputs : gset string) (OutputName : string) : M unit :=
  match TagNameToFileSet !! OutputName with
  | None => throw (KeyNotFound OutputName)
  | Some None => throw (NullReference OutputName)
  | Some (Some Files) =>
      Archive (Name n) OutputName Files
              (bool_decide (OutputName ∈ ReferencedOutputs))
  end.

(** [BuildSingleNode(Job, Graph, Node, Storage)] *)
Definition BuildSingleNode (G : Graph) (n : Node) : M bool :=
  emit (EvBuildSingleNode n) ;;;
  TagNameToFileSet <- FetchInputs G (InputNames n) (SeedTagNames G) ;;
  let TagNameToFileSet := AddPlaceholders (OutputNames n) TagNameToFileSet in
  let built := NodeBuild n TagNameToFileSet in
  emit (EvNodeBuild n TagNameToFileSet (fst built)) ;;;
  if negb (fst built) then ret false
  else
    let ReferencedOutputs := FindReferencedOutputs G n in
    ForEach (OutputNames n) (PublishOutput n (snd built) ReferencedOutputs) ;;;
    MarkAsComplete (Name n) ;;;
    ret true.

(** ** The mapping from files to output names *)

(** The inner loop of [FindFileToOutputNameMapping], over the files of one
    output. *)
Fixpoint MapFilesToOutputName (OutputName : string) (Files : list string)
    (FileToOutputName : gmap string string) (bResult : bool)
    : M (gmap string string * bool) :=
  match Files with
  | [] => ret (FileToOutputName, bResult)
  | File :: Files' =>
      match FileToOutputName !! File with
      | Some ExistingOutputName =>
          emit (EvLogError (AddedToMultipleOutputs (MakeRelativeTo File)
                              ExistingOutputName OutputName)) ;;;
          MapFilesToOutputName OutputName Files' FileToOutputName false
      | None =>
          MapFilesToOutputName OutputName Files'
            (<[File := OutputName]> FileToOutputName) bResult
      end
  end.

(** The outer loop, over the output names of the node.  Enumerating a file
    set that is [null] throws. *)
Fixpoint MapOutputNames (Outputs : list string) (TagNameToFileSet : TagMap)
    (FileToOutputName : gmap string string) (bResult : bool)
    : M (gmap string string * bool) :=
  match Outputs with
  | [] => ret (FileToOutputName, bResult)
  | OutputName :: Outputs' =>
      match TagNameToFileSet !! OutputName with
      | Some (Some FileSet) =>
          r <- MapFilesToOutputName OutputName (elements FileSet)
                 FileToOutputName bResult ;;
          MapOutputNames Outputs' TagNameToFileSet (fst r) (snd r)
      | Some None => throw (NullReference OutputName)
      | None =>
          MapOutputNames Outputs' TagNameToFileSet FileToOutputName bResult
      end
  end.

(** [FindFileToOutputNameMapping(Node, TagNameToFileSet, FileToOutputName)]:
    the dictionary as the method leaves it, and the value it returns. *)
Definition FindFileToOutputNameMapping (n : Node) (TagNameToFileSet : TagMap)
    (FileToOutputName : gmap string string) : M (gmap string string * bool) :=
  MapOutputNames (OutputNames n) TagNameToFileSet FileToOutputName true.

(** ** Building all nodes *)

(** The integrity pass of [BuildAllNodes].  [CleanedNodes] is a
    [HashSet<Node>]: the set of the references of the nodes in it.  The
    integrity check is only made when no dependency was cleaned. *)
Fixpoint IntegrityPass (NodesToExecute : list Node) (CleanedNodes : gset nat)
    : M (gset nat) :=
  match NodesToExecute with
  | [] => ret CleanedNodes
  | NodeToExecute :: Rest =>
      bClean <-
        (if existsb (fun x => bool_decide (x ∈ CleanedNodes))
                    (InputDependencies NodeToExecute)
         then ret true
         else
           bIntact <- CheckLocalIntegrity (Name NodeToExecute)
                        (OutputNames NodeToExecute) ;;
           ret (negb bIntact)) ;;
      if (bClean : bool) then
        CleanLocalNode (Name NodeToExecute) ;;;
        IntegrityPass Rest ({[NodeRef NodeToExecute]} ∪ CleanedNodes)
      else IntegrityPass Rest CleanedNodes
  end.

(** The execution loop of [BuildAllNodes]; [NodeIdx] is the number of
    nodes seen so far and [Total] is [NodesToExecute.Length]. *)
Fixpoint ExecuteInOrder (G : Graph) (Total NodeIdx : nat)
    (NodesToExecute : list Node) : M bool :=
  match NodesToExecute with
  | [] => ret true
  | NodeToExecute :: Rest =>
      emit (EvLog (NodeBanner (S NodeIdx) Total (Name NodeToExecute))) ;;;
      bComplete <- IsComplete (Name NodeToExecute) ;;
      if (bComplete : bool) then ExecuteInOrder G Total (S NodeIdx) Rest
      else
        emit (EvLog BlankLine) ;;;
        bBuilt <- BuildSingleNode G NodeToExecute ;;
        if (bBuilt : bool) then
          emit (EvLog BlankLine) ;;;
          ExecuteInOrder G Total (S NodeIdx) Rest
        else ret false
  end.

(** [BuildAllNodes(Job, Graph, Storage)] *)
Definition BuildAllNodes (G : Graph) : M bool :=
  emit EvBuildAllNodes ;;;
  let NodesToExecute := AllNodes G in
  IntegrityPass NodesToExecute ∅ ;;;
  ExecuteInOrder G (List.length NodesToExecute) 0 NodesToExecute.

(** ** Task discovery *)

(** [IsPublicAssembly(File)] *)
Definition IsPublicAssembly (host : Host) (a : Assembly) : bool :=
  match LocationUnderEngineDirectory a with
  | Some RelativePath =>
      let PathFragments :=
        Split [DirectorySeparatorChar host; AltDirectorySeparatorChar host]
              RelativePath in
      forallb (fun x => negb (EqualsIgnoreCase x "NotForLicensees")
                        && negb (EqualsIgnoreCase x "NoRedist"))
              PathFragments
  | None => false
  end.

(** The loops of [FindAvailableTasks], innermost first.  Each gives the
    dictionary as it leaves it and [false] when the method has returned
    [false]. *)
Fixpoint ScanAttributes (T : TypeInfo) (Attributes : list TaskElementAttribute)
    (NameToTask : gmap string ScriptTask) : M (gmap string ScriptTask * bool) :=
  match Attributes with
  | [] => ret (NameToTask, true)
  | ElementAttribute :: Attributes' =>
      if negb (IsSubclassOfCustomTask T) then
        emit (EvLogError (NotDerivedFromTask (TypeName T))) ;;;
        ret (NameToTask, false)
      else if bool_decide (is_Some (NameToTask !! ElementName ElementAttribute))
      then
        emit (EvLogError (MultipleHandlers (ElementName ElementAttribute))) ;;;
        ret (NameToTask, false)
      else
        ScanAttributes T Attributes'
          (<[ElementName ElementAttribute :=
               MkScriptTask (ElementName ElementAttribute) (TypeName T)
                            (ParametersType ElementAttribute)]> NameToTask)
  end.

Fixpoint ScanTypes (Ts : list TypeInfo) (NameToTask : gmap string ScriptTask)
    : M (gmap string ScriptTask * bool) :=
  match Ts with
  | [] => ret (NameToTask, true)
  | T :: Ts' =>
      r <- ScanAttributes T (TaskElementAttributes T) NameToTask ;;
      if snd r then ScanTypes Ts' (fst r) else ret r
  end.

Fixpoint ScanAssemblies (Assemblies : list Assembly)
    (NameToTask : gmap string ScriptTask) : M (gmap string ScriptTask * bool) :=
  match Assemblies with
  | [] => ret (NameToTask, true)
  | LoadedAssembly :: Assemblies' =>
      r <- ScanTypes (Types LoadedAssembly) NameToTask ;;
      if snd r then ScanAssemblies Assemblies' (fst r) else ret r
  end.

(** [FindAvailableTasks(NameToTask, bPublicTasksOnly)] *)
Definition FindAvailableTasks (host : Host)
    (NameToTask : gmap string ScriptTask) (bPublicTasksOnly : bool)
    : M (gmap string ScriptTask * bool) :=
  let Assemblies :=
    if bPublicTasksOnly
    then List.filter (IsPublicAssembly host) (LoadedAssemblies host)
    else LoadedAssemblies host in
  ScanAssemblies Assemblies NameToTask.

(** ** The entry point *)

(** [HashSet<Node>.Add] and [UnionWith], in the order of insertion. *)
Definition AddNode (Set_ : list Node) (n : Node) : list Node :=
  if ContainsNode Set_ n then Set_ else Set_ ++ [n].

Definition UnionWithNodes (Set_ : list Node) (Other : list Node) : list Node :=
  foldl AddNode Set_ Other.

(** [HashSet<ManualTrigger>.Add] and [UnionWith] *)
Definition AddTrigger (Set_ : list ManualTrigger) (t : ManualTrigger)
    : list ManualTrigger :=
  if existsb (fun x => bool_decide (TriggerRef x = TriggerRef t)) Set_
  then Set_ else Set_ ++ [t].

Definition UnionWithTriggers (Set_ Other : list ManualTrigger)
    : list ManualTrigger :=
  foldl AddTrigger Set_ Other.

(** [FindCompletedNodes(Graph, Storage)] *)
Fixpoint CollectCompleted (l : list Node) (CompletedNodes : list Node)
    : M (list Node) :=
  match l with
  | [] => ret CompletedNodes
  | n :: l' =>
      b <- IsComplete (Name n) ;;
      CollectCompleted l' (if (b : bool) then AddNode CompletedNodes n
                           else CompletedNodes)
  end.

Definition FindCompletedNodes (G : Graph) : M (list Node) :=
  CollectCompleted (AllNodes G) [].

(** The loop that converts the target references into nodes; [None] when
    [Execute] has returned from inside it. *)
Fixpoint ResolveTargets (G : Graph) (Names : list string)
    (TargetNodes : list Node) : M (option (list Node)) :=
  match Names with
  | [] => ret (Some TargetNodes)
  | TargetName :: Names' =>
      match TryResolveReference G TargetName with
      | None =>
          emit (EvLogError (TargetNotInGraph TargetName)) ;;; ret None
      | Some Found => ResolveTargets G Names' (UnionWithNodes TargetNodes Found)
      end
  end.

(** [while(Trigger != null) { Triggers.Add(Trigger); Trigger = Trigger.Parent; }] *)
Fixpoint AddWithUpstream (Trigger : ManualTrigger)
    (Triggers : list ManualTrigger) : list ManualTrigger :=
  match Trigger with
  | MkTrigger _ _ None => AddTrigger Triggers Trigger
  | MkTrigger _ _ (Some Up) => AddWithUpstream Up (AddTrigger Triggers Trigger)
  end.

(** The loop that finds the triggers which are explicitly activated;
    [None] when [Execute] has returned from inside it. *)
Fixpoint FindTriggers (G : Graph) (TriggerNames : list string)
    (Triggers : list ManualTrigger) : M (option (list ManualTrigger)) :=
  match TriggerNames with
  | [] => ret (Some Triggers)
  | TriggerName :: TriggerNames' =>
      match NameToTrigger G !! TriggerName with
      | None =>
          emit (EvLogError (TriggerNotFound TriggerName)) ;;; ret None
      | Some Trigger =>
          FindTriggers G TriggerNames' (AddWithUpstream Trigger Triggers)
      end
  end.

(** [new TempStorage(RootDir, LocalDir, SharedDir, bWriteToSharedStorage)]
    over the local cache found on disk. *)
Definition NewTempStorage (host : Host) (SharedStorageDir : option string)
    (bWrite : bool) : M unit :=
  s <- get ;;
  put {| CompleteMarkers := CompleteMarkers s;
         LocalManifests := LocalManifests s;
         SharedManifests := SharedStorageOnDisk host <$> SharedStorageDir;
         bWriteToSharedStorage := bWrite |}.

Definition ExitCodeOf (b : bool) : ExitCode :=
  if b then Success else Error_Unknown.

(** The end of [Execute], from the comment [Execute the command] on. *)
Definition ExecuteCommand (cl : CommandLine) (G : Graph)
    (Triggers : list ManualTrigger) (SingleNode : option Node) : M ExitCode :=
  if ListOnlyParam cl then
    CompletedNodes <- FindCompletedNodes G ;;
    emit (EvPrint CompletedNodes (ShowDepsParam cl) (ShowNotificationsParam cl)) ;;;
    ret Success
  else
    match ExportParam cl with
    | Some ExportFileName =>
        CompletedNodes <- FindCompletedNodes G ;;
        emit (EvPrint CompletedNodes (ShowDepsParam cl)
                      (ShowNotificationsParam cl)) ;;;
        emit (EvExport ExportFileName Triggers CompletedNodes) ;;;
        ret Success
    | None =>
        match SingleNode with
        | Some n => b <- BuildSingleNode G n ;; ret (ExitCodeOf b)
        | None => b <- BuildAllNodes G ;; ret (ExitCodeOf b)
        end
    end.

(** What [Execute] has when it reaches the comment [Execute the command]:
    the culled graph, the active triggers and the single node to build, if
    any. *)
Definition Prepared : Type := Graph * list ManualTrigger * option Node.

(** The block of [Execute] that creates the temp storage handler and
    cleans what the command line asks to clean. *)
Definition CreateTempStorage (cl : CommandLine) (host : Host) : M unit :=
  NewTempStorage host (SharedStorageDirParam cl)
    (WriteToSharedStorageParam cl || IsBuildMachine host) ;;;
  (if CleanParam cl then CleanLocal else ret tt) ;;;
  ForEach (flat_map (Split ["+"%char]) (CleanNodeParams cl)) CleanLocalNode.

(** The blocks of [Execute] that convert the target references into nodes,
    cull the graph, find the active triggers and find the single node;
    [None] when the method has returned [ExitCode.Error_Unknown]. *)
Definition ResolveGraph (cl : CommandLine) (G : Graph) (TargetNames : string)
    : M (option Prepared) :=
  Resolved <- ResolveTargets G
                (map Trim (SplitRemoveEmptyEntries ["+"%char] TargetNames)) [] ;;
  match Resolved with
  | None => ret None
  | Some TargetNodes =>
      let G := Select G TargetNodes in
      Found <- FindTriggers G
                 (SplitRemoveEmptyEntries ["+"%char] (TriggerParam cl)) [] ;;
      match Found with
      | None => ret None
      | Some Triggers =>
          let Triggers :=
            if SkipTriggersParam cl
            then UnionWithTriggers Triggers
                   (snd <$> map_to_list (NameToTrigger G))
            else Triggers in
          match SingleNodeParam cl with
          | Some SingleNodeName =>
              match NameToNode G !! SingleNodeName with
              | None =>
                  emit (EvLogError (NodeNotInTrimmedGraph SingleNodeName)) ;;;
                  ret None
              | Some SingleNode => ret (Some (G, Triggers, Some SingleNode))
              end
          | None => ret (Some (G, Triggers, None))
          end
      end
  end.

(** [Execute], from the graph that was read up to the comment [Execute the
    command]. *)
Definition PrepareGraph (cl : CommandLine) (host : Host) (G : Graph)
    (TargetNames : string) : M (option Prepared) :=
  CreateTempStorage cl host ;;; ResolveGraph cl G TargetNames.

(** [Execute], up to the comment [Execute the command]; [None] when the
    method has returned [ExitCode.Error_Unknown]. *)
Definition Prepare (cl : CommandLine) (host : Host) : M (option Prepared) :=
  match ScriptParam cl with
  | None => emit (EvLogError MissingScriptParameter) ;;; ret None
  | Some ScriptFileName =>
      match TargetParam cl with
      | None => emit (EvLogError MissingTargetParameter) ;;; ret None
      | Some TargetNames =>
          Tasks <- FindAvailableTasks host ∅ (PublicTasksOnlyParam cl) ;;
          if negb (snd Tasks) then ret None
          else
            match SchemaParam cl with
            | Some SchemaFileName => emit (EvSchemaExport SchemaFileName)
            | None => ret tt
            end ;;;
            match TryRead ScriptFileName cl (fst Tasks) with
            | None => ret None
            | Some G => PrepareGraph cl host G TargetNames
            end
      end
  end.

(** [Execute()] *)
Definition Execute (cl : CommandLine) (host : Host) : M ExitCode :=
  Ready <- Prepare cl host ;;
  match Ready with
  | None => ret Error_Unknown
  | Some (G, Triggers, SingleNode) => ExecuteCommand cl G Triggers SingleNode
  end.

End Engine.

(** ** A small graph to run the engine on *)

Module Sample.

(** Two triggers, [Release] behind [QA]. *)
Definition QA : ManualTrigger := MkTrigger 1 "QA" None.
Definition Release : ManualTrigger := MkTrigger 2 "Release" (Some QA).

(** [Compile] produces two outputs, [Package] consumes one of them in the
    same agent group, and [Publish] runs on another agent behind a
    trigger. *)
Definition Compile : Node :=
  MkNode 1 "Compile" [] ["ObjFiles"; "Debug"] [] None.
Definition Package : Node :=
  MkNode 2 "Package" ["ObjFiles"] ["Archive"] [1] None.
Definition Publish : Node :=
  MkNode 3 "Publish" ["Archive"] ["Published"] [1; 2] (Some QA).

Definition BuildAgent : AgentGroup := MkGroup "BuildAgent" [Compile; Package].
Definition PublishAgent : AgentGroup := MkGroup "PublishAgent" [Publish].

Definition TheGraph : Graph :=
  {| Groups := [BuildAgent; PublishAgent];
     NameToNode :=
       {[ "Compile" := Compile; "Package" := Package; "Publish" := Publish ]};
     OutputNameToNode :=
       {[ "ObjFiles" := Compile; "Debug" := Compile; "Archive" := Package;
          "Published" := Publish ]};
     NameToTrigger := {[ "QA" := QA; "Release" := Release ]} |}.

(** Build logic that writes one file per output, named after the node and
    the output, and fails for the nodes in [Failing]. *)
Definition WriteOutputs (Failing : list string) (n : Node) (Tags : TagMap)
    : bool * TagMap :=
  (bool_decide (Name n ∉ Failing),
   foldl (fun (Tags : TagMap) OutputName =>
            <[OutputName := Some {[ "/" +:+ Name n +:+ "/" +:+ OutputName ]}]> Tags)
         Tags (OutputNames n)).

(** Build logic that writes the same file to every output of the node. *)
Definition WriteSameFile (n : Node) (Tags : TagMap) : bool * TagMap :=
  (true,
   foldl (fun (Tags : TagMap) OutputName =>
            <[OutputName := Some {[ "/a.obj" ]}]> Tags)
         Tags (OutputNames n)).

Definition DropSlash (File : string) : string :=
  match File with
  | String "/" Rest => Rest
  | _ => File
  end.

(** A reference is the name of a node, or [#] and the name of an output. *)
Definition ResolveReference (G : Graph) (Reference : string)
    : option (list Node) :=
  match NameToNode G !! Reference with
  | Some n => Some [n]
  | None =>
      match Reference with
      | String "#" Tag => (fun n => [n]) <$> OutputNameToNode G !! Tag
      | _ => None
      end
  end.

(** The nodes of [Targets] and the nodes they depend on are kept. *)
Definition Keep (Targets : list Node) (n : Node) : bool :=
  existsb (fun t => SameNode t n || bool_decide (NodeRef n ∈ InputDependencies t))
          Targets.

Definition SelectNodes (G : Graph) (Targets : list Node) : Graph :=
  {| Groups :=
       List.filter (fun g => negb (bool_decide (Nodes g = [])))
         (map (fun g => MkGroup (GroupName g) (List.filter (Keep Targets) (Nodes g)))
              (Groups G));
     NameToNode := filter (fun kv => Keep Targets (snd kv) = true) (NameToNode G);
     OutputNameToNode :=
       filter (fun kv => Keep Targets (snd kv) = true) (OutputNameToNode G);
     NameToTrigger := NameToTrigger G |}.

(** The collaborators: the build logic is a parameter, the local cache of
    the nodes in [Stale] fails its integrity check, and the only script is
    [Build.xml]. *)
Definition Tools (Build : Node -> TagMap -> bool * TagMap)
    (Stale : list string) : Collaborators :=
  {| NodeBuild := Build;
     LocalIntegrity := fun _ NodeName _ => bool_decide (NodeName ∉ Stale);
     ToFileReference := fun Rel => "/" +:+ Rel;
     MakeRelativeTo := DropSlash;
     TryRead := fun File _ _ =>
       if bool_decide (File = "Build.xml") then Some TheGraph else None;
     TryResolveReference := ResolveReference;
     Select := SelectNodes |}.

Definition EmptyStorage : TempStorage :=
  {| CompleteMarkers := ∅; LocalManifests := ∅; SharedManifests := None;
     bWriteToSharedStorage := false |}.

Definition BuildTasks : Assembly :=
  MkAssembly (Some "Binaries/DotNET/AutomationScripts/BuildGraph.Automation.dll")
    [MkTypeInfo "CopyTask" true [MkTaskElement "Copy" "CopyTaskParameters"];
     MkTypeInfo "LogTask" true [MkTaskElement "Log" "LogTaskParameters"]].

Definition TheHost : Host :=
  {| LoadedAssemblies := [BuildTasks];
     DirectorySeparatorChar := "\";
     AltDirectorySeparatorChar := "/";
     IsBuildMachine := false;
     SharedStorageOnDisk := fun _ => ∅ |}.

Definition Args (Target : string) : CommandLine :=
  {| ScriptParam := Some "Build.xml"; TargetParam := Some Target;
     SchemaParam := None; ExportParam := None; SharedStorageDirParam := None;
     SingleNodeParam := None; TriggerParam := ""; SkipTriggersParam := false;
     CleanParam := false; ListOnlyParam := false;
     WriteToSharedStorageParam := false; PublicTasksOnlyParam := false;
     ShowDepsParam := false; ShowNotificationsParam := false;
     CleanNodeParams := [] |}.

(** The command line [-Script=Build.xml -Target=Package -SingleNode=Compile],
    with [-ListOnly] or without. *)
Definition SingleNodeArgs (bListOnly : bool) : CommandLine :=
  {| ScriptParam := Some "Build.xml"; TargetParam := Some "Package";
     SchemaParam := None; ExportParam := None; SharedStorageDirParam := None;
     SingleNodeParam := Some "Compile"; TriggerParam := "";
     SkipTriggersParam := false; CleanParam := false;
     ListOnlyParam := bListOnly; WriteToSharedStorageParam := false;
     PublicTasksOnlyParam := false; ShowDepsParam := false;
     ShowNotificationsParam := false; CleanNodeParams := [] |}.

(** The command line with the targets [Target] and the triggers
    [Trigger]. *)
Definition TriggerArgs (Target Trigger : string) : CommandLine :=
  {| ScriptParam := Some "Build.xml"; TargetParam := Some Target;
     SchemaParam := None; ExportParam := None; SharedStorageDirParam := None;
     SingleNodeParam := None; TriggerParam := Trigger;
     SkipTriggersParam := false; CleanParam := false; ListOnlyParam := false;
     WriteToSharedStorageParam := false; PublicTasksOnlyParam := false;
     ShowDepsParam := false; ShowNotificationsParam := false;
     CleanNodeParams := [] |}.

(** A local cache in which [Compile] is complete. *)
Definition CompileDone : TempStorage :=
  {| CompleteMarkers := {[ "Compile" ]};
     LocalManifests :=
       {[ ("Compile", "ObjFiles") := ["Compile/ObjFiles"];
          ("Compile", "Debug") := ["Compile/Debug"] ]};
     SharedManifests := None; bWriteToSharedStorage := false |}.

(** An assembly in which two classes handle the task element [Copy]. *)
Definition ClashingTasks : Assembly :=
  MkAssembly None
    [MkTypeInfo "CopyTask" true [MkTaskElement "Copy" "CopyTaskParameters"];
     MkTypeInfo "MyCopyTask" true [MkTaskElement "Copy" "MyCopyTaskParameters"]].

Definition ClashingHost : Host :=
  {| LoadedAssemblies := [ClashingTasks];
     DirectorySeparatorChar := "\";
     AltDirectorySeparatorChar := "/";
     IsBuildMachine := false;
     SharedStorageOnDisk := fun _ => ∅ |}.

(** The collaborators with build logic that succeeds and a local cache that
    is intact. *)
Definition Plain : Collaborators := Tools (WriteOutputs []) [].

End Sample.

(** * Vocabulary of the statements *)

(** The event is a call of [Retreive]. *)
Definition IsRetreive (e : Event) : Prop :=
  match e with EvRetreive _ _ => True | _ => False end.

(** The call of [Archive] for the output [OutputName] of the node [n],
    from the tag map that the build logic left and the set of referenced
    outputs. *)
Definition ArchiveEvent (n : Node) (Tags : TagMap) (Referenced : gset string)
    (OutputName : string) : Event :=
  EvArchive (Name n) OutputName (default ∅ (default None (Tags !! OutputName)))
            (bool_decide (OutputName ∈ Referenced)).

Section Vocabulary.
Context `{!Collaborators}.

(** The runs of [BuildSingleNode] from the storage [s]: the inputs are
    fetched, the build logic runs on the tag map, the outputs are archived
    in order and the node is marked as complete; the run ends early when
    fetching or publishing throws, or when the build logic fails. *)
Inductive SingleNodeRun (G : Graph) (n : Node) (s : TempStorage)
    : Result bool -> list Event -> Prop :=
| FetchRaised e s1 Fetched :
    FetchInputs G (InputNames n) (SeedTagNames G) s = (Raise e, s1, Fetched) ->
    SingleNodeRun G n s (Raise e) (EvBuildSingleNode n :: Fetched)
| BuildFailed Tags s1 Fetched :
    FetchInputs G (InputNames n) (SeedTagNames G) s = (Ok Tags, s1, Fetched) ->
    fst (NodeBuild n (AddPlaceholders (OutputNames n) Tags)) = false ->
    SingleNodeRun G n s (Ok false)
      (EvBuildSingleNode n :: Fetched
         ++ [EvNodeBuild n (AddPlaceholders (OutputNames n) Tags) false])
| PublishRaised e Tags s1 Fetched Done Rest :
    FetchInputs G (InputNames n) (SeedTagNames G) s = (Ok Tags, s1, Fetched) ->
    fst (NodeBuild n (AddPlaceholders (OutputNames n) Tags)) = true ->
    OutputNames n = Done ++ Rest -> Rest ≠ [] ->
    SingleNodeRun G n s (Raise e)
      (EvBuildSingleNode n :: Fetched
         ++ EvNodeBuild n (AddPlaceholders (OutputNames n) Tags) true
         :: map (ArchiveEvent n
                   (snd (NodeBuild n (AddPlaceholders (OutputNames n) Tags)))
                   (FindReferencedOutputs G n)) Done)
| Built Tags s1 Fetched :
    FetchInputs G (InputNames n) (SeedTagNames G) s = (Ok Tags, s1, Fetched) ->
    fst (NodeBuild n (AddPlaceholders (OutputNames n) Tags)) = true ->
    SingleNodeRun G n s (Ok true)
      (EvBuildSingleNode n :: Fetched
         ++ EvNodeBuild n (AddPlaceholders (OutputNames n) Tags) true
         :: map (ArchiveEvent n
                   (snd (NodeBuild n (AddPlaceholders (OutputNames n) Tags)))
                   (FindReferencedOutputs G n)) (OutputNames n)
         ++ [EvMarkAsComplete (Name n)]).

End Vocabulary.

(** The event is a call of [MarkAsComplete]. *)
Definition IsMarkAsComplete (e : Event) : Prop :=
  match e with EvMarkAsComplete _ => True | _ => False end.

(** The output [OutputName] of the node [n] is consumed outside the scope
    of [n]: some node lists it among its inputs and is in an agent group
    that does not contain [n], or is in a group that contains [n] but
    behind another trigger. *)
Definition ConsumedOutsideScope (G : Graph) (n : Node) (OutputName : string)
    : Prop :=
  exists Group Other,
    Group ∈ Groups G /\ Other ∈ Nodes Group
    /\ OutputName ∈ InputNames Other
    /\ ((forall m, m ∈ Nodes Group -> NodeRef m ≠ NodeRef n)
        \/ ((exists m, m ∈ Nodes Group /\ NodeRef m = NodeRef n)
            /\ TriggerRef <$> ControllingTrigger n
               ≠ TriggerRef <$> ControllingTrigger Other)).

(** The manifest that the storage [s] holds for an output, in the local
    cache or else in shared storage: what [Retreive] gives. *)
Definition StoredManifest (s : TempStorage) (NodeName OutputName : string)
    : option TempStorageManifest :=
  match LocalManifests s !! (NodeName, OutputName) with
  | Some Manifest => Some Manifest
  | None => SharedManifests s ≫= (fun sh => sh !! (NodeName, OutputName))
  end.

(** The calls of the engine itself: [BuildAllNodes], [BuildSingleNode] and
    the build logic of a node. *)
Definition IsEngineCall (e : Event) : Prop :=
  match e with
  | EvBuildAllNodes | EvBuildSingleNode _ | EvNodeBuild _ _ _ => True
  | _ => False
  end.

(** The event is a call of [BuildSingleNode] or of the build logic for the
    node [n]. *)
Definition BuildsNode (n : Node) (e : Event) : Prop :=
  match e with
  | EvBuildSingleNode m | EvNodeBuild m _ _ => NodeRef m = NodeRef n
  | _ => False
  end.



Section Passes.
Context `{!Collaborators}.

(** The nodes that the integrity pass of [BuildAllNodes] cleans when it
    runs from the storage [s]. *)
Definition CleanedNodes (G : Graph) (s : TempStorage) : gset nat :=
  match ResultOf (IntegrityPass (AllNodes G) ∅ s) with
  | Ok Cleaned => Cleaned
  | Raise _ => ∅
  end.

(** Whether the integrity pass cleans the node [n] when it reaches it with
    the set [Cleaned] and the storage [s], and the events of the check. *)
Definition MustClean (n : Node) (Cleaned : gset nat) (s : TempStorage) : bool :=
  existsb (fun x => bool_decide (x ∈ Cleaned)) (InputDependencies n)
  || negb (LocalIntegrity s (Name n) (OutputNames n)).

Definition CheckEvents (n : Node) (Cleaned : gset nat) (s : TempStorage)
    : list Event :=
  if existsb (fun x => bool_decide (x ∈ Cleaned)) (InputDependencies n)
  then []
  else [EvCheckLocalIntegrity (Name n) (OutputNames n)
          (LocalIntegrity s (Name n) (OutputNames n))].

End Passes.

(** The event is a call of the build logic that returned failure. *)
Definition IsFailedBuild (e : Event) : Prop :=
  match e with EvNodeBuild _ _ false => True | _ => False end.

(** A run fails last when a failed call of the build logic, if there is
    one, is its last event, and when it has one exactly if it returns
    [false]. *)
Definition FailsLast (r : Result bool) (t : list Event) : Prop :=
  match r with
  | Ok false =>
      exists l e, t = l ++ [e] /\ IsFailedBuild e
                  /\ Forall (fun e => ¬ IsFailedBuild e) l
  | _ => Forall (fun e => ¬ IsFailedBuild e) t
  end.

(** The events of [Execute] before it executes the command. *)
Definition IsFrontEvent (e : Event) : Prop :=
  match e with
  | EvLogError _ | EvSchemaExport _ | EvCleanLocal | EvCleanLocalNode _ => True
  | _ => False
  end.

(** The names in the arguments [-Target=] and [-Trigger=]. *)
Definition TargetNamesOf (TargetNames : string) : list string :=
  map Trim (SplitRemoveEmptyEntries ["+"%char] TargetNames).

Definition TriggerNamesOf (cl : CommandLine) : list string :=
  SplitRemoveEmptyEntries ["+"%char] (TriggerParam cl).

(** The task elements that [FindAvailableTasks] scans, with the type that
    carries each, in the order of the scan. *)
Definition AttributesOfType (T : TypeInfo)
    : list (TypeInfo * TaskElementAttribute) :=
  map (pair T) (TaskElementAttributes T).

Definition ScannedAttributes (Assemblies : list Assembly)
    : list (TypeInfo * TaskElementAttribute) :=
  flat_map (fun a => flat_map AttributesOfType (Types a)) Assemblies.

Definition ElementNames (l : list (TypeInfo * TaskElementAttribute))
    : list string :=
  map (fun Ta => ElementName (snd Ta)) l.

(** The name [x] is at two places of the list. *)
Definition OccursTwice (x : string) (l : list string) : Prop :=
  exists l1 l2 l3, l = l1 ++ x :: l2 ++ x :: l3.

(** A computation of the front of [Execute] does not throw and emits
    front events only. *)
Definition Front {A} (m : M A) : Prop :=
  forall s, (exists a, ResultOf (m s) = Ok a)
            /\ Forall IsFrontEvent (TraceOf (m s)).

Section Configuration.
Context `{!Collaborators}.

(** The scan of [FindAvailableTasks] as one loop over the scanned
    attributes. *)
Fixpoint ScanFlat (l : list (TypeInfo * TaskElementAttribute))
    (NameToTask : gmap string ScriptTask) : M (gmap string ScriptTask * bool) :=
  match l with
  | [] => ret (NameToTask, true)
  | Ta :: l' =>
      if negb (IsSubclassOfCustomTask (fst Ta)) then
        emit (EvLogError (NotDerivedFromTask (TypeName (fst Ta)))) ;;;
        ret (NameToTask, false)
      else if bool_decide (is_Some (NameToTask !! ElementName (snd Ta))) then
        emit (EvLogError (MultipleHandlers (ElementName (snd Ta)))) ;;;
        ret (NameToTask, false)
      else
        ScanFlat l'
          (<[ElementName (snd Ta) :=
               MkScriptTask (ElementName (snd Ta)) (TypeName (fst Ta))
                            (ParametersType (snd Ta))]> NameToTask)
  end.

(** The assemblies that [FindAvailableTasks] scans. *)
Definition ScannedAssemblies (host : Host) (bPublicTasksOnly : bool)
    : list Assembly :=
  if bPublicTasksOnly
  then List.filter (IsPublicAssembly host) (LoadedAssemblies host)
  else LoadedAssemblies host.

(** The configuration errors of a run of [Execute] from the storage [s],
    with the message that reports each: a target that the graph read from
    the script does not resolve, a trigger that is not in the culled graph,
    a task element with two handlers, and a task element on a class that
    is not a task. *)
Inductive ConfigurationError (cl : CommandLine) (host : Host) (s : TempStorage)
    : LogMessage -> Prop :=
| UnknownTarget ScriptFileName TargetNames Tasks G TargetName :
    ScriptParam cl = Some ScriptFileName ->
    TargetParam cl = Some TargetNames ->
    ResultOf (FindAvailableTasks host ∅ (PublicTasksOnlyParam cl) s)
    = Ok (Tasks, true) ->
    TryRead ScriptFileName cl Tasks = Some G ->
    TargetName ∈ TargetNamesOf TargetNames ->
    TryResolveReference G TargetName = None ->
    ConfigurationError cl host s (TargetNotInGraph TargetName)
| UnknownTrigger ScriptFileName TargetNames Tasks G TargetNodes TriggerName :
    ScriptParam cl = Some ScriptFileName ->
    TargetParam cl = Some TargetNames ->
    ResultOf (FindAvailableTasks host ∅ (PublicTasksOnlyParam cl) s)
    = Ok (Tasks, true) ->
    TryRead ScriptFileName cl Tasks = Some G ->
    ResultOf (ResolveTargets G (TargetNamesOf TargetNames) [] s)
    = Ok (Some TargetNodes) ->
    TriggerName ∈ TriggerNamesOf cl ->
    NameToTrigger (Select G TargetNodes) !! TriggerName = None ->
    ConfigurationError cl host s (TriggerNotFound TriggerName)
| DuplicateHandler ScriptFileName TargetNames Name :
    ScriptParam cl = Some ScriptFileName ->
    TargetParam cl = Some TargetNames ->
    OccursTwice Name
      (ElementNames
         (ScannedAttributes (ScannedAssemblies host (PublicTasksOnlyParam cl)))) ->
    ConfigurationError cl host s (MultipleHandlers Name)
| HandlerNotATask ScriptFileName TargetNames T a :
    ScriptParam cl = Some ScriptFileName ->
    TargetParam cl = Some TargetNames ->
    (T, a) ∈ ScannedAttributes (ScannedAssemblies host (PublicTasksOnlyParam cl)) ->
    IsSubclassOfCustomTask T = false ->
    ConfigurationError cl host s (NotDerivedFromTask (TypeName T)).

End Configuration.

(** The event is a check of the completion marker or of the integrity of
    the local cache of a node. *)
Definition IsCompletenessCheck (e : Event) : Prop :=
  match e with
  | EvIsComplete _ _ | EvCheckLocalIntegrity _ _ _ => True
  | _ => False
  end.

(** The triggers above a trigger, nearest first. *)
Fixpoint Ancestors (t : ManualTrigger) : list ManualTrigger :=
  match t with
  | MkTrigger _ _ None => []
  | MkTrigger _ _ (Some Up) => Up :: Ancestors Up
  end.

(** The trigger [t] is in the set [Triggers] of active triggers. *)
Definition Active (Triggers : list ManualTrigger) (t : ManualTrigger) : Prop :=
  exists t', t' ∈ Triggers /\ TriggerRef t' = TriggerRef t.

(** ** Vocabulary of the further statements *)

(** The files that the tag map binds to an output name; none when the
    name is not bound. *)
Definition FilesOfOutput (TagNameToFileSet : TagMap) (OutputName : string)
    : gset string :=
  match TagNameToFileSet !! OutputName with
  | Some (Some FileSet) => FileSet
  | _ => ∅
  end.

(** The output names of the list that hold the file, in the order of the
    list. *)
Definition OutputsWithFile (TagNameToFileSet : TagMap) (Outputs : list string)
    (File : string) : list string :=
  filter (fun OutputName => File ∈ FilesOfOutput TagNameToFileSet OutputName)
         Outputs.

(** The error that [FindFileToOutputNameMapping] logs for a file. *)
Definition IsMultipleOutputsError (e : Event) : Prop :=
  match e with
  | EvLogError (AddedToMultipleOutputs _ _ _) => True
  | _ => False
  end.

(** The input has no node that produces it in the graph, or the storage
    has no manifest for it. *)
Definition InputIsMissing (G : Graph) (s : TempStorage) (InputName : string)
    : Prop :=
  match OutputNameToNode G !! InputName with
  | None => True
  | Some InputNode => StoredManifest s (Name InputNode) InputName = None
  end.

(** The event is a call of the engine, of the build logic, or of a method
    of the storage that fetches or records the work of a node. *)
Definition IsBuildWork (e : Event) : Prop :=
  match e with
  | EvBuildAllNodes | EvBuildSingleNode _ | EvNodeBuild _ _ _
  | EvRetreive _ _ | EvArchive _ _ _ _ | EvMarkAsComplete _
  | EvCheckLocalIntegrity _ _ _ => True
  | _ => False
  end.

(** The nodes for which a run enters [BuildSingleNode], in the order of
    the run. *)
Definition EnteredNode (e : Event) : option Node :=
  match e with EvBuildSingleNode n => Some n | _ => None end.

Definition BuiltNodes (t : list Event) : list Node := omap EnteredNode t.

(** The check of the completion marker of a node, as the storage [s]
    answers it. *)
Definition CompletionCheck (s : TempStorage) (n : Node) : Event :=
  EvIsComplete (Name n) (bool_decide (Name n ∈ CompleteMarkers s)).

(** The task that [FindAvailableTasks] makes of a task element. *)
Definition TaskOf (Ta : TypeInfo * TaskElementAttribute) : ScriptTask :=
  MkScriptTask (ElementName (snd Ta)) (TypeName (fst Ta))
               (ParametersType (snd Ta)).

Module MoreSamples.

(** The command line [-Script=Build.xml -Target=Package -SingleNode=Publish]:
    [Publish] is not in the graph culled to [Package]. *)
Definition CulledNodeArgs : CommandLine :=
  {| ScriptParam := Some "Build.xml"; TargetParam := Some "Package";
     SchemaParam := None; ExportParam := None; SharedStorageDirParam := None;
     SingleNodeParam := Some "Publish"; TriggerParam := "";
     SkipTriggersParam := false; CleanParam := false;
     ListOnlyParam := false; WriteToSharedStorageParam := false;
     PublicTasksOnlyParam := false; ShowDepsParam := false;
     ShowNotificationsParam := false; CleanNodeParams := [] |}.

(** The command line [-Script=Build.xml -Target=Publish -ListOnly -Clean]. *)
Definition ListArgs : CommandLine :=
  {| ScriptParam := Some "Build.xml"; TargetParam := Some "Publish";
     SchemaParam := None; ExportParam := None; SharedStorageDirParam := None;
     SingleNodeParam := None; TriggerParam := "";
     SkipTriggersParam := false; CleanParam := true;
     ListOnlyParam := true; WriteToSharedStorageParam := false;
     PublicTasksOnlyParam := false; ShowDepsParam := false;
     ShowNotificationsParam := false; CleanNodeParams := [] |}.

(** A tag map in which the two outputs of [Compile] share a file. *)
Definition SharedFile : TagMap :=
  {[ "ObjFiles" := Some {[ "/a.obj"; "/b.obj" ]};
     "Debug" := Some {[ "/a.obj" ]} ]}.

End MoreSamples.

(** * Animation curves

    The curve types of [AnimCurveTypes.cpp]: the flags of a curve, and the
    arrays of curves of [FRawCurveTracks]. *)

Module AnimCurve.

(** ** The flags of a curve *)

(** [int32]: the integers from [-2^31] up to [2^31]. *)
Definition IsInt32 (x : Z) : Prop := (- 2 ^ 31 <= x < 2 ^ 31)%Z.

(** [FAnimCurveBase::SetCurveTypeFlag(InFlag, bValue)], on the field
    [CurveTypeFlags]. *)
Definition SetCurveTypeFlag (CurveTypeFlags InFlag : Z) (bValue : bool) : Z :=
  if bValue then Z.lor CurveTypeFlags InFlag
  else Z.land CurveTypeFlags (Z.lnot InFlag).

(** [FAnimCurveBase::GetCurveTypeFlag(InFlag)] *)
Definition GetCurveTypeFlag (CurveTypeFlags InFlag : Z) : bool :=
  negb (Z.land CurveTypeFlags InFlag =? 0)%Z.

(** [FAnimCurveBase::ToggleCurveTypeFlag(InFlag)] *)
Definition ToggleCurveTypeFlag (CurveTypeFlags InFlag : Z) : Z :=
  let Current := GetCurveTypeFlag CurveTypeFlags InFlag in
  SetCurveTypeFlag CurveTypeFlags InFlag (negb Current).

(** ** Curves *)

Inductive ESupportedCurveType : Type :=
| FloatType
| VectorType
| TransformType.

Section Curves.

(** The types that the headers declare: [FRichCurve], [FName], [float]
    and [FQuat]. *)
Context {FRichCurve FName Float FQuat : Type}.

(** The fields of [FAnimCurveBase] that the file uses.  [CurveUid] is an
    unsigned integer that is only compared. *)
Record FAnimCurveBase : Type := MkBase {
  LastObservedName : FName;
  CurveUid : N;
  CurveTypeFlags : Z
}.

(** [FAnimCurveBase::SetCurveTypeFlags(NewCurveTypeFlags)] *)
Definition SetCurveTypeFlags (NewCurveTypeFlags : Z) (b : FAnimCurveBase)
    : FAnimCurveBase :=
  {| LastObservedName := LastObservedName b;
     CurveUid := CurveUid b;
     CurveTypeFlags := NewCurveTypeFlags |}.

(** [FAnimCurveBase::GetCurveTypeFlags()] *)
Definition GetCurveTypeFlags (b : FAnimCurveBase) : Z := CurveTypeFlags b.

Record FFloatCurve : Type := MkFloatCurve {
  FloatBase : FAnimCurveBase;
  FloatCurve : FRichCurve
}.

(** [FRichCurve FloatCurves[3]], indexed by [X], [Y] and [Z]. *)
Record FVectorCurve : Type := MkVectorCurve {
  VectorBase : FAnimCurveBase;
  CurveX : FRichCurve;
  CurveY : FRichCurve;
  CurveZ : FRichCurve
}.

Record FTransformCurve : Type := MkTransformCurve {
  TransformBase : FAnimCurveBase;
  TranslationCurve : FVectorCurve;
  RotationCurve : FVectorCurve;
  ScaleCurve : FVectorCurve
}.


Record FRotator : Type := MkRotator { Pitch : Float; Yaw : Float; Roll : Float }.


(** What the file takes from the headers and from the build:
    [FRichCurve::Eval] and [FRichCurve::UpdateOrAddKey(InTime, InValue)],
    the product of two [float]s and the [float] [1.f],
    [FVectorCurve::DoesContainKey], [FQuat::Rotator] and
    [FQuat(FRotator)], the constructors of the three curve types from a
    uid and flags, and whether the file is compiled [WITH_EDITOR]. *)
Class Headers : Type := {
  RichEval : FRichCurve -> Float -> Float;
  RichUpdateOrAddKey : FRichCurve -> Float -> Float -> FRichCurve;
  Fmul : Float -> Float -> Float;
  One : Float;
  DoesContainKey : FVectorCurve -> bool;
  QuatRotator : FQuat -> FRotator;
  MakeQuat : FRotator -> FQuat;
  NewFloatCurve : N -> Z -> FFloatCurve;
  NewVectorCurve : N -> Z -> FVectorCurve;
  NewTransformCurve : N -> Z -> FTransformCurve;
  WITH_EDITOR : bool
}.

Context {TheHeaders : Headers}.

(** [FFloatCurve::CopyCurve(SourceCurve)], as the curve it leaves *)
Definition FloatCopyCurve (This SourceCurve : FFloatCurve) : FFloatCurve :=
  {| FloatBase := FloatBase This; FloatCurve := FloatCurve SourceCurve |}.

(** [FFloatCurve::Evaluate(CurrentTime)] *)
Definition FloatEvaluate (This : FFloatCurve) (CurrentTime : Float) : Float :=
  RichEval (FloatCurve This) CurrentTime.

(** [FFloatCurve::UpdateOrAddKey(NewKey, CurrentTime)] *)
Definition FloatUpdateOrAddKey (This : FFloatCurve) (NewKey CurrentTime : Float)
    : FFloatCurve :=
  {| FloatBase := FloatBase This;
     FloatCurve := RichUpdateOrAddKey (FloatCurve This) CurrentTime NewKey |}.

(** [FVectorCurve::CopyCurve(SourceCurve)] *)
Definition VectorCopyCurve (This SourceCurve : FVectorCurve) : FVectorCurve :=
  {| VectorBase := VectorBase This;
     CurveX := CurveX SourceCurve;
     CurveY := CurveY SourceCurve;
     CurveZ := CurveZ SourceCurve |}.



(** [FTransformCurve::CopyCurve(SourceCurve)] *)
Definition TransformCopyCurve (This SourceCurve : FTransformCurve)
    : FTransformCurve :=
  {| TransformBase := TransformBase This;
     TranslationCurve :=
       VectorCopyCurve (TranslationCurve This) (TranslationCurve SourceCurve);
     RotationCurve :=
       VectorCopyCurve (RotationCurve This) (RotationCurve SourceCurve);
     ScaleCurve := VectorCopyCurve (ScaleCurve This) (ScaleCurve SourceCurve) |}.



(** What the templates of [FRawCurveTracks] use of their [DataType]: the
    base of a curve, the constructor from a uid and flags, and
    [CopyCurve]. *)
Class CurveType (DataType : Type) : Type := {
  Base : DataType -> FAnimCurveBase;
  Construct : N -> Z -> DataType;
  CopyCurve : DataType -> DataType -> DataType
}.

Global Instance FloatCurveType : CurveType FFloatCurve :=
  {| Base := FloatBase; Construct := NewFloatCurve; CopyCurve := FloatCopyCurve |}.

Global Instance VectorCurveType : CurveType FVectorCurve :=
  {| Base := VectorBase; Construct := NewVectorCurve;
     CopyCurve := VectorCopyCurve |}.

Global Instance TransformCurveType : CurveType FTransformCurve :=
  {| Base := TransformBase; Construct := NewTransformCurve;
     CopyCurve := TransformCopyCurve |}.

(** The constructor of a curve type stores the uid and the flags that it
    is given. *)
Definition ConstructorStores (DataType : Type) `{!CurveType DataType} : Prop :=
  forall Uid CurveFlags,
    CurveUid (Base (Construct Uid CurveFlags)) = Uid
    /\ CurveTypeFlags (Base (Construct Uid CurveFlags)) = CurveFlags.

(** ** The templates of [FRawCurveTracks] *)

Section Templates.
Context {DataType : Type} `{!CurveType DataType}.

(** [GetCurveDataImpl<DataType>(Curves, Uid)]: the pointer to the first
    curve with the uid is its index in the array, [NULL] is [None]. *)
Definition GetCurveDataImpl (Curves : list DataType) (Uid : N) : option nat :=
  fst <$> list_find (fun Curve => CurveUid (Base Curve) = Uid) Curves.

(** [DeleteCurveDataImpl<DataType>(Curves, Uid)]: the array as the
    function leaves it, and the value it returns. *)
Fixpoint DeleteCurveDataImpl (Curves : list DataType) (Uid : N)
    : list DataType * bool :=
  match Curves with
  | [] => ([], false)
  | Curve :: Rest =>
      if decide (CurveUid (Base Curve) = Uid) then (Rest, true)
      else
        let r := DeleteCurveDataImpl Rest Uid in
        (Curve :: fst r, snd r)
  end.

(** [AddCurveDataImpl<DataType>(Curves, Uid, CurveFlags)] *)
Definition AddCurveDataImpl (Curves : list DataType) (Uid : N) (CurveFlags : Z)
    : list DataType * bool :=
  match GetCurveDataImpl Curves Uid with
  | None => (Curves ++ [Construct Uid CurveFlags], true)
  | Some _ => (Curves, false)
  end.

(** [DuplicateCurveDataImpl<DataType>(Curves, ToCopyUid, NewUid)].  The
    source keeps the pointer [ExistingCurve] into the array across
    [Curves.Add] and reads through it afterwards, in [CopyCurve].  [TArray]
    is not part of the sources: [bAddMovesArray] says whether that [Add]
    moved the elements of the array to another allocation, which it can do
    when the array has no slack left.  The pointer then dangles and what
    the function does is not defined: the result is [None].  The flags of
    the existing curve are read before the [Add]. *)
Definition DuplicateCurveDataImpl (bAddMovesArray : bool)
    (Curves : list DataType) (ToCopyUid NewUid : N)
    : option (list DataType * bool) :=
  match GetCurveDataImpl Curves ToCopyUid with
  | Some ExistingCurve =>
      match GetCurveDataImpl Curves NewUid with
      | None =>
          CurveFlags ← (fun Curve => GetCurveTypeFlags (Base Curve))
                         <$> Curves !! ExistingCurve;
          let Curves := Curves ++ [Construct NewUid CurveFlags] in
          if bAddMovesArray then None
          else
            SourceCurve ← Curves !! ExistingCurve;
            Some (alter (fun Last => CopyCurve Last SourceCurve)
                        (Nat.pred (List.length Curves)) Curves,
                  true)
      | Some _ => Some (Curves, false)
      end
  | None => Some (Curves, false)
  end.

End Templates.

(** ** [FRawCurveTracks] *)

Record FRawCurveTracks : Type := MkTracks {
  FloatCurves : list FFloatCurve;
  VectorCurves : list FVectorCurve;
  TransformCurves : list FTransformCurve
}.

(** The array that the [switch] of the functions below selects: without
    the editor every type selects the float curves. *)
Definition Selected (SupportedCurveType : ESupportedCurveType)
    : ESupportedCurveType :=
  if WITH_EDITOR then SupportedCurveType else FloatType.

(** [FRawCurveTracks::GetCurveData(Uid, SupportedCurveType)]: the pointer
    is the array and the index of the curve. *)
Definition GetCurveData (This : FRawCurveTracks) (Uid : N)
    (SupportedCurveType : ESupportedCurveType)
    : option (ESupportedCurveType * nat) :=
  match Selected SupportedCurveType with
  | VectorType =>
      pair VectorType <$> GetCurveDataImpl (VectorCurves This) Uid
  | TransformType =>
      pair TransformType <$> GetCurveDataImpl (TransformCurves This) Uid
  | FloatType => pair FloatType <$> GetCurveDataImpl (FloatCurves This) Uid
  end.

(** [FRawCurveTracks::DeleteCurveData(Uid, SupportedCurveType)] *)
Definition DeleteCurveData (This : FRawCurveTracks) (Uid : N)
    (SupportedCurveType : ESupportedCurveType) : FRawCurveTracks * bool :=
  match Selected SupportedCurveType with
  | VectorType =>
      let r := DeleteCurveDataImpl (VectorCurves This) Uid in
      (MkTracks (FloatCurves This) (fst r) (TransformCurves This), snd r)
  | TransformType =>
      let r := DeleteCurveDataImpl (TransformCurves This) Uid in
      (MkTracks (FloatCurves This) (VectorCurves This) (fst r), snd r)
  | FloatType =>
      let r := DeleteCurveDataImpl (FloatCurves This) Uid in
      (MkTracks (fst r) (VectorCurves This) (TransformCurves This), snd r)
  end.

(** [FRawCurveTracks::DeleteAllCurveData(SupportedCurveType)] *)
Definition DeleteAllCurveData (This : FRawCurveTracks)
    (SupportedCurveType : ESupportedCurveType) : FRawCurveTracks :=
  match Selected SupportedCurveType with
  | VectorType => MkTracks (FloatCurves This) [] (TransformCurves This)
  | TransformType => MkTracks (FloatCurves This) (VectorCurves This) []
  | FloatType => MkTracks [] (VectorCurves This) (TransformCurves This)
  end.

(** [FRawCurveTracks::AddCurveData(Uid, CurveFlags, SupportedCurveType)] *)
Definition AddCurveData (This : FRawCurveTracks) (Uid : N) (CurveFlags : Z)
    (SupportedCurveType : ESupportedCurveType) : FRawCurveTracks * bool :=
  match Selected SupportedCurveType with
  | VectorType =>
      let r := AddCurveDataImpl (VectorCurves This) Uid CurveFlags in
      (MkTracks (FloatCurves This) (fst r) (TransformCurves This), snd r)
  | TransformType =>
      let r := AddCurveDataImpl (TransformCurves This) Uid CurveFlags in
      (MkTracks (FloatCurves This) (VectorCurves This) (fst r), snd r)
  | FloatType =>
      let r := AddCurveDataImpl (FloatCurves This) Uid CurveFlags in
      (MkTracks (fst r) (VectorCurves This) (TransformCurves This), snd r)
  end.

(** [FRawCurveTracks::DuplicateCurveData(ToCopyUid, NewUid,
    SupportedCurveType)]; [None] when what the template does is not
    defined. *)
Definition DuplicateCurveData (bAddMovesArray : bool) (This : FRawCurveTracks)
    (ToCopyUid NewUid : N) (SupportedCurveType : ESupportedCurveType)
    : option (FRawCurveTracks * bool) :=
  match Selected SupportedCurveType with
  | VectorType =>
      r ← DuplicateCurveDataImpl bAddMovesArray (VectorCurves This)
            ToCopyUid NewUid;
      Some (MkTracks (FloatCurves This) (fst r) (TransformCurves This), snd r)
  | TransformType =>
      r ← DuplicateCurveDataImpl bAddMovesArray (TransformCurves This)
            ToCopyUid NewUid;
      Some (MkTracks (FloatCurves This) (VectorCurves This) (fst r), snd r)
  | FloatType =>
      r ← DuplicateCurveDataImpl bAddMovesArray (FloatCurves This)
            ToCopyUid NewUid;
      Some (MkTracks (fst r) (VectorCurves This) (TransformCurves This), snd r)
  end.

(** [FRawCurveTracks::AddFloatCurveKey(Uid, CurveFlags, Time, Value)], a
    function of the editor; [None] when it dereferences a null pointer. *)
Definition AddFloatCurveKey (This : FRawCurveTracks) (Uid : N) (CurveFlags : Z)
    (Time Value : Float) : option FRawCurveTracks :=
  let '(This, FloatCurvePtr) :=
    match GetCurveDataImpl (FloatCurves This) Uid with
    | Some i => (This, Some i)
    | None =>
        let This := fst (AddCurveData This Uid CurveFlags FloatType) in
        (This, GetCurveDataImpl (FloatCurves This) Uid)
    end in
  i ← FloatCurvePtr;
  Curve ← FloatCurves This !! i;
  let Curve :=
    if decide (GetCurveTypeFlags (FloatBase Curve) ≠ CurveFlags)
    then {| FloatBase :=
              SetCurveTypeFlags
                (Z.lor (GetCurveTypeFlags (FloatBase Curve)) CurveFlags)
                (FloatBase Curve);
            FloatCurve := FloatCurve Curve |}
    else Curve in
  Some (MkTracks (<[i := FloatUpdateOrAddKey Curve Value Time]> (FloatCurves This))
                 (VectorCurves This) (TransformCurves This)).

(** ** Vocabulary of the statements about curves *)

(** The uids of the curves of an array, in the order of the array. *)
Definition Uids {DataType : Type} `{!CurveType DataType}
    (Curves : list DataType) : list N :=
  (fun Curve => CurveUid (Base Curve)) <$> Curves.

(** The curve that the pointer of [GetCurveDataImpl] points to. *)
Definition FindCurve {DataType : Type} `{!CurveType DataType}
    (Curves : list DataType) (Uid : N) : option DataType :=
  GetCurveDataImpl Curves Uid ≫= (fun i => Curves !! i).

(** [CopyCurve] leaves the uid, the name and the flags of the curve. *)
Definition CopyKeepsBase (DataType : Type) `{!CurveType DataType} : Prop :=
  forall This SourceCurve : DataType,
    Base (CopyCurve This SourceCurve) = Base This.

End Curves.

(** A build with the editor in which a rich curve is the list of its
    keys, times and values are integers and a quaternion is its rotator. *)
Module CurveSample.

Definition Eval (Curve : list (Z * Z)) (InTime : Z) : Z :=
  default 0%Z (snd <$> (snd <$> list_find (fun Key => fst Key = InTime) Curve)).

Definition UpdateOrAddKey (Curve : list (Z * Z)) (InTime InValue : Z)
    : list (Z * Z) :=
  (InTime, InValue) :: filter (fun Key => fst Key <> InTime) Curve.

Definition NoCurves (Uid : N) (CurveFlags : Z) : @FVectorCurve (list (Z * Z)) unit :=
  MkVectorCurve (MkBase tt Uid CurveFlags) [] [] [].

Definition Editor : @Headers (list (Z * Z)) unit Z (@FRotator Z) :=
  {| RichEval := Eval;
     RichUpdateOrAddKey := UpdateOrAddKey;
     Fmul := Z.mul;
     One := 1%Z;
     DoesContainKey := fun Curve => bool_decide (CurveX Curve <> []);
     QuatRotator := fun Quat => Quat;
     MakeQuat := fun Rotator => Rotator;
     NewFloatCurve := fun Uid CurveFlags =>
       MkFloatCurve (MkBase tt Uid CurveFlags) [];
     NewVectorCurve := NoCurves;
     NewTransformCurve := fun Uid CurveFlags =>
       MkTransformCurve (MkBase tt Uid CurveFlags)
         (NoCurves Uid CurveFlags) (NoCurves Uid CurveFlags)
         (NoCurves Uid CurveFlags);
     WITH_EDITOR := true |}.

Definition Runtime : @Headers (list (Z * Z)) unit Z (@FRotator Z) :=
  {| RichEval := RichEval (Headers := Editor);
     RichUpdateOrAddKey := RichUpdateOrAddKey (Headers := Editor);
     Fmul := Z.mul;
     One := 1%Z;
     DoesContainKey := DoesContainKey (Headers := Editor);
     QuatRotator := fun Quat => Quat;
     MakeQuat := fun Rotator => Rotator;
     NewFloatCurve := NewFloatCurve (Headers := Editor);
     NewVectorCurve := NoCurves;
     NewTransformCurve := NewTransformCurve (Headers := Editor);
     WITH_EDITOR := false |}.

(** Two float curves, with uids 7 and 9. *)
Definition TwoCurves : list (@FFloatCurve (list (Z * Z)) unit) :=
  [MkFloatCurve (MkBase tt 7%N 1%Z) [(0, 5)%Z];
   MkFloatCurve (MkBase tt 9%N 4%Z) []].

(** Three float curves of which the first and the last have the uid 7. *)
Definition Repeated : list (@FFloatCurve (list (Z * Z)) unit) :=
  [MkFloatCurve (MkBase tt 7%N 1%Z) [(0, 5)%Z];
   MkFloatCurve (MkBase tt 9%N 4%Z) [];
   MkFloatCurve (MkBase tt 7%N 2%Z) []].

Definition TheTracks : @FRawCurveTracks (list (Z * Z)) unit :=
  MkTracks TwoCurves [NoCurves 7%N 0%Z] [].

(** The float curves as the [DataType] of the templates. *)
Definition Floats : CurveType (@FFloatCurve (list (Z * Z)) unit) :=
  FloatCurveType (TheHeaders := Editor).



End CurveSample.

End AnimCurve.

(** * Properties of the engine *)

(** ** Runs of the monad *)

Section Runs.
Context `{!Collaborators}.

Lemma bind_ok {A B} (m : M A) (f : A -> M B) s a s1 t1 :
  m s = (Ok a, s1, t1) ->
  bind m f s = (ResultOf (f a s1), StorageOf (f a s1), t1 ++ TraceOf (f a s1)).
Proof.
  intros Hm. unfold bind. rewrite Hm.
  destruct (f a s1) as [[r s2] t2]. reflexivity.
Qed.

Lemma bind_raise {A B} (m : M A) (f : A -> M B) s e s1 t1 :
  m s = (Raise e, s1, t1) -> bind m f s = (Raise e, s1, t1).
Proof. intros Hm. unfold bind. rewrite Hm. reflexivity. Qed.

Lemma Archive_run NodeName OutputName Files bPush s :
  Archive NodeName OutputName Files bPush s
  = (Ok tt, StorageOf (Archive NodeName OutputName Files bPush s),
     [EvArchive NodeName OutputName Files bPush]).
Proof. reflexivity. Qed.

Lemma PublishOutput_present n Tags Referenced o Files :
  Tags !! o = Some (Some Files) ->
  PublishOutput n Tags Referenced o
  = Archive (Name n) o Files (bool_decide (o ∈ Referenced)).
Proof. intros Ho. unfold PublishOutput. by rewrite Ho. Qed.

Lemma PublishOutput_absent n Tags Referenced o s :
  default None (Tags !! o) = None ->
  exists e, PublishOutput n Tags Referenced o s = (Raise e, s, []).
Proof.
  unfold PublishOutput. destruct (Tags !! o) as [[Files|]|]; simpl; [done| |];
    intros _; eexists; reflexivity.
Qed.

(** The archive loop publishes the outputs in order and stops at the first
    one that is missing from the tag map. *)
Lemma PublishOutputs_run n Tags Referenced Outputs :
  forall s,
  exists Done Rest,
    Outputs = Done ++ Rest
    /\ TraceOf (ForEach Outputs (PublishOutput n Tags Referenced) s)
       = map (ArchiveEvent n Tags Referenced) Done
    /\ match ResultOf (ForEach Outputs (PublishOutput n Tags Referenced) s) with
       | Ok _ => Rest = []
       | Raise _ => Rest ≠ []
       end.
Proof.
  induction Outputs as [|o Outputs IH]; intros s.
  - exists [], []. simpl. auto.
  - simpl.
    destruct (default None (Tags !! o)) as [Files|] eqn:Ho.
    + assert (Tags !! o = Some (Some Files)) as Ho'.
      { destruct (Tags !! o) as [[]|]; simpl in Ho; congruence. }
      rewrite (PublishOutput_present _ _ _ _ _ Ho').
      rewrite (bind_ok _ _ _ _ _ _ (Archive_run _ _ _ _ _)).
      destruct (IH (StorageOf (Archive (Name n) o Files
                                 (bool_decide (o ∈ Referenced)) s)))
        as (Done & Rest & -> & Ht & Hr).
      exists (o :: Done), Rest. split; [done|].
      unfold TraceOf, ResultOf in *. simpl. rewrite Ht.
      split; [|exact Hr].
      unfold ArchiveEvent at 2. rewrite Ho'. reflexivity.
    + destruct (PublishOutput_absent n Tags Referenced o s Ho) as [e He].
      rewrite (bind_raise _ _ _ _ _ _ He).
      exists [], (o :: Outputs). simpl. auto.
Qed.

Lemma emit_bind {B} (e : Event) (k : M B) s :
  (emit e ;;; k) s = (ResultOf (k s), StorageOf (k s), e :: TraceOf (k s)).
Proof. unfold bind, emit. destruct (k s) as [[r s2] t2]. reflexivity. Qed.

Lemma BuildSingleNode_run G n s :
  SingleNodeRun G n s (ResultOf (BuildSingleNode G n s))
                      (TraceOf (BuildSingleNode G n s)).
Proof.
  destruct (BuildSingleNode G n s) as [[r s'] t] eqn:Hrun.
  unfold ResultOf, TraceOf. simpl.
  unfold BuildSingleNode in Hrun. rewrite emit_bind in Hrun.
  destruct (FetchInputs G (InputNames n) (SeedTagNames G) s)
    as [[[Tags|e] s1] Fetched] eqn:Hf.
  2:{ rewrite (bind_raise _ _ _ _ _ _ Hf) in Hrun.
      unfold ResultOf, StorageOf, TraceOf in Hrun. simpl in Hrun.
      inversion Hrun; subst. by eapply FetchRaised. }
  rewrite (bind_ok _ _ _ _ _ _ Hf) in Hrun.
  rewrite emit_bind in Hrun.
  destruct (fst (NodeBuild n (AddPlaceholders (OutputNames n) Tags))) eqn:Hb;
    simpl in Hrun.
  - destruct (PublishOutputs_run n
                (snd (NodeBuild n (AddPlaceholders (OutputNames n) Tags)))
                (FindReferencedOutputs G n) (OutputNames n) s1)
      as (Done & Rest & Hsplit & Ht & Hr).
    destruct (ForEach (OutputNames n) _ s1) as [[[[]|e] s2] t2] eqn:Hp;
      unfold TraceOf, ResultOf in Ht, Hr; simpl in Ht, Hr; subst t2.
    + subst Rest. rewrite app_nil_r in Hsplit. subst Done.
      rewrite (bind_ok _ _ _ _ _ _ Hp) in Hrun.
      unfold MarkAsComplete, bind, get, emit, put, ret in Hrun.
      unfold ResultOf, StorageOf, TraceOf in Hrun. simpl in Hrun.
      inversion Hrun; subst. by eapply Built.
    + rewrite (bind_raise _ _ _ _ _ _ Hp) in Hrun.
      unfold ResultOf, StorageOf, TraceOf in Hrun. simpl in Hrun.
      inversion Hrun; subst. by eapply PublishRaised.
  - unfold ResultOf, StorageOf, TraceOf, ret in Hrun. simpl in Hrun.
    inversion Hrun; subst. by eapply BuildFailed.
Qed.
Lemma Retreive_trace NodeName OutputName s :
  TraceOf (Retreive NodeName OutputName s) = [EvRetreive NodeName OutputName].
Proof.
  unfold Retreive, bind, get, emit, put, ret, throw, TraceOf. simpl.
  destruct (LocalManifests s !! (NodeName, OutputName)); simpl; [done|].
  destruct (SharedManifests s ≫= _); done.
Qed.

Lemma FetchInputs_trace G Inputs :
  forall Tags s, Forall IsRetreive (TraceOf (FetchInputs G Inputs Tags s)).
Proof.
  induction Inputs as [|i Inputs IH]; intros Tags s; simpl.
  - constructor.
  - destruct (OutputNameToNode G !! i) as [P|]; [|constructor].
    unfold bind.
    pose proof (Retreive_trace (Name P) i s) as Ht.
    destruct (Retreive (Name P) i s) as [[[m|e] s1] t1]; simpl in Ht; subst t1.
    + specialize (IH (<[i:=Some (list_to_set (map ToFileReference m))]> Tags) s1).
      destruct (FetchInputs G Inputs _ s1) as [[r s2] t2]. simpl in *.
      constructor; [exact I|exact IH].
    + repeat constructor.
Qed.
End Runs.

(** ** Publishing and marking *)

Section Publishing.
Context `{!Collaborators}.

Lemma IsRetreive_not_mark l :
  Forall IsRetreive l -> Forall (fun e => ¬ IsMarkAsComplete e) l.
Proof.
  intros Hl. eapply Forall_impl; [exact Hl|]. intros []; simpl; tauto.
Qed.

Lemma ArchiveEvents_not_mark n Tags Referenced l :
  Forall (fun e => ¬ IsMarkAsComplete e) (map (ArchiveEvent n Tags Referenced) l).
Proof. apply Forall_forall. intros e [o [-> _]]%list_elem_of_fmap. simpl. tauto. Qed.

Lemma no_mark_split (l Before After : list Event) e :
  Forall (fun e => ¬ IsMarkAsComplete e) l ->
  l = Before ++ e :: After -> ¬ IsMarkAsComplete e.
Proof.
  intros Hl ->. apply Forall_app in Hl as [_ Hl]. by inversion Hl.
Qed.

Lemma only_mark_is_last (l Before After : list Event) e e' :
  Forall (fun e => ¬ IsMarkAsComplete e) l -> IsMarkAsComplete e ->
  l ++ [e'] = Before ++ e :: After -> Before = l /\ e = e' /\ After = [].
Proof.
  revert Before. induction l as [|x l IH]; intros Before Hl He Heq.
  - destruct Before as [|b Before]; simpl in Heq.
    + by inversion Heq.
    + inversion Heq as [[Hb Hnil]]. by destruct Before.
  - inversion Hl as [|? ? Hx Hl']; subst.
    destruct Before as [|b Before]; simpl in Heq.
    + inversion Heq; subst. contradiction.
    + inversion Heq as [[Hb Htl]]. subst b.
      destruct (IH Before Hl' He Htl) as (-> & -> & ->). done.
Qed.

Lemma SingleNodeRun_prefix_not_mark G n Tags Fetched Done :
  Forall IsRetreive Fetched ->
  Forall (fun e => ¬ IsMarkAsComplete e)
    (EvBuildSingleNode n :: Fetched
       ++ EvNodeBuild n (AddPlaceholders (OutputNames n) Tags) true
       :: map (ArchiveEvent n
                 (snd (NodeBuild n (AddPlaceholders (OutputNames n) Tags)))
                 (FindReferencedOutputs G n)) Done).
Proof.
  intros HF. constructor; [simpl; tauto|].
  apply Forall_app. split; [by apply IsRetreive_not_mark|].
  constructor; [simpl; tauto|]. apply ArchiveEvents_not_mark.
Qed.

Lemma FetchInputs_fetched G Inputs Tags s r s1 Fetched :
  FetchInputs G Inputs Tags s = (r, s1, Fetched) -> Forall IsRetreive Fetched.
Proof.
  intros Hf. pose proof (FetchInputs_trace G Inputs Tags s) as Ht.
  by rewrite Hf in Ht.
Qed.

End Publishing.

(** C8: in every run of [BuildSingleNode], an event [MarkAsComplete] is
    for the node that is built, is the last event of the run and comes
    after the build logic returned success and after an [Archive] for each
    of the declared outputs of the node; and the node is not marked as
    complete when the run does not return [true], in particular when the
    build logic returned failure. *)
Theorem MarkAsComplete_after_every_Archive `{!Collaborators}
    (G : Graph) (n : Node) (s : TempStorage) :
  (forall Before After NodeName,
      TraceOf (BuildSingleNode G n s)
      = Before ++ EvMarkAsComplete NodeName :: After ->
      NodeName = Name n /\ After = []
      /\ ResultOf (BuildSingleNode G n s) = Ok true
      /\ (exists Tags, EvNodeBuild n Tags true ∈ Before)
      /\ forall OutputName, OutputName ∈ OutputNames n ->
           exists Files bPush,
             EvArchive (Name n) OutputName Files bPush ∈ Before)
  /\ (ResultOf (BuildSingleNode G n s) ≠ Ok true ->
      forall NodeName, EvMarkAsComplete NodeName ∉ TraceOf (BuildSingleNode G n s))
  /\ (forall Tags, EvNodeBuild n Tags false ∈ TraceOf (BuildSingleNode G n s) ->
      forall NodeName, EvMarkAsComplete NodeName ∉ TraceOf (BuildSingleNode G n s)).
Proof.
  pose proof (BuildSingleNode_run G n s) as Hrun.
  destruct (BuildSingleNode G n s) as [[r s'] t].
  unfold ResultOf, TraceOf in *. simpl in *.
  assert (forall Before After NodeName,
      t = Before ++ EvMarkAsComplete NodeName :: After ->
      NodeName = Name n /\ After = [] /\ r = Ok true
      /\ (exists Tags, EvNodeBuild n Tags true ∈ Before)
      /\ forall OutputName, OutputName ∈ OutputNames n ->
           exists Files bPush,
             EvArchive (Name n) OutputName Files bPush ∈ Before) as Hmark.
  { intros Before After NodeName Heq.
    inversion Hrun as
      [e s1 Fetched Hf|Tags s1 Fetched Hf Hb|e Tags s1 Fetched Done Rest Hf Hb Hsplit Hrest
      |Tags s1 Fetched Hf Hb]; subst r;
      match goal with H : _ = t |- _ => rename H into Hshape end;
      rewrite Heq in Hshape.
    - exfalso. eapply (no_mark_split (EvBuildSingleNode n :: Fetched));
        [|eassumption|exact I].
      constructor; [simpl; tauto|].
      apply IsRetreive_not_mark. eapply FetchInputs_fetched, Hf.
    - exfalso.
      eapply (no_mark_split (EvBuildSingleNode n :: Fetched ++ [_]));
        [|eassumption|exact I].
      constructor; [simpl; tauto|]. apply Forall_app. split.
      + apply IsRetreive_not_mark. eapply FetchInputs_fetched, Hf.
      + repeat constructor. simpl. tauto.
    - exfalso. eapply no_mark_split; [|eassumption|exact I].
      apply SingleNodeRun_prefix_not_mark. eapply FetchInputs_fetched, Hf.
    - rewrite app_comm_cons, (app_comm_cons _ _ (EvNodeBuild _ _ _)) in Hshape.
      rewrite app_assoc in Hshape. simpl in Hshape.
      apply (only_mark_is_last
               (EvBuildSingleNode n :: Fetched
                  ++ EvNodeBuild n (AddPlaceholders (OutputNames n) Tags) true
                  :: map (ArchiveEvent n
                            (snd (NodeBuild n (AddPlaceholders (OutputNames n) Tags)))
                            (FindReferencedOutputs G n)) (OutputNames n)))
        in Hshape as (-> & Hev & ->);
        [|apply (SingleNodeRun_prefix_not_mark G n Tags Fetched (OutputNames n));
          eapply FetchInputs_fetched, Hf|exact I].
      inversion Hev; subst. repeat split; [|].
      + eexists. apply list_elem_of_further, elem_of_app. right. left.
      + intros o Ho. do 2 eexists.
        apply list_elem_of_further, elem_of_app. right.
        apply list_elem_of_further, list_elem_of_fmap. exists o. split; [|done].
        reflexivity. }
  split; [exact Hmark|]. split.
  - intros Hr NodeName [i Hi]%list_elem_of_lookup.
    apply take_drop_middle in Hi. symmetry in Hi.
    apply Hmark in Hi. tauto.
  - intros Tags HT NodeName [i Hi]%list_elem_of_lookup.
    apply take_drop_middle in Hi. symmetry in Hi.
    destruct (Hmark _ _ _ Hi) as (_ & _ & Hr & _). subst r.
    inversion Hrun as [| | |Tags' s1 Fetched Hf Hb Hshape]. subst t.
    apply elem_of_cons in HT as [HT|HT]; [discriminate|].
    apply elem_of_app in HT as [HT|HT].
    + apply FetchInputs_fetched in Hf. rewrite Forall_forall in Hf.
      apply Hf in HT. contradiction.
    + apply elem_of_cons in HT as [HT|HT]; [discriminate|].
      apply elem_of_app in HT as [HT|HT].
      * apply list_elem_of_fmap in HT as [o [HT _]]. discriminate.
      * apply elem_of_cons in HT as [HT|HT]; [discriminate|].
        by apply elem_of_nil in HT.
Qed.

(** ** The outputs that must be pushed to shared storage *)

Section Referenced.
Context `{!Collaborators}.

Lemma ContainsNode_false l n :
  ContainsNode l n = false <-> forall m, m ∈ l -> NodeRef m ≠ NodeRef n.
Proof.
  unfold ContainsNode. induction l as [|x l IH]; simpl.
  - split; [|done]. intros _ m Hm. by apply elem_of_nil in Hm.
  - rewrite orb_false_iff, IH. unfold SameNode.
    rewrite bool_decide_eq_false. split.
    + intros [Hx Hl] m [->|Hm]%elem_of_cons; [congruence|by apply Hl].
    + intros Hall. split.
      * intros Heq. apply (Hall x); [left|done].
      * intros m Hm. apply Hall. by right.
Qed.

Lemma ContainsNode_true l n :
  ContainsNode l n = true <-> exists m, m ∈ l /\ NodeRef m = NodeRef n.
Proof.
  unfold ContainsNode. induction l as [|x l IH]; simpl.
  - split; [done|]. intros (m & Hm & _). by apply elem_of_nil in Hm.
  - rewrite orb_true_iff, IH. unfold SameNode. rewrite bool_decide_eq_true.
    split.
    + intros [Hx|(m & Hm & Heq)]; [exists x|exists m]; split;
        try done; by constructor.
    + intros (m & [->|Hm]%elem_of_cons & Heq); [by left|right; eauto].
Qed.

Lemma referenced_fold n (bSameGroup : bool) (l : list Node) :
  forall (R : gset string) o,
  o ∈ foldl (fun (R : gset string) Other =>
               if negb bSameGroup
                  || negb (SameTrigger (ControllingTrigger n)
                                       (ControllingTrigger Other))
               then R ∪ list_to_set (InputNames Other) else R) R l
  <-> o ∈ R
      \/ exists Other, Other ∈ l /\ o ∈ InputNames Other
           /\ (bSameGroup = false
               \/ SameTrigger (ControllingTrigger n) (ControllingTrigger Other)
                  = false).
Proof.
  induction l as [|x l IH]; intros R o; simpl.
  - split; [by left|]. intros [|(Other & Hin & _)]; [done|].
    by apply elem_of_nil in Hin.
  - rewrite IH. split.
    + intros [HR|(Other & Hin & Ho & Hc)].
      * destruct (negb bSameGroup || negb _) eqn:Hcond; [|by left].
        apply elem_of_union in HR as [HR|HR]; [by left|]. right.
        exists x. split; [left|]. split; [by apply elem_of_list_to_set in HR|].
        apply orb_true_iff in Hcond as [Hc|Hc]; apply negb_true_iff in Hc; auto.
      * right. exists Other. split; [by right|done].
    + intros [HR|(Other & [->|Hin]%elem_of_cons & Ho & Hc)].
      * left. destruct (negb bSameGroup || negb _); [|done].
        apply elem_of_union. by left.
      * left.
        assert (negb bSameGroup
                || negb (SameTrigger (ControllingTrigger n) (ControllingTrigger x))
                = true) as ->.
        { apply orb_true_iff. destruct Hc as [->| ->]; auto. }
        apply elem_of_union. right. by apply elem_of_list_to_set.
      * right. exists Other. done.
Qed.

Lemma FindReferencedOutputs_fold n (Gs : list AgentGroup) :
  forall (R : gset string) o,
  o ∈ foldl (fun R Group => ReferencedInGroup n Group R) R Gs
  <-> o ∈ R
      \/ exists Group Other,
           Group ∈ Gs /\ Other ∈ Nodes Group /\ o ∈ InputNames Other
           /\ (ContainsNode (Nodes Group) n = false
               \/ SameTrigger (ControllingTrigger n) (ControllingTrigger Other)
                  = false).
Proof.
  induction Gs as [|g Gs IH]; intros R o; simpl.
  - split; [by left|]. intros [|(Group & Other & Hin & _)]; [done|].
    by apply elem_of_nil in Hin.
  - rewrite IH. unfold ReferencedInGroup. rewrite referenced_fold. split.
    + intros [[HR|(Other & Hin & Ho & Hc)]|(Group & Other & Hg & Hrest)].
      * by left.
      * right. exists g, Other. split; [left|done].
      * right. exists Group, Other. split; [by right|done].
    + intros [HR|(Group & Other & [->|Hg]%elem_of_cons & Hrest)].
      * left. by left.
      * left. right. exists Other. done.
      * right. exists Group, Other. done.
Qed.

Lemma FindReferencedOutputs_spec G n o :
  o ∈ FindReferencedOutputs G n <-> ConsumedOutsideScope G n o.
Proof.
  unfold FindReferencedOutputs, ConsumedOutsideScope.
  rewrite FindReferencedOutputs_fold. split.
  - intros [HR|(Group & Other & Hg & Hin & Ho & Hc)]; [set_solver|].
    exists Group, Other. repeat (split; [done|]).
    destruct (ContainsNode (Nodes Group) n) eqn:Hsame.
    + right. split; [by apply ContainsNode_true|].
      destruct Hc as [Hc|Hc]; [done|].
      unfold SameTrigger in Hc. by apply bool_decide_eq_false in Hc.
    + left. by apply ContainsNode_false.
  - intros (Group & Other & Hg & Hin & Ho & Hc). right.
    exists Group, Other. repeat (split; [done|]).
    destruct Hc as [Hc|[_ Hc]].
    + left. by apply ContainsNode_false.
    + right. unfold SameTrigger. by apply bool_decide_eq_false.
Qed.

End Referenced.

(** ** The tag map that is passed to the build logic *)

Section TagMaps.
Context `{!Collaborators}.

Lemma insert_all_lookup (v : option (gset string)) (l : list string) :
  forall (Tags : TagMap) k,
  foldl (fun (Tags : TagMap) o => <[o := v]> Tags) Tags l !! k
  = if decide (k ∈ l) then Some v else Tags !! k.
Proof.
  induction l as [|o l IH]; intros Tags k; simpl.
  - destruct (decide (k ∈ [])) as [Hin|]; [by apply elem_of_nil in Hin|done].
  - rewrite IH. destruct (decide (k ∈ l)) as [Hin|Hnin].
    + rewrite decide_True; [done|by right].
    + destruct (decide (k = o)) as [->|Hne].
      * rewrite decide_True; [|left]. apply lookup_insert_eq.
      * rewrite decide_False; [by apply lookup_insert_ne|].
        intros [?|?]%elem_of_cons; done.
Qed.

Lemma SeedTagNames_lookup G k :
  SeedTagNames G !! k
  = if decide (k ∈ AllOutputNames G) then Some None else None.
Proof. unfold SeedTagNames. rewrite insert_all_lookup. by rewrite lookup_empty. Qed.

Lemma AddPlaceholders_lookup Outputs (Tags : TagMap) k :
  AddPlaceholders Outputs Tags !! k
  = if decide (k ∈ Outputs) then Some (Some ∅) else Tags !! k.
Proof. apply insert_all_lookup. Qed.

(** [Retreive] gives the stored manifest and keeps what is stored. *)
Lemma Retreive_run NodeName OutputName s :
  match StoredManifest s NodeName OutputName with
  | Some Manifest =>
      exists s1,
        Retreive NodeName OutputName s
        = (Ok Manifest, s1, [EvRetreive NodeName OutputName])
        /\ (forall a b, StoredManifest s1 a b = StoredManifest s a b)
        /\ CompleteMarkers s1 = CompleteMarkers s
  | None =>
      Retreive NodeName OutputName s
      = (Raise (MissingOutput NodeName OutputName), s,
         [EvRetreive NodeName OutputName])
  end.
Proof.
  unfold StoredManifest, Retreive, bind, get, emit, put, ret, throw. simpl.
  destruct (LocalManifests s !! (NodeName, OutputName)) as [m|] eqn:Hl; simpl.
  - eexists. split; [reflexivity|]. done.
  - destruct (SharedManifests s ≫= _) as [m|] eqn:Hs; simpl; [|done].
    eexists. split; [reflexivity|]. split; [|done]. intros a b. simpl.
    destruct (decide ((NodeName, OutputName) = (a, b))) as [Heq|Hne].
    + inversion Heq; subst. rewrite lookup_insert_eq, Hl. by rewrite Hs.
    + by rewrite lookup_insert_ne.
Qed.

Lemma FetchInputs_lookup G Inputs :
  forall (Tags Tags' : TagMap) s s' t,
  FetchInputs G Inputs Tags s = (Ok Tags', s', t) ->
  (forall k, k ∉ Inputs -> Tags' !! k = Tags !! k)
  /\ (forall i, i ∈ Inputs ->
        exists InputNode Manifest,
          OutputNameToNode G !! i = Some InputNode
          /\ StoredManifest s (Name InputNode) i = Some Manifest
          /\ Tags' !! i
             = Some (Some (list_to_set (map ToFileReference Manifest))))
  /\ CompleteMarkers s' = CompleteMarkers s
  /\ (forall a b, StoredManifest s' a b = StoredManifest s a b).
Proof.
  induction Inputs as [|i Inputs IH]; intros Tags Tags' s s' t Hrun; simpl in Hrun.
  - inversion Hrun; subst. repeat split; try done.
    intros i Hi. by apply elem_of_nil in Hi.
  - destruct (OutputNameToNode G !! i) as [P|] eqn:HP; [|discriminate].
    pose proof (Retreive_run (Name P) i s) as HR.
    destruct (StoredManifest s (Name P) i) as [m|] eqn:Hm.
    2:{ rewrite (bind_raise _ _ _ _ _ _ HR) in Hrun. discriminate. }
    destruct HR as (s1 & HR & Hkeep & Hmarks).
    rewrite (bind_ok _ _ _ _ _ _ HR) in Hrun.
    destruct (FetchInputs G Inputs _ s1) as [[r s2] t2] eqn:Hrest.
    unfold ResultOf, StorageOf, TraceOf in Hrun. simpl in Hrun.
    inversion Hrun; subst.
    destruct (IH _ _ _ _ _ Hrest) as (Hother & Hin & Hmk & Hst).
    repeat split.
    + intros k Hk. apply not_elem_of_cons in Hk as [Hne Hk].
      rewrite (Hother k Hk). by apply lookup_insert_ne.
    + intros j Hj. destruct (decide (j ∈ Inputs)) as [Hjin|Hjnin].
      * destruct (Hin j Hjin) as (Q & m' & HQ & Hm' & Hl).
        exists Q, m'. rewrite Hkeep in Hm'. done.
      * apply elem_of_cons in Hj as [->|Hj]; [|done].
        exists P, m. repeat split; try done.
        rewrite (Hother i Hjnin). apply lookup_insert_eq.
    + congruence.
    + intros a b. by rewrite Hst, Hkeep.
Qed.

End TagMaps.

(** ** The integrity pass *)

Section IntegrityPassFacts.
Context `{!Collaborators}.

Lemma then_ok {A B} (m : M A) (k : M B) s a s1 t1 :
  m s = (Ok a, s1, t1) ->
  (m ;;; k) s = (ResultOf (k s1), StorageOf (k s1), t1 ++ TraceOf (k s1)).
Proof. apply bind_ok. Qed.

Lemma CleanLocalNode_run NodeName s :
  CleanLocalNode NodeName s
  = (Ok tt, StorageOf (CleanLocalNode NodeName s), [EvCleanLocalNode NodeName]).
Proof. reflexivity. Qed.

Lemma CleanLocalNode_markers NodeName s :
  CompleteMarkers (StorageOf (CleanLocalNode NodeName s))
  = CompleteMarkers s ∖ {[NodeName]}.
Proof. reflexivity. Qed.

Lemma IntegrityPass_cons n Rest Cleaned s :
  IntegrityPass (n :: Rest) Cleaned s
  = if MustClean n Cleaned s then
      let s1 := StorageOf (CleanLocalNode (Name n) s) in
      let r := IntegrityPass Rest ({[NodeRef n]} ∪ Cleaned) s1 in
      (ResultOf r, StorageOf r,
       CheckEvents n Cleaned s ++ EvCleanLocalNode (Name n) :: TraceOf r)
    else
      let r := IntegrityPass Rest Cleaned s in
      (ResultOf r, StorageOf r, CheckEvents n Cleaned s ++ TraceOf r).
Proof.
  unfold MustClean, CheckEvents. simpl.
  destruct (existsb _ (InputDependencies n)) eqn:Hdep; simpl.
  - unfold bind at 1. unfold ret at 1.
    rewrite (then_ok _ _ _ _ _ _ (CleanLocalNode_run _ _)). reflexivity.
  - unfold bind at 1. unfold CheckLocalIntegrity, bind, get, emit, ret. simpl.
    destruct (LocalIntegrity s (Name n) (OutputNames n)); simpl.
    + destruct (IntegrityPass Rest Cleaned s) as [[r s2] t2]. reflexivity.
    + destruct (IntegrityPass Rest _ _) as [[r s2] t2]. reflexivity.
Qed.

(** The pass never throws; it only adds nodes of the list to the cleaned
    set, only removes markers, and keeps the marker of a name when no node
    of that name is cleaned. *)
Lemma IntegrityPass_inv l :
  forall Cleaned s,
  exists Cleaned' s' t,
    IntegrityPass l Cleaned s = (Ok Cleaned', s', t)
    /\ Cleaned ⊆ Cleaned'
    /\ (forall r, r ∈ Cleaned' -> r ∈ Cleaned \/ r ∈ map NodeRef l)
    /\ CompleteMarkers s' ⊆ CompleteMarkers s
    /\ (forall x, x ∈ CompleteMarkers s ->
          (forall m, m ∈ l -> Name m = x -> NodeRef m ∉ Cleaned') ->
          x ∈ CompleteMarkers s')
    /\ Forall (fun e => ¬ IsEngineCall e) t.
Proof.
  induction l as [|n l IH]; intros Cleaned s.
  - exists Cleaned, s, []. simpl. unfold ret. repeat split; auto.
  - rewrite IntegrityPass_cons.
    assert (Forall (fun e => ¬ IsEngineCall e) (CheckEvents n Cleaned s)) as Hchk.
    { unfold CheckEvents. destruct (existsb _ _); repeat constructor; simpl; tauto. }
    destruct (MustClean n Cleaned s) eqn:Hclean; simpl.
    + destruct (IH ({[NodeRef n]} ∪ Cleaned) (StorageOf (CleanLocalNode (Name n) s)))
        as (C' & s' & t & Hrun & Hsub & Hfrom & Hmk & Hkeep & Hev).
      rewrite Hrun. unfold ResultOf, StorageOf, TraceOf. simpl.
      exists C', s', (CheckEvents n Cleaned s ++ EvCleanLocalNode (Name n) :: t).
      split; [done|]. split; [set_solver|]. split; [|split; [|split]].
      * intros r Hr. destruct (Hfrom r Hr) as [Hin|Hin].
        -- apply elem_of_union in Hin as [Hin|Hin]; [|by left].
           apply elem_of_singleton in Hin. subst. right. left.
        -- right. by right.
      * etrans; [exact Hmk|]. simpl. set_solver.
      * intros x Hx Hno. apply Hkeep.
        -- simpl. apply elem_of_difference. split; [done|].
           intros Heq%elem_of_singleton. subst x.
           apply (Hno n); [left|done|]. apply Hsub. set_solver.
        -- intros m Hm. apply Hno. by right.
      * apply Forall_app. split; [done|]. constructor; [simpl; tauto|done].
    + destruct (IH Cleaned s)
        as (C' & s' & t & Hrun & Hsub & Hfrom & Hmk & Hkeep & Hev).
      rewrite Hrun. unfold ResultOf, StorageOf, TraceOf. simpl.
      exists C', s', (CheckEvents n Cleaned s ++ t).
      split; [done|]. split; [done|]. split; [|split; [|split]].
      * intros r Hr. destruct (Hfrom r Hr) as [Hin|Hin]; [by left|].
        right. by right.
      * done.
      * intros x Hx Hno. apply Hkeep; [done|].
        intros m Hm. apply Hno. by right.
      * apply Forall_app. done.
Qed.





End IntegrityPassFacts.


(** ** The execution loop *)

Section ExecutionLoop.
Context `{!Collaborators}.

Lemma only_last (P : Event -> Prop) (l Before After : list Event) e e' :
  Forall (fun e => ¬ P e) l -> P e ->
  l ++ [e'] = Before ++ e :: After -> Before = l /\ e = e' /\ After = [].
Proof.
  revert Before. induction l as [|x l IH]; intros Before Hl He Heq.
  - destruct Before as [|b Before]; simpl in Heq.
    + by inversion Heq.
    + inversion Heq as [[Hb Hnil]]. by destruct Before.
  - inversion Hl as [|? ? Hx Hl']; subst.
    destruct Before as [|b Before]; simpl in Heq.
    + inversion Heq; subst. contradiction.
    + inversion Heq as [[Hb Htl]]. subst b.
      destruct (IH Before Hl' He Htl) as (-> & -> & ->). done.
Qed.

Lemma split_past (P : Event -> Prop) (l Rest Before After : list Event) e :
  Forall (fun e => ¬ P e) l -> P e ->
  l ++ Rest = Before ++ e :: After ->
  exists Before', Before = l ++ Before' /\ Rest = Before' ++ e :: After.
Proof.
  revert Before. induction l as [|x l IH]; intros Before Hl He Heq.
  - exists Before. done.
  - inversion Hl as [|? ? Hx Hl']; subst.
    destruct Before as [|b Before]; simpl in Heq.
    + inversion Heq; subst. contradiction.
    + inversion Heq as [[Hb Htl]]. subst b.
      destruct (IH Before Hl' He Htl) as (B' & -> & ->). by exists B'.
Qed.

Lemma not_in_split (P : Event -> Prop) (l Before After : list Event) e :
  Forall (fun e => ¬ P e) l -> P e -> l ≠ Before ++ e :: After.
Proof.
  intros Hl He ->. apply Forall_app in Hl as [_ Hl]. by inversion Hl.
Qed.

Lemma IsComplete_run NodeName s :
  IsComplete NodeName s
  = (Ok (bool_decide (NodeName ∈ CompleteMarkers s)), s,
     [EvIsComplete NodeName (bool_decide (NodeName ∈ CompleteMarkers s))]).
Proof. reflexivity. Qed.

(** One step of the execution loop. *)
Lemma ExecuteInOrder_cons G Total idx n Rest s :
  ExecuteInOrder G Total idx (n :: Rest) s
  = if bool_decide (Name n ∈ CompleteMarkers s) then
      let r := ExecuteInOrder G Total (S idx) Rest s in
      (ResultOf r, StorageOf r,
       EvLog (NodeBanner (S idx) Total (Name n))
       :: EvIsComplete (Name n) true :: TraceOf r)
    else
      let b := BuildSingleNode G n s in
      match ResultOf b with
      | Ok true =>
          let r := ExecuteInOrder G Total (S idx) Rest (StorageOf b) in
          (ResultOf r, StorageOf r,
           EvLog (NodeBanner (S idx) Total (Name n))
           :: EvIsComplete (Name n) false :: EvLog BlankLine
           :: TraceOf b ++ EvLog BlankLine :: TraceOf r)
      | Ok false =>
          (Ok false, StorageOf b,
           EvLog (NodeBanner (S idx) Total (Name n))
           :: EvIsComplete (Name n) false :: EvLog BlankLine :: TraceOf b)
      | Raise e =>
          (Raise e, StorageOf b,
           EvLog (NodeBanner (S idx) Total (Name n))
           :: EvIsComplete (Name n) false :: EvLog BlankLine :: TraceOf b)
      end.
Proof.
  simpl. rewrite emit_bind.
  rewrite (bind_ok _ _ _ _ _ _ (IsComplete_run _ _)).
  destruct (bool_decide (Name n ∈ CompleteMarkers s)).
  - unfold ResultOf, StorageOf, TraceOf. simpl.
    by destruct (ExecuteInOrder G Total (S idx) Rest s) as [[r s2] t2].
  - rewrite emit_bind.
    destruct (BuildSingleNode G n s) as [[[[]|e] s1] t1] eqn:Hb.
    + rewrite (bind_ok _ _ _ _ _ _ Hb). rewrite emit_bind.
      unfold ResultOf, StorageOf, TraceOf. simpl.
      by destruct (ExecuteInOrder G Total (S idx) Rest s1) as [[r s2] t2].
    + rewrite (bind_ok _ _ _ _ _ _ Hb).
      unfold ResultOf, StorageOf, TraceOf, ret. simpl. by rewrite app_nil_r.
    + rewrite (bind_raise _ _ _ _ _ _ Hb). reflexivity.
Qed.

(** [BuildSingleNode] keeps the completion markers and may add one. *)
Lemma PublishOutputs_markers n Tags Referenced Outputs :
  forall s,
  CompleteMarkers (StorageOf (ForEach Outputs (PublishOutput n Tags Referenced) s))
  = CompleteMarkers s.
Proof.
  induction Outputs as [|o Outputs IH]; intros s; [done|].
  simpl. destruct (default None (Tags !! o)) as [Files|] eqn:Ho.
  - assert (Tags !! o = Some (Some Files)) as Ho'.
    { destruct (Tags !! o) as [[]|]; simpl in Ho; congruence. }
    rewrite (PublishOutput_present _ _ _ _ _ Ho').
    rewrite (then_ok _ _ _ _ _ _ (Archive_run _ _ _ _ _)).
    unfold StorageOf at 1. simpl. by rewrite IH.
  - destruct (PublishOutput_absent n Tags Referenced o s Ho) as [e He].
    by rewrite (bind_raise _ _ _ _ _ _ He).
Qed.

Lemma FetchInputs_markers G Inputs :
  forall Tags s,
  CompleteMarkers (StorageOf (FetchInputs G Inputs Tags s)) = CompleteMarkers s.
Proof.
  induction Inputs as [|i Inputs IH]; intros Tags s; simpl; [done|].
  destruct (OutputNameToNode G !! i) as [P|]; [|done].
  pose proof (Retreive_run (Name P) i s) as HR.
  destruct (StoredManifest s (Name P) i) as [m|].
  - destruct HR as (s1 & HR & _ & Hmarks).
    rewrite (bind_ok _ _ _ _ _ _ HR). unfold StorageOf at 1. simpl.
    by rewrite IH.
  - by rewrite (bind_raise _ _ _ _ _ _ HR).
Qed.

Lemma BuildSingleNode_markers G n s :
  CompleteMarkers s ⊆ CompleteMarkers (StorageOf (BuildSingleNode G n s)).
Proof.
  unfold BuildSingleNode. rewrite emit_bind. unfold StorageOf at 1. simpl.
  pose proof (FetchInputs_markers G (InputNames n) (SeedTagNames G) s) as Hfm.
  destruct (FetchInputs G (InputNames n) (SeedTagNames G) s)
    as [[[Tags|e] s1] Fetched] eqn:Hf; unfold StorageOf in Hfm; simpl in Hfm.
  2:{ rewrite (bind_raise _ _ _ _ _ _ Hf). unfold StorageOf. simpl.
      by rewrite Hfm. }
  rewrite (bind_ok _ _ _ _ _ _ Hf). unfold StorageOf at 1. simpl.
  rewrite emit_bind. unfold StorageOf at 1. simpl.
  destruct (fst (NodeBuild n (AddPlaceholders (OutputNames n) Tags))); simpl.
  - pose proof (PublishOutputs_markers n
                  (snd (NodeBuild n (AddPlaceholders (OutputNames n) Tags)))
                  (FindReferencedOutputs G n) (OutputNames n) s1) as Hpm.
    destruct (ForEach (OutputNames n) _ s1) as [[[[]|e] s2] t2] eqn:Hp;
      unfold StorageOf in Hpm; simpl in Hpm.
    + rewrite (bind_ok _ _ _ _ _ _ Hp).
      unfold MarkAsComplete, bind, get, emit, put, ret, StorageOf. simpl.
      rewrite Hpm, Hfm. set_solver.
    + rewrite (bind_raise _ _ _ _ _ _ Hp). unfold StorageOf. simpl.
      by rewrite Hpm, Hfm.
  - unfold ret, StorageOf. simpl. by rewrite Hfm.
Qed.

(** What the shape of a run of [BuildSingleNode] says about its events. *)
Lemma BuildSingleNode_builds G n s e :
  e ∈ TraceOf (BuildSingleNode G n s) -> IsEngineCall e ->
  e = EvBuildSingleNode n \/ exists Tags b, e = EvNodeBuild n Tags b.
Proof.
  intros Hin Hcall.
  pose proof (BuildSingleNode_run G n s) as Hrun.
  destruct (BuildSingleNode G n s) as [[r s'] t].
  unfold ResultOf, TraceOf in *. simpl in *.
  assert (forall l, Forall IsRetreive l -> e ∉ l) as Hfetch.
  { intros l HF Hl. rewrite Forall_forall in HF. apply HF in Hl.
    destruct e; simpl in *; tauto. }
  assert (forall Tags R l, e ∉ map (ArchiveEvent n Tags R) l) as Harch.
  { intros Tags R l (o & -> & _)%list_elem_of_fmap. simpl in Hcall. tauto. }
  inversion Hrun as
    [e' s1 Fetched Hf|Tags s1 Fetched Hf Hb|e' Tags s1 Fetched Done Rest Hf Hb Hsplit Hrest
    |Tags s1 Fetched Hf Hb]; subst r;
    match goal with H : _ = t |- _ => rename H into Hshape end;
    rewrite <- Hshape in Hin; apply FetchInputs_fetched in Hf;
    apply elem_of_cons in Hin as [Hin|Hin]; auto.
  - by apply Hfetch in Hin.
  - apply elem_of_app in Hin as [Hin|Hin]; [by apply Hfetch in Hin|].
    apply list_elem_of_singleton in Hin. eauto.
  - apply elem_of_app in Hin as [Hin|Hin]; [by apply Hfetch in Hin|].
    apply elem_of_cons in Hin as [Hin|Hin]; [eauto|]. by apply Harch in Hin.
  - apply elem_of_app in Hin as [Hin|Hin]; [by apply Hfetch in Hin|].
    apply elem_of_cons in Hin as [Hin|Hin]; [eauto|].
    apply elem_of_app in Hin as [Hin|Hin]; [by apply Harch in Hin|].
    apply list_elem_of_singleton in Hin. subst e. simpl in Hcall. tauto.
Qed.

(** A failed call of the build logic is the last event of the run, and the
    run then returns [false]; no other run has one. *)
Lemma BuildSingleNode_fails_last G n s :
  FailsLast (ResultOf (BuildSingleNode G n s)) (TraceOf (BuildSingleNode G n s)).
Proof.
  pose proof (BuildSingleNode_run G n s) as Hrun.
  destruct (BuildSingleNode G n s) as [[r s'] t].
  unfold ResultOf, TraceOf in *. simpl in *.
  assert (forall l, Forall IsRetreive l -> Forall (fun e => ¬ IsFailedBuild e) l)
    as Hfetch.
  { intros l HF. eapply Forall_impl; [exact HF|]. intros []; simpl; tauto. }
  assert (forall Tags R l,
             Forall (fun e => ¬ IsFailedBuild e) (map (ArchiveEvent n Tags R) l))
    as Harch.
  { intros Tags R l. apply Forall_forall.
    intros e (o & -> & _)%list_elem_of_fmap. simpl. tauto. }
  inversion Hrun as
    [e' s1 Fetched Hf|Tags s1 Fetched Hf Hb|e' Tags s1 Fetched Done Rest Hf Hb Hsplit Hrest
    |Tags s1 Fetched Hf Hb]; subst; apply FetchInputs_fetched in Hf; simpl.
  - constructor; [simpl; tauto|by apply Hfetch].
  - exists (EvBuildSingleNode n :: Fetched),
           (EvNodeBuild n (AddPlaceholders (OutputNames n) Tags) false).
    split; [done|]. split; [exact I|].
    constructor; [simpl; tauto|by apply Hfetch].
  - constructor; [simpl; tauto|]. apply Forall_app. split; [by apply Hfetch|].
    constructor; [simpl; tauto|apply Harch].
  - constructor; [simpl; tauto|]. apply Forall_app. split; [by apply Hfetch|].
    constructor; [simpl; tauto|]. apply Forall_app. split; [apply Harch|].
    repeat constructor. simpl. tauto.
Qed.

Lemma FailsLast_prefix r l t :
  Forall (fun e => ¬ IsFailedBuild e) l -> FailsLast r t -> FailsLast r (l ++ t).
Proof.
  intros Hl. destruct r as [[]|]; simpl.
  - intros Ht. by apply Forall_app.
  - intros (l' & e & -> & He & Hl'). exists (l ++ l'), e.
    rewrite app_assoc. repeat split; try done. by apply Forall_app.
  - intros Ht. by apply Forall_app.
Qed.

Lemma FailsLast_split r t Before After e :
  FailsLast r t -> IsFailedBuild e -> t = Before ++ e :: After ->
  After = [] /\ r = Ok false.
Proof.
  intros Hfl He Heq. destruct r as [[]|]; simpl in Hfl.
  - by apply (not_in_split _ _ _ _ _ Hfl He) in Heq.
  - destruct Hfl as (l & e' & -> & _ & Hl).
    apply (only_last _ _ _ _ _ _ Hl He) in Heq as (_ & _ & ->). done.
  - by apply (not_in_split _ _ _ _ _ Hfl He) in Heq.
Qed.

Lemma ExecuteInOrder_fails_last G Total l :
  forall idx s,
  FailsLast (ResultOf (ExecuteInOrder G Total idx l s))
            (TraceOf (ExecuteInOrder G Total idx l s)).
Proof.
  induction l as [|n l IH]; intros idx s.
  - simpl. constructor.
  - rewrite ExecuteInOrder_cons. cbv zeta.
    destruct (bool_decide (Name n ∈ CompleteMarkers s)).
    + unfold ResultOf at 1, TraceOf at 1. simpl.
      apply (FailsLast_prefix _ [_; _]); [|apply IH].
      repeat constructor; simpl; tauto.
    + pose proof (BuildSingleNode_fails_last G n s) as Hb.
      destruct (ResultOf (BuildSingleNode G n s)) as [[]|e];
        unfold ResultOf at 1, TraceOf at 1; simpl.
      * apply (FailsLast_prefix _ [_; _; _]); [repeat constructor; simpl; tauto|].
        apply FailsLast_prefix; [exact Hb|].
        apply (FailsLast_prefix _ [_]); [repeat constructor; simpl; tauto|].
        apply IH.
      * apply (FailsLast_prefix (Ok false) [_; _; _]);
          [repeat constructor; simpl; tauto|exact Hb].
      * apply (FailsLast_prefix (Raise e) [_; _; _]);
          [repeat constructor; simpl; tauto|exact Hb].
Qed.

(** The loop over a list from which the nodes before [l2] were all
    complete or built. *)
Lemma ExecuteInOrder_app G Total l1 l2 :
  forall idx s s1 t1,
  ExecuteInOrder G Total idx l1 s = (Ok true, s1, t1) ->
  ExecuteInOrder G Total idx (l1 ++ l2) s
  = (ResultOf (ExecuteInOrder G Total (idx + List.length l1) l2 s1),
     StorageOf (ExecuteInOrder G Total (idx + List.length l1) l2 s1),
     t1 ++ TraceOf (ExecuteInOrder G Total (idx + List.length l1) l2 s1)).
Proof.
  induction l1 as [|n l1 IH]; intros idx s s1 t1 Hrun.
  - simpl in Hrun. inversion Hrun; subst. simpl. rewrite Nat.add_0_r.
    by destruct (ExecuteInOrder G Total idx l2 s1) as [[r s2] t2].
  - rewrite <- app_comm_cons, ExecuteInOrder_cons.
    rewrite ExecuteInOrder_cons in Hrun. simpl List.length.
    rewrite <- Nat.add_succ_comm.
    destruct (bool_decide (Name n ∈ CompleteMarkers s)).
    + cbv zeta in Hrun.
      destruct (ExecuteInOrder G Total (S idx) l1 s) as [[r s2] t2] eqn:Hl1.
      unfold ResultOf, StorageOf, TraceOf in Hrun. simpl in Hrun.
      inversion Hrun; subst. cbv zeta. rewrite (IH _ _ _ _ Hl1).
      reflexivity.
    + cbv zeta in Hrun. cbv zeta.
      destruct (ResultOf (BuildSingleNode G n s)) as [[]|e]; [|discriminate..].
      destruct (ExecuteInOrder G Total (S idx) l1 _) as [[r s2] t2] eqn:Hl1.
      unfold ResultOf at 1, StorageOf at 1, TraceOf at 1 in Hrun. simpl in Hrun.
      inversion Hrun; subst. rewrite (IH _ _ _ _ Hl1).
      unfold ResultOf at 1, StorageOf at 1 2, TraceOf at 1. simpl.
      rewrite <- !app_assoc. reflexivity.
Qed.

(** The loop does not build a node whose marker is in the storage. *)
Lemma ExecuteInOrder_skips G Total N l :
  forall idx s,
  Name N ∈ CompleteMarkers s ->
  (forall m, m ∈ l -> NodeRef m = NodeRef N -> Name m = Name N) ->
  Forall (fun e => ¬ BuildsNode N e) (TraceOf (ExecuteInOrder G Total idx l s)).
Proof.
  induction l as [|n l IH]; intros idx s Hmark Hnames.
  - simpl. constructor.
  - rewrite ExecuteInOrder_cons. cbv zeta.
    assert (forall m, m ∈ l -> NodeRef m = NodeRef N -> Name m = Name N) as Hl.
    { intros m Hm. apply Hnames. by right. }
    destruct (bool_decide (Name n ∈ CompleteMarkers s)) eqn:Hc.
    + unfold TraceOf at 1. simpl.
      constructor; [simpl; tauto|]. constructor; [simpl; tauto|]. by apply IH.
    + apply bool_decide_eq_false in Hc.
      assert (NodeRef n ≠ NodeRef N) as Hne.
      { intros Heq. apply Hc. rewrite (Hnames n); [done|left|done]. }
      assert (Forall (fun e => ¬ BuildsNode N e) (TraceOf (BuildSingleNode G n s)))
        as Hb.
      { apply Forall_forall. intros e Hin Hbuilds.
        destruct (BuildSingleNode_builds G n s e Hin) as [->|(T & b & ->)];
          [destruct e; simpl in *; tauto|simpl in Hbuilds; done..]. }
      pose proof (BuildSingleNode_markers G n s) as Hmk.
      destruct (ResultOf (BuildSingleNode G n s)) as [[]|e];
        unfold TraceOf at 1; simpl;
        repeat (constructor; [simpl; tauto|]); try done.
      apply Forall_app. split; [done|]. constructor; [simpl; tauto|].
      apply IH; [|done]. by apply Hmk.
Qed.

End ExecutionLoop.

Section IntegrityOfANode.
Context `{!Collaborators}.

(** A node whose input dependencies are not cleaned and whose integrity
    check succeeds whenever the pass makes it is not cleaned by the
    pass. *)
Lemma IntegrityPass_keeps N l :
  forall Cleaned s Cleaned' s' t,
  IntegrityPass l Cleaned s = (Ok Cleaned', s', t) ->
  (forall m, m ∈ l -> NodeRef m = NodeRef N -> m = N) ->
  (forall d, d ∈ InputDependencies N -> d ∉ Cleaned') ->
  (forall b, EvCheckLocalIntegrity (Name N) (OutputNames N) b ∈ t -> b = true) ->
  NodeRef N ∉ Cleaned ->
  NodeRef N ∉ Cleaned'.
Proof.
  induction l as [|m l IH]; intros C s C' s' t Hrun Hsame Hdeps Hcheck HN.
  - simpl in Hrun. inversion Hrun; subst. exact HN.
  - rewrite IntegrityPass_cons in Hrun.
    assert (Hl : forall x, x ∈ l -> NodeRef x = NodeRef N -> x = N).
    { intros x Hx. apply Hsame. by right. }
    destruct (decide (NodeRef m = NodeRef N)) as [Href|Href].
    + assert (m = N) as -> by (apply Hsame; [left|done]).
      assert (Hsub : C ⊆ C').
      { destruct (MustClean N C s); cbv zeta in Hrun.
        - destruct (IntegrityPass_inv l ({[NodeRef N]} ∪ C)
                      (StorageOf (CleanLocalNode (Name N) s)))
            as (C2 & s2 & t2 & Hr & Hs & _).
          rewrite Hr in Hrun. unfold ResultOf, StorageOf, TraceOf in Hrun.
          simpl in Hrun. inversion Hrun; subst. set_solver.
        - destruct (IntegrityPass_inv l C s) as (C2 & s2 & t2 & Hr & Hs & _).
          rewrite Hr in Hrun. unfold ResultOf, StorageOf, TraceOf in Hrun.
          simpl in Hrun. inversion Hrun; subst. exact Hs. }
      assert (Hno : existsb (fun x => bool_decide (x ∈ C)) (InputDependencies N)
                    = false).
      { apply not_true_is_false. intros (d & Hd & Hin)%existsb_exists.
        apply bool_decide_eq_true in Hin. apply list_elem_of_In in Hd.
        apply (Hdeps d Hd). by apply Hsub. }
      assert (Hok : LocalIntegrity s (Name N) (OutputNames N) = true).
      { apply Hcheck.
        unfold CheckEvents in Hrun. rewrite Hno in Hrun.
        destruct (MustClean N C s); cbv zeta in Hrun;
          unfold ResultOf, StorageOf, TraceOf in Hrun; simpl in Hrun;
          inversion Hrun; left. }
      unfold MustClean in Hrun. rewrite Hno, Hok in Hrun. simpl in Hrun.
      destruct (IntegrityPass l C s) as [[r s2] t2] eqn:Hr.
      unfold ResultOf, StorageOf, TraceOf in Hrun. simpl in Hrun.
      inversion Hrun; subst.
      apply (IH _ _ _ _ _ Hr Hl Hdeps); [|exact HN].
      intros b Hb. apply Hcheck. apply elem_of_app. by right.
    + destruct (MustClean m C s); cbv zeta in Hrun.
      * destruct (IntegrityPass l _ _) as [[r s2] t2] eqn:Hr.
        unfold ResultOf, StorageOf, TraceOf in Hrun. simpl in Hrun.
        inversion Hrun; subst.
        apply (IH _ _ _ _ _ Hr Hl Hdeps).
        -- intros b Hb. apply Hcheck. apply elem_of_app. right. by right.
        -- set_solver.
      * destruct (IntegrityPass l C s) as [[r s2] t2] eqn:Hr.
        unfold ResultOf, StorageOf, TraceOf in Hrun. simpl in Hrun.
        inversion Hrun; subst.
        apply (IH _ _ _ _ _ Hr Hl Hdeps); [|exact HN].
        intros b Hb. apply Hcheck. apply elem_of_app. by right.
Qed.

(** The pass makes the integrity check of a node of the list none of
    whose input dependencies it cleans. *)
Lemma IntegrityPass_checks N l :
  forall Cleaned s Cleaned' s' t,
  IntegrityPass l Cleaned s = (Ok Cleaned', s', t) ->
  N ∈ l ->
  (forall d, d ∈ InputDependencies N -> d ∉ Cleaned') ->
  exists b, EvCheckLocalIntegrity (Name N) (OutputNames N) b ∈ t.
Proof.
  induction l as [|m l IH]; intros C s C' s' t Hrun HN Hdeps.
  - by apply elem_of_nil in HN.
  - rewrite IntegrityPass_cons in Hrun.
    assert (Hsub : C ⊆ C'
                   /\ exists t2 C2 s2 r2,
                        IntegrityPass l C2 s2 = (Ok r2, s', t2) /\ r2 = C'
                        /\ (t = CheckEvents m C s ++ t2
                            \/ t = CheckEvents m C s
                                    ++ EvCleanLocalNode (Name m) :: t2)).
    { destruct (MustClean m C s); cbv zeta in Hrun.
      - destruct (IntegrityPass_inv l ({[NodeRef m]} ∪ C)
                    (StorageOf (CleanLocalNode (Name m) s)))
          as (C2 & s2 & t2 & Hr & Hs & _).
        rewrite Hr in Hrun. unfold ResultOf, StorageOf, TraceOf in Hrun.
        simpl in Hrun. inversion Hrun; subst. split; [set_solver|].
        eexists _, _, _, _. split; [exact Hr|]. split; [done|]. by right.
      - destruct (IntegrityPass_inv l C s) as (C2 & s2 & t2 & Hr & Hs & _).
        rewrite Hr in Hrun. unfold ResultOf, StorageOf, TraceOf in Hrun.
        simpl in Hrun. inversion Hrun; subst. split; [done|].
        eexists _, _, _, _. split; [exact Hr|]. split; [done|]. by left. }
    destruct Hsub as (Hsub & t2 & C2 & s2 & r2 & Hr & -> & Ht).
    apply elem_of_cons in HN as [->|HN].
    + assert (Hno : existsb (fun x => bool_decide (x ∈ C)) (InputDependencies m)
                    = false).
      { apply not_true_is_false. intros (d & Hd & Hin)%existsb_exists.
        apply bool_decide_eq_true in Hin. apply list_elem_of_In in Hd.
        apply (Hdeps d Hd). by apply Hsub. }
      exists (LocalIntegrity s (Name m) (OutputNames m)).
      unfold CheckEvents in Ht. rewrite Hno in Ht.
      destruct Ht as [->| ->]; left.
    + destruct (IH _ _ _ _ _ Hr HN Hdeps) as (b & Hb). exists b.
      destruct Ht as [->| ->]; apply elem_of_app; right; [done|by right].
Qed.

(** A node that is complete and is not cleaned by the integrity pass is
    not built. *)
Lemma intact_node_is_skipped (G : Graph) (s : TempStorage) (N : Node) :
  (forall m, m ∈ AllNodes G -> Name m = Name N <-> NodeRef m = NodeRef N) ->
  ResultOf (IsComplete (Name N) s) = Ok true ->
  NodeRef N ∉ CleanedNodes G s ->
  Forall (fun e => ¬ BuildsNode N e) (TraceOf (BuildAllNodes G s)).
Proof.
  intros Hnames Hcomplete Hintact.
  unfold CleanedNodes in Hintact. unfold BuildAllNodes. rewrite emit_bind.
  destruct (IntegrityPass_inv (AllNodes G) ∅ s)
    as (C & s' & t & Hrun & _ & _ & _ & Hkeep & Hev).
  rewrite Hrun in Hintact. unfold ResultOf in Hintact. simpl in Hintact.
  rewrite (then_ok _ _ _ _ _ _ Hrun). unfold TraceOf at 1 2. simpl.
  constructor; [simpl; tauto|]. apply Forall_app. split.
  - eapply Forall_impl; [exact Hev|]. intros e He Hb. apply He.
    destruct e; simpl in *; tauto.
  - apply ExecuteInOrder_skips.
    + apply Hkeep.
      * rewrite IsComplete_run in Hcomplete. unfold ResultOf in Hcomplete.
        simpl in Hcomplete. inversion Hcomplete as [Hb].
        by apply bool_decide_eq_true in Hb.
      * intros m Hm Hname. apply Hnames in Hname; [|done]. by rewrite Hname.
    + intros m Hm Href. by apply Hnames.
Qed.

End IntegrityOfANode.

(** C2: when [BuildAllNodes] runs on a graph in which the node [N] is
    complete and passes the integrity pass, it neither calls
    [BuildSingleNode] nor the build logic for [N], and the pass does not
    clean [N].  The node passes the integrity pass when every call of
    [CheckLocalIntegrity] that the run makes for it succeeds and none of
    its input dependencies is cleaned by the pass.  No other node of the
    graph has the name or the reference of [N]. *)
Theorem complete_node_is_not_rebuilt `{!Collaborators}
    (G : Graph) (s : TempStorage) (N : Node) :
  (forall m, m ∈ AllNodes G ->
     (Name m = Name N \/ NodeRef m = NodeRef N) -> m = N) ->
  ResultOf (IsComplete (Name N) s) = Ok true ->
  (forall bResult,
     EvCheckLocalIntegrity (Name N) (OutputNames N) bResult
     ∈ TraceOf (BuildAllNodes G s) ->
     bResult = true) ->
  (forall d, d ∈ InputDependencies N -> d ∉ CleanedNodes G s) ->
  Forall (fun e => ¬ BuildsNode N e) (TraceOf (BuildAllNodes G s))
  /\ (NodeRef N ∉ CleanedNodes G s)
  /\ (N ∈ AllNodes G ->
      EvCheckLocalIntegrity (Name N) (OutputNames N) true
      ∈ TraceOf (BuildAllNodes G s)).
Proof.
  intros Hunique Hcomplete Hcheck Hdeps.
  destruct (IntegrityPass_inv (AllNodes G) ∅ s) as (C & s' & t & Hrun & _).
  assert (Hpass : forall e, e ∈ t -> e ∈ TraceOf (BuildAllNodes G s)).
  { intros e He. unfold BuildAllNodes. rewrite emit_bind.
    rewrite (then_ok _ _ _ _ _ _ Hrun). unfold TraceOf at 1 2. simpl.
    right. apply elem_of_app. by left. }
  assert (HC : CleanedNodes G s = C).
  { unfold CleanedNodes. by rewrite Hrun. }
  rewrite HC in Hdeps |- *.
  assert (Hintact : NodeRef N ∉ C).
  { apply (IntegrityPass_keeps N _ _ _ _ _ _ Hrun).
    - intros m Hm Href. apply Hunique; [done|by right].
    - exact Hdeps.
    - intros b Hb. by apply Hcheck, Hpass.
    - apply not_elem_of_empty. }
  split; [|split; [exact Hintact|]].
  - apply intact_node_is_skipped; [|done|by rewrite HC].
    intros m Hm. split; intros Heq.
    + by rewrite (Hunique m Hm (or_introl Heq)).
    + by rewrite (Hunique m Hm (or_intror Heq)).
  - intros HN.
    destruct (IntegrityPass_checks N _ _ _ _ _ _ Hrun HN Hdeps) as (b & Hb).
    apply Hpass in Hb. by rewrite (Hcheck b Hb) in Hb.
Qed.

(** ** What a run that builds a node does *)

Section Progress.
Context `{!Collaborators}.

(** When every input has a producer and a manifest, the inputs are
    fetched. *)
Lemma FetchInputs_available G Inputs :
  forall Tags s,
  (forall i, i ∈ Inputs ->
     exists InputNode Manifest,
       OutputNameToNode G !! i = Some InputNode
       /\ StoredManifest s (Name InputNode) i = Some Manifest) ->
  exists Fetched s1 t,
    FetchInputs G Inputs Tags s = (Ok Fetched, s1, t).
Proof.
  induction Inputs as [|i Inputs IH]; intros Tags s Hall; simpl.
  - by eexists _, _, _.
  - destruct (Hall i) as (P & M & HP & HM); [left|]. rewrite HP.
    pose proof (Retreive_run (Name P) i s) as HR. rewrite HM in HR.
    destruct HR as (s1 & HR & Hkeep & _).
    rewrite (bind_ok _ _ _ _ _ _ HR).
    destruct (IH (<[i := Some (list_to_set (map ToFileReference M))]> Tags) s1)
      as (F & s2 & t & Hrun).
    { intros j Hj. destruct (Hall j) as (Q & M' & HQ & HM'); [by right|].
      exists Q, M'. by rewrite Hkeep. }
    rewrite Hrun. by eexists _, _, _.
Qed.

(** The outputs that are bound to file sets are all archived. *)
Lemma PublishOutputs_all n Tags Referenced Outputs :
  forall s,
  (forall o, o ∈ Outputs -> exists Files, Tags !! o = Some (Some Files)) ->
  exists s1,
    ForEach Outputs (PublishOutput n Tags Referenced) s
    = (Ok tt, s1, map (ArchiveEvent n Tags Referenced) Outputs).
Proof.
  induction Outputs as [|o Outputs IH]; intros s Hall; simpl.
  - by eexists.
  - destruct (Hall o) as (Files & Ho); [left|].
    rewrite (PublishOutput_present _ _ _ _ _ Ho).
    rewrite (bind_ok _ _ _ _ _ _ (Archive_run _ _ _ _ _)).
    destruct (IH (StorageOf (Archive (Name n) o Files
                               (bool_decide (o ∈ Referenced)) s)))
      as (s1 & Hrun).
    { intros o' Ho'. apply Hall. by right. }
    rewrite Hrun. unfold ResultOf, StorageOf, TraceOf. simpl.
    exists s1. unfold ArchiveEvent at 2. by rewrite Ho.
Qed.

(** After the inputs are fetched, the build logic is called with the
    tag map that holds them and the placeholders. *)
Lemma BuildSingleNode_calls_build G n s Fetched s1 t :
  FetchInputs G (InputNames n) (SeedTagNames G) s = (Ok Fetched, s1, t) ->
  EvNodeBuild n (AddPlaceholders (OutputNames n) Fetched)
    (fst (NodeBuild n (AddPlaceholders (OutputNames n) Fetched)))
  ∈ TraceOf (BuildSingleNode G n s).
Proof.
  intros Hf.
  pose proof (BuildSingleNode_run G n s) as Hrun.
  destruct (BuildSingleNode G n s) as [[r s'] tr].
  unfold ResultOf, TraceOf in *. simpl in *.
  inversion Hrun as
    [e sa Fa Hfa|T sa Fa Hfa Hb|e T sa Fa Done Rest Hfa Hb Hsplit Hrest
    |T sa Fa Hfa Hb]; subst; rewrite Hf in Hfa; inversion Hfa; subst;
    rewrite Hb; right; apply elem_of_app; right; left.
Qed.

(** When the build logic succeeds and leaves every output of the node
    bound to a set of files, the outputs are archived and the node is
    marked as complete. *)
Lemma BuildSingleNode_succeeds G n s Fetched s1 t :
  FetchInputs G (InputNames n) (SeedTagNames G) s = (Ok Fetched, s1, t) ->
  fst (NodeBuild n (AddPlaceholders (OutputNames n) Fetched)) = true ->
  (forall o, o ∈ OutputNames n ->
     exists Files,
       snd (NodeBuild n (AddPlaceholders (OutputNames n) Fetched)) !! o
       = Some (Some Files)) ->
  exists s2,
    BuildSingleNode G n s
    = (Ok true, s2,
       EvBuildSingleNode n
       :: t ++ EvNodeBuild n (AddPlaceholders (OutputNames n) Fetched) true
       :: map (ArchiveEvent n
                 (snd (NodeBuild n (AddPlaceholders (OutputNames n) Fetched)))
                 (FindReferencedOutputs G n)) (OutputNames n)
       ++ [EvMarkAsComplete (Name n)]).
Proof.
  intros Hf Hb Hbound.
  destruct (PublishOutputs_all n _ (FindReferencedOutputs G n) _ s1 Hbound)
    as (s2 & Hp).
  unfold BuildSingleNode. rewrite emit_bind.
  rewrite (bind_ok _ _ _ _ _ _ Hf). cbv zeta. rewrite emit_bind, Hb.
  cbn [negb]. rewrite (then_ok _ _ _ _ _ _ Hp).
  unfold MarkAsComplete, bind, get, emit, put, ret, ResultOf, StorageOf, TraceOf.
  simpl. eexists. reflexivity.
Qed.

End Progress.

(** C6: when [BuildSingleNode] builds a node, every declared output of the
    node is archived, and every [Archive] of the run is for a declared
    output of the node and has the flag that pushes it to shared storage
    set if and only if the output is an input of a node in another agent
    group, or of a node in the same agent group with another controlling
    trigger.  The node is built when every input has a producer in the
    graph and a manifest in the storage, and the build logic, which is
    then called, succeeds and leaves every declared output bound to a set
    of files: the run then returns [true] and archives exactly that set
    for every declared output. *)
Theorem pushed_iff_consumed_outside_scope `{!Collaborators}
    (G : Graph) (n : Node) (s : TempStorage) :
  ((forall i, i ∈ InputNames n ->
      exists InputNode Manifest,
        OutputNameToNode G !! i = Some InputNode
        /\ StoredManifest s (Name InputNode) i = Some Manifest) ->
   exists Tags,
     EvNodeBuild n Tags (fst (NodeBuild n Tags))
     ∈ TraceOf (BuildSingleNode G n s)
     /\ (fst (NodeBuild n Tags) = true ->
         (forall o, o ∈ OutputNames n ->
            exists Files, snd (NodeBuild n Tags) !! o = Some (Some Files)) ->
         ResultOf (BuildSingleNode G n s) = Ok true
         /\ forall OutputName, OutputName ∈ OutputNames n ->
              exists Files bPush,
                snd (NodeBuild n Tags) !! OutputName = Some (Some Files)
                /\ EvArchive (Name n) OutputName Files bPush
                   ∈ TraceOf (BuildSingleNode G n s)
                /\ (bPush = true <-> ConsumedOutsideScope G n OutputName)))
  /\ (ResultOf (BuildSingleNode G n s) = Ok true ->
      forall OutputName, OutputName ∈ OutputNames n ->
        exists Files bPush,
          EvArchive (Name n) OutputName Files bPush
          ∈ TraceOf (BuildSingleNode G n s))
  /\ (forall NodeName OutputName Files bPush,
        EvArchive NodeName OutputName Files bPush
        ∈ TraceOf (BuildSingleNode G n s) ->
        NodeName = Name n /\ OutputName ∈ OutputNames n
        /\ (bPush = true <-> ConsumedOutsideScope G n OutputName)).
Proof.
  split.
  { intros Havailable.
    destruct (FetchInputs_available G (InputNames n) (SeedTagNames G) s Havailable)
      as (Fetched & s1 & t & Hf).
    exists (AddPlaceholders (OutputNames n) Fetched).
    split; [by eapply BuildSingleNode_calls_build|].
    intros Hb Hbound.
    destruct (BuildSingleNode_succeeds G n s Fetched s1 t Hf Hb Hbound)
      as (s2 & Hrun).
    rewrite Hrun. unfold ResultOf, TraceOf. simpl. split; [done|].
    intros o Ho. destruct (Hbound o Ho) as (Files & HFiles).
    exists Files, (bool_decide (o ∈ FindReferencedOutputs G n)).
    split; [done|]. split.
    - right. apply elem_of_app. right. right. apply elem_of_app. left.
      apply list_elem_of_fmap. exists o. split; [|done].
      unfold ArchiveEvent. by rewrite HFiles.
    - rewrite bool_decide_eq_true. apply FindReferencedOutputs_spec. }
  pose proof (BuildSingleNode_run G n s) as Hrun.
  destruct (BuildSingleNode G n s) as [[r s'] t].
  unfold ResultOf, TraceOf in *. simpl in *.
  assert (forall Done NodeName OutputName Files bPush Tags,
             EvArchive NodeName OutputName Files bPush
             ∈ map (ArchiveEvent n Tags (FindReferencedOutputs G n)) Done ->
             NodeName = Name n /\ OutputName ∈ Done
             /\ (bPush = true <-> ConsumedOutsideScope G n OutputName)) as Harch.
  { intros Done NodeName o Files bPush Tags [o' [Heq Hin]]%list_elem_of_fmap.
    unfold ArchiveEvent in Heq. inversion Heq; subst.
    repeat split; [done| |].
    - intros Hp%bool_decide_eq_true. by apply FindReferencedOutputs_spec.
    - intros Hc. apply bool_decide_eq_true. by apply FindReferencedOutputs_spec. }
  assert (forall Fetched NodeName OutputName Files bPush,
             Forall IsRetreive Fetched ->
             EvArchive NodeName OutputName Files bPush ∉ Fetched) as Hfetch.
  { intros Fetched NodeName o Files bPush HF Hin.
    rewrite Forall_forall in HF. by apply HF in Hin. }
  split.
  - intros -> o Ho.
    inversion Hrun as [| | |Tags s1 Fetched Hf Hb Hshape].
    do 2 eexists. right. apply elem_of_app. right. right.
    apply elem_of_app. left. apply list_elem_of_fmap. exists o. done.
  - intros NodeName o Files bPush Hin.
    inversion Hrun as
      [e s1 Fetched Hf|Tags s1 Fetched Hf Hb|e Tags s1 Fetched Done Rest Hf Hb Hsplit Hrest
      |Tags s1 Fetched Hf Hb]; subst r;
      match goal with H : _ = t |- _ => rename H into Hshape end;
      rewrite <- Hshape in Hin; apply FetchInputs_fetched in Hf;
      apply elem_of_cons in Hin as [Hin|Hin]; try discriminate.
    + by apply Hfetch in Hin.
    + apply elem_of_app in Hin as [Hin|Hin]; [by apply Hfetch in Hin|].
      apply list_elem_of_singleton in Hin. discriminate.
    + apply elem_of_app in Hin as [Hin|Hin]; [by apply Hfetch in Hin|].
      apply elem_of_cons in Hin as [Hin|Hin]; [discriminate|].
      apply Harch in Hin as (-> & Hd & Hiff). rewrite Hsplit.
      repeat split; try tauto. apply elem_of_app. by left.
    + apply elem_of_app in Hin as [Hin|Hin]; [by apply Hfetch in Hin|].
      apply elem_of_cons in Hin as [Hin|Hin]; [discriminate|].
      apply elem_of_app in Hin as [Hin|Hin].
      * apply Harch in Hin as (-> & Hd & Hiff). tauto.
      * apply list_elem_of_singleton in Hin. discriminate.
Qed.

(** C7: the tag map that [BuildSingleNode] passes to the build logic of a
    node.  When every input of the node has a producer in the graph and a
    manifest in the storage, the build logic is called; and whenever it is
    called, it is called for that node, always with the same tag map, in
    which every output name of the graph is a key, unset unless it is an
    input or an output of the node; every input of the node has a producer
    and a manifest in the storage and, unless the node lists it among its
    own outputs, is bound to the files of that manifest, resolved against
    the root directory; and every output of the node is bound to an empty
    set. *)
Theorem tag_map_passed_to_build `{!Collaborators}
    (G : Graph) (n : Node) (s : TempStorage) :
  ((forall i, i ∈ InputNames n ->
      exists InputNode Manifest,
        OutputNameToNode G !! i = Some InputNode
        /\ StoredManifest s (Name InputNode) i = Some Manifest) ->
   exists Tags,
     EvNodeBuild n Tags (fst (NodeBuild n Tags))
     ∈ TraceOf (BuildSingleNode G n s))
  /\ (forall m Tags bResult,
        EvNodeBuild m Tags bResult ∈ TraceOf (BuildSingleNode G n s) ->
        m = n
        /\ bResult = fst (NodeBuild n Tags)
        /\ (forall m' Tags' bResult',
              EvNodeBuild m' Tags' bResult' ∈ TraceOf (BuildSingleNode G n s) ->
              Tags' = Tags)
        /\ (forall o, o ∈ AllOutputNames G ->
              is_Some (Tags !! o)
              /\ (o ∉ InputNames n -> o ∉ OutputNames n -> Tags !! o = Some None))
        /\ (forall i, i ∈ InputNames n ->
              exists InputNode Manifest,
                OutputNameToNode G !! i = Some InputNode
                /\ StoredManifest s (Name InputNode) i = Some Manifest
                /\ (i ∉ OutputNames n ->
                    Tags !! i
                    = Some (Some (list_to_set (map ToFileReference Manifest)))))
        /\ (forall o, o ∈ OutputNames n -> Tags !! o = Some (Some ∅))).
Proof.
  split.
  { intros Havailable.
    destruct (FetchInputs_available G (InputNames n) (SeedTagNames G) s Havailable)
      as (Fetched & s1 & t & Hf).
    exists (AddPlaceholders (OutputNames n) Fetched).
    by eapply BuildSingleNode_calls_build. }
  assert (Hevents : forall m Tags bResult,
            EvNodeBuild m Tags bResult ∈ TraceOf (BuildSingleNode G n s) ->
            exists Fetched s1 t1,
              FetchInputs G (InputNames n) (SeedTagNames G) s
              = (Ok Fetched, s1, t1)
              /\ m = n /\ Tags = AddPlaceholders (OutputNames n) Fetched
              /\ bResult = fst (NodeBuild n Tags)).
  { intros m Tags bResult Hev.
    pose proof (BuildSingleNode_run G n s) as Hrun.
    destruct (BuildSingleNode G n s) as [[r s'] t].
    unfold ResultOf, TraceOf in *. simpl in *.
    assert (forall l, Forall IsRetreive l -> EvNodeBuild m Tags bResult ∉ l)
      as Hfetch.
    { intros l HF Hin. rewrite Forall_forall in HF. by apply HF in Hin. }
    inversion Hrun as
      [e s1 Fetched Hf|T s1 Fetched Hf Hb|e T s1 Fetched Done Rest Hf Hb Hsplit Hrest
      |T s1 Fetched Hf Hb]; subst r;
      match goal with H : _ = t |- _ => rename H into Hshape end;
      rewrite <- Hshape in Hev; pose proof (FetchInputs_fetched _ _ _ _ _ _ _ Hf) as HF;
      apply elem_of_cons in Hev as [Hev|Hev]; try discriminate.
    - by apply Hfetch in Hev.
    - apply elem_of_app in Hev as [Hev|Hev]; [by apply Hfetch in Hev|].
      apply list_elem_of_singleton in Hev. inversion Hev; subst. eauto 10.
    - apply elem_of_app in Hev as [Hev|Hev]; [by apply Hfetch in Hev|].
      apply elem_of_cons in Hev as [Hev|Hev]; [inversion Hev; subst; eauto 10|].
      apply list_elem_of_fmap in Hev as (o & Hev & _). discriminate.
    - apply elem_of_app in Hev as [Hev|Hev]; [by apply Hfetch in Hev|].
      apply elem_of_cons in Hev as [Hev|Hev]; [inversion Hev; subst; eauto 10|].
      apply elem_of_app in Hev as [Hev|Hev].
      + apply list_elem_of_fmap in Hev as (o & Hev & _). discriminate.
      + apply list_elem_of_singleton in Hev. discriminate. }
  intros m Tags bResult Hev.
  destruct (Hevents _ _ _ Hev) as (Fetched & s1 & t1 & Hf & -> & -> & ->).
  destruct (FetchInputs_lookup _ _ _ _ _ _ _ Hf) as (Hother & Hin & _ & _).
  split; [done|]. split; [done|]. split; [|split; [|split]].
  - intros m' Tags' b' Hev'.
    destruct (Hevents _ _ _ Hev') as (F' & s1' & t1' & Hf' & _ & -> & _).
    rewrite Hf in Hf'. by inversion Hf'.
  - intros o Ho. rewrite AddPlaceholders_lookup.
    destruct (decide (o ∈ OutputNames n)) as [Hout|Hout].
    + split; [by eexists|done].
    + destruct (decide (o ∈ InputNames n)) as [Hi|Hi].
      * destruct (Hin o Hi) as (P & mf & _ & _ & ->). split; [by eexists|done].
      * rewrite (Hother o Hi), SeedTagNames_lookup.
        rewrite decide_True by done. split; [by eexists|done].
  - intros i Hi. destruct (Hin i Hi) as (P & mf & HP & Hm & Hl).
    exists P, mf. repeat split; try done. intros Hout.
    rewrite AddPlaceholders_lookup. by rewrite decide_False.
  - intros o Ho. rewrite AddPlaceholders_lookup. by rewrite decide_True.
Qed.

(** ** The front of [Execute] *)

Section FrontFacts.
Context `{!Collaborators}.

Lemma Front_ret {A} (a : A) : Front (ret a).
Proof. intros s. split; [by exists a|constructor]. Qed.

Lemma Front_emit e : IsFrontEvent e -> Front (emit e).
Proof. intros He s. split; [by exists tt|by repeat constructor]. Qed.

Lemma Front_bind {A B} (m : M A) (f : A -> M B) :
  Front m -> (forall a, Front (f a)) -> Front (bind m f).
Proof.
  intros Hm Hf s. destruct (Hm s) as [[a Ha] Ht].
  destruct (m s) as [[r s1] t1] eqn:Hrun.
  unfold ResultOf, TraceOf in Ha, Ht. simpl in Ha, Ht. subst r.
  rewrite (bind_ok _ _ _ _ _ _ Hrun).
  destruct (Hf a s1) as [[b Hb] Htb].
  unfold ResultOf at 1, TraceOf at 1. simpl.
  split; [by exists b|by apply Forall_app].
Qed.

Lemma Front_ForEach {A} (l : list A) (body : A -> M unit) :
  (forall x, Front (body x)) -> Front (ForEach l body).
Proof.
  intros Hb. induction l as [|x l IH]; simpl.
  - apply Front_ret.
  - apply Front_bind; [apply Hb|]. intros _. exact IH.
Qed.

Lemma Front_CleanLocalNode NodeName : Front (CleanLocalNode NodeName).
Proof. intros s. split; [by exists tt|]. repeat constructor. Qed.

Lemma Front_CleanLocal : Front CleanLocal.
Proof. intros s. split; [by exists tt|]. repeat constructor. Qed.

Lemma Front_NewTempStorage host Dir bWrite :
  Front (NewTempStorage host Dir bWrite).
Proof. intros s. split; [by exists tt|]. constructor. Qed.

Lemma Front_ResolveTargets G Names :
  forall TargetNodes, Front (ResolveTargets G Names TargetNodes).
Proof.
  induction Names as [|x Names IH]; intros TargetNodes; simpl.
  - apply Front_ret.
  - destruct (TryResolveReference G x); [apply IH|].
    apply Front_bind; [by apply Front_emit|]. intros _. apply Front_ret.
Qed.

Lemma Front_FindTriggers G Names :
  forall Triggers, Front (FindTriggers G Names Triggers).
Proof.
  induction Names as [|x Names IH]; intros Triggers; simpl.
  - apply Front_ret.
  - destruct (NameToTrigger G !! x); [apply IH|].
    apply Front_bind; [by apply Front_emit|]. intros _. apply Front_ret.
Qed.

Lemma Front_ScanAttributes T Attributes :
  forall NameToTask, Front (ScanAttributes T Attributes NameToTask).
Proof.
  induction Attributes as [|a Attributes IH]; intros NameToTask; simpl.
  - apply Front_ret.
  - destruct (negb _).
    { apply Front_bind; [by apply Front_emit|]. intros _. apply Front_ret. }
    destruct (bool_decide _); [|apply IH].
    apply Front_bind; [by apply Front_emit|]. intros _. apply Front_ret.
Qed.

Lemma Front_ScanTypes Ts :
  forall NameToTask, Front (ScanTypes Ts NameToTask).
Proof.
  induction Ts as [|T Ts IH]; intros NameToTask; simpl.
  - apply Front_ret.
  - apply Front_bind; [apply Front_ScanAttributes|].
    intros r. destruct (snd r); [apply IH|apply Front_ret].
Qed.

Lemma Front_ScanAssemblies Assemblies :
  forall NameToTask, Front (ScanAssemblies Assemblies NameToTask).
Proof.
  induction Assemblies as [|a Assemblies IH]; intros NameToTask; simpl.
  - apply Front_ret.
  - apply Front_bind; [apply Front_ScanTypes|].
    intros r. destruct (snd r); [apply IH|apply Front_ret].
Qed.

Lemma Front_CreateTempStorage cl host : Front (CreateTempStorage cl host).
Proof.
  unfold CreateTempStorage.
  apply Front_bind; [apply Front_NewTempStorage|]. intros _.
  apply Front_bind; [destruct (CleanParam cl);
                     [apply Front_CleanLocal|apply Front_ret]|]. intros _.
  apply Front_ForEach, Front_CleanLocalNode.
Qed.

Lemma Front_ResolveGraph cl G TargetNames :
  Front (ResolveGraph cl G TargetNames).
Proof.
  unfold ResolveGraph.
  apply Front_bind; [apply Front_ResolveTargets|].
  intros [TargetNodes|]; [|apply Front_ret].
  apply Front_bind; [apply Front_FindTriggers|].
  intros [Triggers|]; [|apply Front_ret].
  destruct (SingleNodeParam cl) as [SingleNodeName|]; [|apply Front_ret].
  destruct (NameToNode _ !! SingleNodeName); [apply Front_ret|].
  apply Front_bind; [by apply Front_emit|]. intros _. apply Front_ret.
Qed.

Lemma Front_PrepareGraph cl host G TargetNames :
  Front (PrepareGraph cl host G TargetNames).
Proof.
  unfold PrepareGraph.
  apply Front_bind; [apply Front_CreateTempStorage|]. intros _.
  apply Front_ResolveGraph.
Qed.

Lemma Front_Prepare cl host : Front (Prepare cl host).
Proof.
  unfold Prepare.
  destruct (ScriptParam cl) as [ScriptFileName|].
  2:{ apply Front_bind; [by apply Front_emit|]. intros _. apply Front_ret. }
  destruct (TargetParam cl) as [TargetNames|].
  2:{ apply Front_bind; [by apply Front_emit|]. intros _. apply Front_ret. }
  apply Front_bind; [apply Front_ScanAssemblies|]. intros Tasks.
  destruct (negb (snd Tasks)); [apply Front_ret|].
  apply Front_bind.
  { destruct (SchemaParam cl); [by apply Front_emit|apply Front_ret]. }
  intros _. destruct (TryRead _ _ _); [|apply Front_ret].
  apply Front_PrepareGraph.
Qed.

End FrontFacts.

(** ** Executing the command *)

Section Command.
Context `{!Collaborators}.

Lemma CollectCompleted_run l :
  forall Completed s,
  exists Completed' t,
    CollectCompleted l Completed s = (Ok Completed', s, t)
    /\ Forall (fun e => exists n b, e = EvIsComplete n b) t.
Proof.
  induction l as [|n l IH]; intros Completed s; simpl.
  - exists Completed, []. split; [done|constructor].
  - rewrite (bind_ok _ _ _ _ _ _ (IsComplete_run _ _)).
    destruct (IH (if bool_decide (Name n ∈ CompleteMarkers s)
                  then AddNode Completed n else Completed) s)
      as (C' & t & Hrun & Ht).
    rewrite Hrun. unfold ResultOf, StorageOf, TraceOf. simpl.
    exists C', (EvIsComplete (Name n) (bool_decide (Name n ∈ CompleteMarkers s)) :: t).
    split; [done|]. constructor; [eauto|done].
Qed.

Lemma BuildAllNodes_fails_last G s :
  FailsLast (ResultOf (BuildAllNodes G s)) (TraceOf (BuildAllNodes G s)).
Proof.
  unfold BuildAllNodes. rewrite emit_bind.
  destruct (IntegrityPass_inv (AllNodes G) ∅ s)
    as (C & s' & t & Hrun & _ & _ & _ & _ & Hev).
  rewrite (then_ok _ _ _ _ _ _ Hrun).
  unfold ResultOf at 1 2, TraceOf at 1 2. simpl.
  apply (FailsLast_prefix _ (EvBuildAllNodes :: t)).
  - constructor; [simpl; tauto|].
    eapply Forall_impl; [exact Hev|]. intros e He Hf. apply He.
    destruct e; simpl in *; tauto.
  - apply ExecuteInOrder_fails_last.
Qed.

(** A failed call of the build logic ends the command with an error. *)
Lemma ExecuteCommand_failed_build cl G Triggers SingleNode s Before After e :
  TraceOf (ExecuteCommand cl G Triggers SingleNode s) = Before ++ e :: After ->
  IsFailedBuild e ->
  After = []
  /\ ResultOf (ExecuteCommand cl G Triggers SingleNode s) = Ok Error_Unknown.
Proof.
  intros Heq He. unfold ExecuteCommand in *.
  assert (forall t, Forall (fun e => exists n b, e = EvIsComplete n b) t ->
                    Forall (fun e => ¬ IsFailedBuild e) t) as Hchecks.
  { intros t Ht. eapply Forall_impl; [exact Ht|].
    intros x (n & b & ->). simpl. tauto. }
  destruct (ListOnlyParam cl).
  { exfalso. unfold FindCompletedNodes in Heq.
    destruct (CollectCompleted_run (AllNodes G) [] s) as (C & t & Hrun & Ht).
    rewrite (bind_ok _ _ _ _ _ _ Hrun) in Heq.
    unfold TraceOf, bind, emit, ret in Heq. simpl in Heq.
    eapply (not_in_split IsFailedBuild (t ++ [_])); [|exact He|exact Heq].
    apply Forall_app. split; [by apply Hchecks|]. repeat constructor. simpl. tauto. }
  destruct (ExportParam cl) as [ExportFileName|].
  { exfalso. unfold FindCompletedNodes in Heq.
    destruct (CollectCompleted_run (AllNodes G) [] s) as (C & t & Hrun & Ht).
    rewrite (bind_ok _ _ _ _ _ _ Hrun) in Heq.
    unfold TraceOf, bind, emit, ret in Heq. simpl in Heq.
    eapply (not_in_split IsFailedBuild (t ++ [_; _])); [|exact He|exact Heq].
    apply Forall_app. split; [by apply Hchecks|].
    repeat constructor; simpl; tauto. }
  destruct SingleNode as [n|].
  - pose proof (BuildSingleNode_fails_last G n s) as Hfl.
    destruct (BuildSingleNode G n s) as [[[b|x] s1] t1] eqn:Hb.
    + rewrite (bind_ok _ _ _ _ _ _ Hb) in Heq |- *.
      unfold ResultOf, TraceOf, ret in *. simpl in *. rewrite app_nil_r in Heq.
      destruct (FailsLast_split (Ok b) t1 _ _ _ Hfl He Heq) as [-> Hr].
      inversion Hr; subst. done.
    + rewrite (bind_raise _ _ _ _ _ _ Hb) in Heq.
      unfold ResultOf, TraceOf in *. simpl in *.
      by destruct (FailsLast_split (Raise x) t1 _ _ _ Hfl He Heq).
  - pose proof (BuildAllNodes_fails_last G s) as Hfl.
    destruct (BuildAllNodes G s) as [[[b|x] s1] t1] eqn:Hb.
    + rewrite (bind_ok _ _ _ _ _ _ Hb) in Heq |- *.
      unfold ResultOf, TraceOf, ret in *. simpl in *. rewrite app_nil_r in Heq.
      destruct (FailsLast_split (Ok b) t1 _ _ _ Hfl He Heq) as [-> Hr].
      inversion Hr; subst. done.
    + rewrite (bind_raise _ _ _ _ _ _ Hb) in Heq.
      unfold ResultOf, TraceOf in *. simpl in *.
      by destruct (FailsLast_split (Raise x) t1 _ _ _ Hfl He Heq).
Qed.

(** [Execute] is its front followed by the command. *)
Lemma Execute_run cl host s :
  exists Ready s1 Pre,
    Prepare cl host s = (Ok Ready, s1, Pre)
    /\ Forall IsFrontEvent Pre
    /\ match Ready with
       | None => Execute cl host s = (Ok Error_Unknown, s1, Pre)
       | Some (G, Triggers, SingleNode) =>
           Execute cl host s
           = (ResultOf (ExecuteCommand cl G Triggers SingleNode s1),
              StorageOf (ExecuteCommand cl G Triggers SingleNode s1),
              Pre ++ TraceOf (ExecuteCommand cl G Triggers SingleNode s1))
       end.
Proof.
  destruct (Front_Prepare cl host s) as [[Ready HR] Hfront].
  destruct (Prepare cl host s) as [[r s1] Pre] eqn:Hrun.
  unfold ResultOf, TraceOf in HR, Hfront. simpl in HR, Hfront. subst r.
  exists Ready, s1, Pre. split; [done|]. split; [done|].
  unfold Execute. rewrite (bind_ok _ _ _ _ _ _ Hrun).
  destruct Ready as [[[G Triggers] SingleNode]|]; [done|].
  unfold ResultOf, StorageOf, TraceOf, ret. simpl. by rewrite app_nil_r.
Qed.

End Command.

(** C5: [BuildAllNodes] fails fast.  When the nodes before [n] in the
    order were complete or built and [BuildSingleNode] returns [false] for
    [n], [BuildAllNodes] returns [false] in the storage that the build of
    [n] left, and its events end with those of the build of [n]: no node
    after [n] is examined or built.  And whenever the build logic of a node
    returns failure in a run of [Execute], that call is the last event of
    the run and [Execute] returns the error exit code. *)
Theorem BuildAllNodes_fails_fast `{!Collaborators} :
  (forall (G : Graph) (s s1 : TempStorage) (Before After : list Node)
          (n : Node) (t1 : list Event),
      AllNodes G = Before ++ n :: After ->
      ExecuteInOrder G (List.length (AllNodes G)) 0 Before
        (StorageOf (IntegrityPass (AllNodes G) ∅ s)) = (Ok true, s1, t1) ->
      ResultOf (IsComplete (Name n) s1) = Ok false ->
      ResultOf (BuildSingleNode G n s1) = Ok false ->
      BuildAllNodes G s
      = (Ok false, StorageOf (BuildSingleNode G n s1),
         EvBuildAllNodes :: TraceOf (IntegrityPass (AllNodes G) ∅ s) ++ t1
           ++ EvLog (NodeBanner (S (List.length Before))
                                (List.length (AllNodes G)) (Name n))
           :: EvIsComplete (Name n) false :: EvLog BlankLine
           :: TraceOf (BuildSingleNode G n s1)))
  /\ (forall (cl : CommandLine) (host : Host) (s : TempStorage)
             (Before After : list Event) (m : Node) (Tags : TagMap),
        TraceOf (Execute cl host s)
        = Before ++ EvNodeBuild m Tags false :: After ->
        After = [] /\ ResultOf (Execute cl host s) = Ok Error_Unknown).
Proof.
  split.
  - intros G s s1 Before After n t1 Hnodes Hbefore Hincomplete Hfailed.
    unfold BuildAllNodes. rewrite emit_bind.
    destruct (IntegrityPass_inv (AllNodes G) ∅ s)
      as (C & s' & t & Hrun & _).
    rewrite (then_ok _ _ _ _ _ _ Hrun). rewrite Hrun in *.
    unfold StorageOf at 1 in Hbefore. simpl in Hbefore.
    remember (List.length (AllNodes G)) as Total eqn:HTotal.
    rewrite Hnodes.
    rewrite (ExecuteInOrder_app _ _ _ _ _ _ _ _ Hbefore).
    rewrite ExecuteInOrder_cons.
    rewrite IsComplete_run in Hincomplete. unfold ResultOf in Hincomplete.
    simpl in Hincomplete. inversion Hincomplete as [Hc]. rewrite Hc.
    cbv zeta. rewrite Hfailed.
    unfold ResultOf, StorageOf, TraceOf. simpl. reflexivity.
  - intros cl host s Before After m Tags Heq.
    destruct (Execute_run cl host s) as (Ready & s1 & Pre & Hprep & Hfront & Hrun).
    assert (Forall (fun e => ¬ IsFailedBuild e) Pre) as Hpre.
    { eapply Forall_impl; [exact Hfront|]. intros []; simpl; tauto. }
    destruct Ready as [[[G Triggers] SingleNode]|]; rewrite Hrun in Heq |- *;
      unfold TraceOf at 1 in Heq; simpl in Heq.
    + destruct (split_past IsFailedBuild _ _ _ _ (EvNodeBuild m Tags false)
                  Hpre I Heq) as (B' & -> & Hcmd).
      unfold ResultOf at 1. simpl.
      eapply ExecuteCommand_failed_build; [exact Hcmd|exact I].
    + by apply (not_in_split IsFailedBuild _ _ _ (EvNodeBuild m Tags false)
                  Hpre I) in Heq.
Qed.

(** ** Configuration errors *)

Section ConfigurationFacts.
Context `{!Collaborators}.

Lemma ScanAttributes_flat T Attributes :
  forall NameToTask s,
  ScanAttributes T Attributes NameToTask s
  = ScanFlat (map (pair T) Attributes) NameToTask s.
Proof.
  induction Attributes as [|a Attributes IH]; intros NameToTask s; simpl; [done|].
  destruct (negb _); [done|]. destruct (bool_decide _); [done|]. apply IH.
Qed.

Lemma ScanFlat_app l1 l2 :
  forall NameToTask s,
  ScanFlat (l1 ++ l2) NameToTask s
  = (r <- ScanFlat l1 NameToTask ;;
     if snd r then ScanFlat l2 (fst r) else ret r) s.
Proof.
  induction l1 as [|Ta l1 IH]; intros NameToTask s; simpl.
  - unfold bind, ret. simpl. by destruct (ScanFlat l2 NameToTask s) as [[r s2] t2].
  - destruct (negb _); [done|]. destruct (bool_decide _); [done|]. apply IH.
Qed.

Lemma ScanTypes_flat Ts :
  forall NameToTask s,
  ScanTypes Ts NameToTask s
  = ScanFlat (flat_map AttributesOfType Ts) NameToTask s.
Proof.
  induction Ts as [|T Ts IH]; intros NameToTask s; simpl; [done|].
  rewrite ScanFlat_app. unfold bind. rewrite ScanAttributes_flat.
  unfold AttributesOfType at 1.
  destruct (ScanFlat (map (pair T) (TaskElementAttributes T)) NameToTask s)
    as [[[r|e] s1] t1]; [|done].
  destruct (snd r); [by rewrite IH|done].
Qed.

Lemma ScanAssemblies_flat Assemblies :
  forall NameToTask s,
  ScanAssemblies Assemblies NameToTask s
  = ScanFlat (ScannedAttributes Assemblies) NameToTask s.
Proof.
  unfold ScannedAttributes.
  induction Assemblies as [|a Assemblies IH]; intros NameToTask s; simpl; [done|].
  rewrite ScanFlat_app. unfold bind. rewrite ScanTypes_flat.
  destruct (ScanFlat (flat_map AttributesOfType (Types a)) NameToTask s)
    as [[[r|e] s1] t1]; [|done].
  destruct (snd r); [by rewrite IH|done].
Qed.

(** The scan succeeds silently when every scanned class is a task and no
    name is scanned twice or is in the dictionary already; otherwise it
    stops with the message of the first offence. *)
Lemma ScanFlat_spec l :
  forall (NameToTask : gmap string ScriptTask),
  exists NameToTask' b t,
    (forall s, ScanFlat l NameToTask s = (Ok (NameToTask', b), s, t))
    /\ (b = true ->
        t = [] /\ NoDup (ElementNames l)
        /\ (forall Ta, Ta ∈ l -> IsSubclassOfCustomTask (fst Ta) = true)
        /\ (forall x, x ∈ ElementNames l -> NameToTask !! x = None))
    /\ (b = false ->
        exists msg,
          t = [EvLogError msg]
          /\ ((exists T a, (T, a) ∈ l /\ IsSubclassOfCustomTask T = false
                           /\ msg = NotDerivedFromTask (TypeName T))
              \/ (exists x, msg = MultipleHandlers x
                            /\ (OccursTwice x (ElementNames l)
                                \/ (x ∈ ElementNames l
                                    /\ is_Some (NameToTask !! x)))))).
Proof.
  induction l as [|[T a] l IH]; intros NameToTask.
  - exists NameToTask, true, []. repeat split; try done; try constructor.
    + intros Ta HTa. by apply elem_of_nil in HTa.
    + intros x Hx. by apply elem_of_nil in Hx.
  - simpl ScanFlat. destruct (IsSubclassOfCustomTask T) eqn:Hsub; simpl negb; cbv iota.
    2:{ exists NameToTask, false, [EvLogError (NotDerivedFromTask (TypeName T))].
        split; [done|]. split; [done|]. intros _. eexists. split; [done|].
        left. exists T, a. split; [left|done]. }
    destruct (bool_decide (is_Some (NameToTask !! ElementName a))) eqn:Hdup.
    { apply bool_decide_eq_true in Hdup.
      exists NameToTask, false, [EvLogError (MultipleHandlers (ElementName a))].
      split; [done|]. split; [done|]. intros _. eexists. split; [done|].
      right. exists (ElementName a). split; [done|]. right. split; [left|done]. }
    apply bool_decide_eq_false in Hdup.
    destruct (IH (<[ElementName a :=
                      MkScriptTask (ElementName a) (TypeName T) (ParametersType a)]>
                    NameToTask)) as (m' & b & t & Hrun & Htrue & Hfalse).
    exists m', b, t. split; [exact Hrun|]. split.
    + intros Hb. destruct (Htrue Hb) as (-> & Hnd & Hall & Hfresh).
      split; [done|]. split; [|split].
      * simpl. constructor; [|done]. intros Hin.
        apply Hfresh in Hin. by rewrite lookup_insert_eq in Hin.
      * intros Ta [->|HTa]%elem_of_cons; [done|by apply Hall].
      * intros x [->|Hx]%elem_of_cons; [by apply eq_None_not_Some|].
        pose proof (Hfresh x Hx) as Hnone.
        destruct (decide (ElementName a = x)) as [<-|Hne].
        -- by rewrite lookup_insert_eq in Hnone.
        -- by rewrite lookup_insert_ne in Hnone.
    + intros Hb. destruct (Hfalse Hb) as (msg & -> & Hmsg).
      exists msg. split; [done|].
      destruct Hmsg as [(T' & a' & Hin & Hs & ->)|(x & -> & Hx)].
      * left. exists T', a'. split; [by right|done].
      * right. exists x. split; [done|].
        destruct Hx as [(l1 & l2 & l3 & Heq)|[Hin Hsome]].
        -- left. exists (ElementName a :: l1), l2, l3. simpl. by rewrite Heq.
        -- destruct (decide (ElementName a = x)) as [<-|Hne].
           ++ left. apply list_elem_of_split in Hin as (l2 & l3 & Heq).
              exists [], l2, l3. simpl. by rewrite Heq.
           ++ right. rewrite lookup_insert_ne in Hsome by done.
              split; [by right|done].
Qed.

Lemma OccursTwice_not_NoDup x (l : list string) : OccursTwice x l -> ¬ NoDup l.
Proof.
  intros (l1 & l2 & l3 & ->) Hnd.
  apply NoDup_app in Hnd as (_ & _ & Hnd). inversion Hnd as [|? ? Hnin _]; subst.
  apply Hnin. apply elem_of_app. right. left.
Qed.

(** [FindAvailableTasks] from the empty dictionary. *)
Lemma FindAvailableTasks_run host bPublicTasksOnly :
  exists Tasks b t,
    (forall s, FindAvailableTasks host ∅ bPublicTasksOnly s = (Ok (Tasks, b), s, t))
    /\ (b = true ->
        t = []
        /\ NoDup (ElementNames
                    (ScannedAttributes (ScannedAssemblies host bPublicTasksOnly)))
        /\ (forall Ta,
              Ta ∈ ScannedAttributes (ScannedAssemblies host bPublicTasksOnly) ->
              IsSubclassOfCustomTask (fst Ta) = true))
    /\ (b = false ->
        exists msg,
          t = [EvLogError msg]
          /\ ((exists T a,
                  (T, a) ∈ ScannedAttributes
                             (ScannedAssemblies host bPublicTasksOnly)
                  /\ IsSubclassOfCustomTask T = false
                  /\ msg = NotDerivedFromTask (TypeName T))
              \/ (exists x,
                    msg = MultipleHandlers x
                    /\ OccursTwice x
                         (ElementNames
                            (ScannedAttributes
                               (ScannedAssemblies host bPublicTasksOnly)))))).
Proof.
  destruct (ScanFlat_spec
              (ScannedAttributes (ScannedAssemblies host bPublicTasksOnly)) ∅)
    as (Tasks & b & t & Hrun & Htrue & Hfalse).
  exists Tasks, b, t. split; [|split].
  - intros s. unfold FindAvailableTasks. rewrite ScanAssemblies_flat. apply Hrun.
  - intros Hb. destruct (Htrue Hb) as (? & ? & ? & _). done.
  - intros Hb. destruct (Hfalse Hb) as (msg & -> & Hmsg). exists msg.
    split; [done|]. destruct Hmsg as [?|(x & -> & [?|[_ Hsome]])]; [by left|..].
    + right. by exists x.
    + rewrite lookup_empty in Hsome. by destruct Hsome.
Qed.

(** The loops over the target names and over the trigger names do not
    touch the storage; they succeed silently when every name is found and
    report the first name that is not. *)
Lemma ResolveTargets_run G Names :
  forall TargetNodes,
  exists r t,
    (forall s, ResolveTargets G Names TargetNodes s = (Ok r, s, t))
    /\ match r with
       | Some _ =>
           t = [] /\ forall x, x ∈ Names -> is_Some (TryResolveReference G x)
       | None =>
           exists x, x ∈ Names /\ TryResolveReference G x = None
                     /\ t = [EvLogError (TargetNotInGraph x)]
       end.
Proof.
  induction Names as [|x Names IH]; intros TargetNodes; simpl.
  - exists (Some TargetNodes), []. split; [done|]. split; [done|].
    intros x Hx. by apply elem_of_nil in Hx.
  - destruct (TryResolveReference G x) as [Found|] eqn:Hx.
    + destruct (IH (UnionWithNodes TargetNodes Found)) as (r & t & Hrun & Hr).
      exists r, t. split; [done|]. destruct r as [Nodes|].
      * destruct Hr as [-> Hall]. split; [done|].
        intros y [->|Hy]%elem_of_cons; [by rewrite Hx|by apply Hall].
      * destruct Hr as (y & Hy & Hnone & ->). exists y. split; [by right|done].
    + exists None, [EvLogError (TargetNotInGraph x)]. split; [done|].
      exists x. split; [left|done].
Qed.

Lemma FindTriggers_run G Names :
  forall Triggers,
  exists r t,
    (forall s, FindTriggers G Names Triggers s = (Ok r, s, t))
    /\ match r with
       | Some _ =>
           t = [] /\ forall x, x ∈ Names -> is_Some (NameToTrigger G !! x)
       | None =>
           exists x, x ∈ Names /\ NameToTrigger G !! x = None
                     /\ t = [EvLogError (TriggerNotFound x)]
       end.
Proof.
  induction Names as [|x Names IH]; intros Triggers; simpl.
  - exists (Some Triggers), []. split; [done|]. split; [done|].
    intros x Hx. by apply elem_of_nil in Hx.
  - destruct (NameToTrigger G !! x) as [Trigger|] eqn:Hx.
    + destruct (IH (AddWithUpstream Trigger Triggers)) as (r & t & Hrun & Hr).
      exists r, t. split; [done|]. destruct r as [Found|].
      * destruct Hr as [-> Hall]. split; [done|].
        intros y [->|Hy]%elem_of_cons; [by rewrite Hx|by apply Hall].
      * destruct Hr as (y & Hy & Hnone & ->). exists y. split; [by right|done].
    + exists None, [EvLogError (TriggerNotFound x)]. split; [done|].
      exists x. split; [left|done].
Qed.

End ConfigurationFacts.

Section ConfigurationErrors.
Context `{!Collaborators}.

Lemma ret_then {A B} (a : A) (k : M B) s : (ret a ;;; k) s = k s.
Proof. unfold bind, ret. by destruct (k s) as [[r s2] t2]. Qed.

(** The front of [Execute] stops at a configuration error and reports
    it. *)
Lemma Prepare_configuration_error cl host s msg :
  ConfigurationError cl host s msg ->
  exists s1 Pre msg',
    Prepare cl host s = (Ok None, s1, Pre ++ [EvLogError msg'])
    /\ ConfigurationError cl host s msg'.
Proof.
  intros Herr.
  destruct (FindAvailableTasks_run host (PublicTasksOnlyParam cl))
    as (Tasks' & b & t0 & Hscan & Htrue & Hfalse).
  assert (forall ScriptFileName TargetNames,
             ScriptParam cl = Some ScriptFileName ->
             TargetParam cl = Some TargetNames -> b = false ->
             exists s1 Pre msg',
               Prepare cl host s = (Ok None, s1, Pre ++ [EvLogError msg'])
               /\ ConfigurationError cl host s msg') as Hscanfails.
  { intros ScriptFileName TargetNames HS HT ->.
    destruct (Hfalse eq_refl) as (msg0 & -> & Hmsg0).
    exists s, [], msg0. split.
    - unfold Prepare. rewrite HS, HT. rewrite (bind_ok _ _ _ _ _ _ (Hscan s)).
      reflexivity.
    - destruct Hmsg0 as [(T & a & Hin & Hsub & ->)|(x & -> & Htwice)].
      + by eapply HandlerNotATask.
      + by eapply DuplicateHandler. }
  assert (forall ScriptFileName TargetNames Tasks G,
             ScriptParam cl = Some ScriptFileName ->
             TargetParam cl = Some TargetNames ->
             ResultOf (FindAvailableTasks host ∅ (PublicTasksOnlyParam cl) s)
             = Ok (Tasks, true) ->
             TryRead ScriptFileName cl Tasks = Some G ->
             forall r t,
               (forall s', ResolveGraph cl G TargetNames s' = (Ok r, s', t)) ->
               exists s1 Pre,
                 Prepare cl host s = (Ok r, s1, Pre ++ t)) as Hgraph.
  { intros ScriptFileName TargetNames Tasks G HS HT HTasks HRead r t Hres.
    rewrite Hscan in HTasks. unfold ResultOf in HTasks. simpl in HTasks.
    inversion HTasks; subst Tasks' b. destruct (Htrue eq_refl) as (-> & _).
    destruct (Front_CreateTempStorage cl host s) as [[[] Hok] _].
    destruct (CreateTempStorage cl host s) as [[r1 s1] t1] eqn:Hcreate.
    unfold ResultOf in Hok. simpl in Hok. subst r1.
    exists s1.
    exists (match SchemaParam cl with
            | Some SchemaFileName => [EvSchemaExport SchemaFileName]
            | None => []
            end ++ t1).
    unfold Prepare. rewrite HS, HT. rewrite (bind_ok _ _ _ _ _ _ (Hscan s)).
    cbn [fst snd negb]. rewrite HRead.
    unfold PrepareGraph.
    destruct (SchemaParam cl) as [SchemaFileName|].
    - rewrite emit_bind. rewrite (then_ok _ _ _ _ _ _ Hcreate). rewrite Hres.
      unfold ResultOf, StorageOf, TraceOf. simpl. reflexivity.
    - rewrite ret_then. rewrite (then_ok _ _ _ _ _ _ Hcreate). rewrite Hres.
      unfold ResultOf, StorageOf, TraceOf. simpl. reflexivity. }
  destruct Herr as
    [ScriptFileName TargetNames Tasks G TargetName HS HT HTasks HRead Hin Hnone
    |ScriptFileName TargetNames Tasks G TargetNodes TriggerName
       HS HT HTasks HRead HTargets Hin Hnone
    |ScriptFileName TargetNames Name HS HT Htwice
    |ScriptFileName TargetNames T a HS HT Hin Hsub].
  - destruct (ResolveTargets_run G (TargetNamesOf TargetNames) [])
      as (r & t & Hrun & Hr).
    destruct r as [Nodes|].
    { destruct Hr as [_ Hall]. apply Hall in Hin. rewrite Hnone in Hin.
      by destruct Hin. }
    destruct Hr as (x & Hx & Hxnone & ->).
    destruct (Hgraph _ _ _ _ HS HT HTasks HRead None
                [EvLogError (TargetNotInGraph x)]) as (s1 & Pre & Hprep).
    { intros s'. unfold ResolveGraph.
      change (map Trim (SplitRemoveEmptyEntries ["+"%char] TargetNames))
        with (TargetNamesOf TargetNames).
      rewrite (bind_ok _ _ _ _ _ _ (Hrun s')). reflexivity. }
    exists s1, Pre, (TargetNotInGraph x). split; [done|].
    by eapply UnknownTarget.
  - destruct (ResolveTargets_run G (TargetNamesOf TargetNames) [])
      as (r & t & Hrun & Hr).
    rewrite Hrun in HTargets. unfold ResultOf in HTargets. simpl in HTargets.
    inversion HTargets; subst r. destruct Hr as [-> _].
    destruct (FindTriggers_run (Select G TargetNodes) (TriggerNamesOf cl) [])
      as (r & t & Hfind & Hr).
    destruct r as [Found|].
    { destruct Hr as [_ Hall]. apply Hall in Hin. rewrite Hnone in Hin.
      by destruct Hin. }
    destruct Hr as (x & Hx & Hxnone & ->).
    destruct (Hgraph _ _ _ _ HS HT HTasks HRead None
                [EvLogError (TriggerNotFound x)]) as (s1 & Pre & Hprep).
    { intros s'. unfold ResolveGraph.
      change (map Trim (SplitRemoveEmptyEntries ["+"%char] TargetNames))
        with (TargetNamesOf TargetNames).
      rewrite (bind_ok _ _ _ _ _ _ (Hrun s')).
      change (SplitRemoveEmptyEntries ["+"%char] (TriggerParam cl))
        with (TriggerNamesOf cl).
      unfold ResultOf at 1, StorageOf at 1, TraceOf at 1. simpl.
      rewrite (bind_ok _ _ _ _ _ _ (Hfind s')). reflexivity. }
    exists s1, Pre, (TriggerNotFound x). split; [done|].
    eapply UnknownTrigger; try done.
    by rewrite Hrun.
  - apply (Hscanfails _ _ HS HT). destruct b; [|done].
    destruct (Htrue eq_refl) as (_ & Hnd & _).
    by apply OccursTwice_not_NoDup in Htwice.
  - apply (Hscanfails _ _ HS HT). destruct b; [|done].
    destruct (Htrue eq_refl) as (_ & _ & Hall).
    apply Hall in Hin. simpl in Hin. congruence.
Qed.

End ConfigurationErrors.

(** C9: configuration errors are fatal before any node executes.  When
    the run of [Execute] has a configuration error (a target that the graph
    does not resolve, a trigger that is not in [NameToTrigger], a task
    element with two handlers), [Execute] returns the error exit code, it
    calls neither [BuildAllNodes] nor [BuildSingleNode] nor the build logic
    of a node, and the last thing it does is to log an error that names
    what is wrong in the configuration. *)
Theorem configuration_errors_are_fatal `{!Collaborators}
    (cl : CommandLine) (host : Host) (s : TempStorage) (msg : LogMessage) :
  ConfigurationError cl host s msg ->
  ResultOf (Execute cl host s) = Ok Error_Unknown
  /\ Forall (fun e => ¬ IsEngineCall e) (TraceOf (Execute cl host s))
  /\ exists msg',
       ConfigurationError cl host s msg'
       /\ last (TraceOf (Execute cl host s)) = Some (EvLogError msg').
Proof.
  intros Herr.
  destruct (Prepare_configuration_error _ _ _ _ Herr)
    as (s1 & Pre & msg' & Hprep & Herr').
  destruct (Execute_run cl host s) as (Ready & s1' & Pre' & Hprep' & Hfront & Hrun).
  rewrite Hprep in Hprep'. inversion Hprep'; subst Ready s1' Pre'.
  rewrite Hrun. unfold ResultOf, TraceOf. simpl.
  split; [done|]. split.
  - eapply Forall_impl; [exact Hfront|]. intros []; simpl; tauto.
  - exists msg'. split; [done|]. apply last_snoc.
Qed.

(** ** Building a single node *)

Section SingleNode.
Context `{!Collaborators}.

Lemma bind_inv {A B} (m : M A) (f : A -> M B) s b s2 t :
  bind m f s = (Ok b, s2, t) ->
  exists a s1 t1 t2,
    m s = (Ok a, s1, t1) /\ f a s1 = (Ok b, s2, t2) /\ t = t1 ++ t2.
Proof.
  unfold bind. destruct (m s) as [[[a|e] s1] t1]; [|discriminate].
  destruct (f a s1) as [[r s2'] t2] eqn:Hf. intros Heq. inversion Heq; subst.
  by exists a, s1, t1, t2.
Qed.

Lemma ResolveGraph_single_node cl G0 TargetNames s G Triggers SingleNode s1 t :
  ResolveGraph cl G0 TargetNames s = (Ok (Some (G, Triggers, SingleNode)), s1, t) ->
  SingleNode = SingleNodeParam cl ≫= (fun SingleNodeName => NameToNode G !! SingleNodeName).
Proof.
  unfold ResolveGraph. intros Hrun.
  apply bind_inv in Hrun as ([TargetNodes|] & sa & ta & tb & _ & Hrun & _);
    [|discriminate].
  apply bind_inv in Hrun as ([Found|] & sb & tc & td & _ & Hrun & _);
    [|discriminate].
  destruct (SingleNodeParam cl) as [SingleNodeName|]; simpl.
  - destruct (NameToNode _ !! SingleNodeName) as [n|] eqn:Hn.
    + inversion Hrun; subst. by rewrite Hn.
    + discriminate.
  - by inversion Hrun.
Qed.

Lemma Prepare_single_node cl host s G Triggers SingleNode s1 Pre :
  Prepare cl host s = (Ok (Some (G, Triggers, SingleNode)), s1, Pre) ->
  SingleNode = SingleNodeParam cl ≫= (fun SingleNodeName => NameToNode G !! SingleNodeName).
Proof.
  unfold Prepare. intros Hrun.
  destruct (ScriptParam cl) as [ScriptFileName|]; [|discriminate].
  destruct (TargetParam cl) as [TargetNames|]; [|discriminate].
  apply bind_inv in Hrun as (Tasks & sa & ta & tb & _ & Hrun & _).
  destruct (negb (snd Tasks)); [discriminate|].
  apply bind_inv in Hrun as ([] & sb & tc & td & _ & Hrun & _).
  destruct (TryRead _ _ _) as [G0|]; [|discriminate].
  unfold PrepareGraph in Hrun.
  apply bind_inv in Hrun as ([] & sc & te & tf & _ & Hrun & _).
  by eapply ResolveGraph_single_node.
Qed.

Lemma SingleNodeRun_Forall (P : Event -> Prop) G n s r t :
  SingleNodeRun G n s r t ->
  P (EvBuildSingleNode n) ->
  (forall a b, P (EvRetreive a b)) ->
  (forall Tags b, P (EvNodeBuild n Tags b)) ->
  (forall a o Files b, P (EvArchive a o Files b)) ->
  P (EvMarkAsComplete (Name n)) ->
  Forall P t.
Proof.
  intros Hrun Henter Hret Hbuild Harch Hmark.
  assert (forall l, Forall IsRetreive l -> Forall P l) as Hfetch.
  { intros l Hl. eapply Forall_impl; [exact Hl|].
    intros []; simpl; try tauto. intros _. apply Hret. }
  assert (forall Tags R l, Forall P (map (ArchiveEvent n Tags R) l)) as Hpub.
  { intros Tags R l. apply Forall_forall.
    intros e (o & -> & _)%list_elem_of_fmap. apply Harch. }
  inversion Hrun as
    [e' s1 Fetched Hf|Tags s1 Fetched Hf Hb|e' Tags s1 Fetched Done Rest Hf Hb Hsplit Hrest
    |Tags s1 Fetched Hf Hb]; subst; apply FetchInputs_fetched in Hf;
    (constructor; [done|]).
  - by apply Hfetch.
  - apply Forall_app. split; [by apply Hfetch|]. by repeat constructor.
  - apply Forall_app. split; [by apply Hfetch|].
    constructor; [apply Hbuild|apply Hpub].
  - apply Forall_app. split; [by apply Hfetch|].
    constructor; [apply Hbuild|]. apply Forall_app. split; [apply Hpub|].
    by repeat constructor.
Qed.

End SingleNode.

(** C10, amended: when [Execute] runs with [-SingleNode=<name>], without
    [-ListOnly] and without [-Export=], and the name is that of a node of
    the culled graph, [BuildSingleNode] is called for that node as soon as
    the front of [Execute] is done, whatever the storage holds: there is no
    call of [IsComplete], of [CheckLocalIntegrity] or of [BuildAllNodes] in
    the run and nothing is cleaned after the front, and the build logic of
    the node is called when the manifests of its inputs are retrieved. *)
Theorem single_node_is_built_without_checks `{!Collaborators}
    (cl : CommandLine) (host : Host) (s s1 : TempStorage) (G : Graph)
    (Triggers : list ManualTrigger) (SingleNode : option Node)
    (Pre : list Event) (SingleNodeName : string) (n : Node) :
  Prepare cl host s = (Ok (Some (G, Triggers, SingleNode)), s1, Pre) ->
  SingleNodeParam cl = Some SingleNodeName ->
  NameToNode G !! SingleNodeName = Some n ->
  ListOnlyParam cl = false ->
  ExportParam cl = None ->
  TraceOf (Execute cl host s) = Pre ++ TraceOf (BuildSingleNode G n s1)
  /\ EvBuildSingleNode n ∈ TraceOf (Execute cl host s)
  /\ Forall (fun e => ¬ IsCompletenessCheck e /\ e ≠ EvBuildAllNodes)
            (TraceOf (Execute cl host s))
  /\ Forall (fun e => forall NodeName, e ≠ EvCleanLocalNode NodeName)
            (TraceOf (BuildSingleNode G n s1))
  /\ (forall Tags s2 t2,
        FetchInputs G (InputNames n) (SeedTagNames G) s1 = (Ok Tags, s2, t2) ->
        exists b,
          EvNodeBuild n (AddPlaceholders (OutputNames n) Tags) b
          ∈ TraceOf (Execute cl host s)).
Proof.
  intros Hprep Hparam Hnode Hlist Hexport.
  pose proof (Prepare_single_node _ _ _ _ _ _ _ _ Hprep) as Hsingle.
  rewrite Hparam in Hsingle. simpl in Hsingle. rewrite Hnode in Hsingle.
  subst SingleNode.
  destruct (Execute_run cl host s) as (Ready & s1' & Pre' & Hprep' & Hfront & Hrun).
  rewrite Hprep in Hprep'. inversion Hprep'; subst Ready s1' Pre'.
  assert (TraceOf (Execute cl host s) = Pre ++ TraceOf (BuildSingleNode G n s1))
    as Htrace.
  { rewrite Hrun. unfold TraceOf at 1. simpl. f_equal.
    unfold ExecuteCommand. rewrite Hlist, Hexport.
    destruct (BuildSingleNode G n s1) as [[[b|e] s2] t2] eqn:Hb.
    - rewrite (bind_ok _ _ _ _ _ _ Hb). unfold TraceOf, ret. simpl.
      by rewrite app_nil_r.
    - by rewrite (bind_raise _ _ _ _ _ _ Hb). }
  pose proof (BuildSingleNode_run G n s1) as Hshape.
  split; [exact Htrace|]. rewrite Htrace. split; [|split; [|split]].
  - apply elem_of_app. right. unfold BuildSingleNode. rewrite emit_bind. left.
  - apply Forall_app. split.
    + eapply Forall_impl; [exact Hfront|]. intros []; simpl; try tauto.
      all: intros _; split; [tauto|discriminate].
    + eapply SingleNodeRun_Forall; [exact Hshape|..]; simpl; intros;
        (split; [tauto|discriminate]).
  - eapply SingleNodeRun_Forall; [exact Hshape|..]; simpl; intros; discriminate.
  - intros Tags s2 t2 Hf.
    exists (fst (NodeBuild n (AddPlaceholders (OutputNames n) Tags))).
    apply elem_of_app. right.
    destruct (BuildSingleNode G n s1) as [[r s'] t] eqn:Hb'.
    unfold ResultOf, TraceOf in Hshape |- *. simpl in Hshape |- *.
    inversion Hshape as
      [e' s3 Fetched Hf'|Tags' s3 Fetched Hf' Hb|e' Tags' s3 Fetched Done Rest Hf' Hb Hsplit Hrest
      |Tags' s3 Fetched Hf' Hb];
      rewrite Hf in Hf'; inversion Hf'; subst; rewrite Hb; right;
      apply elem_of_app; right; left.
Qed.

(** ** The engine on the sample graph *)


Lemma not_cleaned_by_computation (x : nat) (X : gset nat) :
  bool_decide (x ∈ X) = false -> x ∉ X.
Proof. apply bool_decide_eq_false. Qed.

(** [Compile] is complete and intact: building the graph checks its
    integrity and does not build it again. *)
Lemma complete_node_is_not_rebuilt_witness :
  Forall (fun e => ¬ BuildsNode Sample.Compile e)
         (TraceOf (@BuildAllNodes Sample.Plain Sample.TheGraph Sample.CompileDone))
  /\ EvCheckLocalIntegrity "Compile" ["ObjFiles"; "Debug"] true
     ∈ TraceOf (@BuildAllNodes Sample.Plain Sample.TheGraph Sample.CompileDone).
Proof.
  destruct (@complete_node_is_not_rebuilt Sample.Plain Sample.TheGraph
              Sample.CompileDone Sample.Compile) as (Hskip & _ & Hchecked).
  - intros m Hm. vm_compute in Hm.
    repeat (apply elem_of_cons in Hm as [->|Hm]); [..|by apply elem_of_nil in Hm];
      intros [Heq|Heq]; first [reflexivity|discriminate Heq].
  - vm_compute. reflexivity.
  - intros b Hb. vm_compute in Hb.
    repeat (apply elem_of_cons in Hb as [Hb|Hb];
            [first [discriminate Hb | by injection Hb]|]).
    by apply elem_of_nil in Hb.
  - intros d Hd. by apply elem_of_nil in Hd.
  - split; [exact Hskip|]. apply Hchecked. vm_compute. left.
Defined.


(** The build logic of [Package] fails: [Publish] is not looked at and the
    command fails. *)
Lemma BuildAllNodes_fails_fast_witness :
  ResultOf (@BuildAllNodes (Sample.Tools (Sample.WriteOutputs ["Package"]) [])
              Sample.TheGraph Sample.EmptyStorage) = Ok false
  /\ ResultOf (@Execute (Sample.Tools (Sample.WriteOutputs ["Package"]) [])
                 (Sample.Args "Publish") Sample.TheHost Sample.EmptyStorage)
     = Ok Error_Unknown.
Proof.
  set (X := Sample.Tools (Sample.WriteOutputs ["Package"]) []).
  split.
  - set (s0 := StorageOf (@IntegrityPass X (AllNodes Sample.TheGraph) ∅
                            Sample.EmptyStorage)).
    set (before := @ExecuteInOrder X Sample.TheGraph
                     (List.length (AllNodes Sample.TheGraph)) 0
                     [Sample.Compile] s0).
    rewrite (proj1 (@BuildAllNodes_fails_fast X) Sample.TheGraph
               Sample.EmptyStorage (StorageOf before) [Sample.Compile]
               [Sample.Publish] Sample.Package (TraceOf before)).
    + reflexivity.
    + vm_compute. reflexivity.
    + vm_compute. reflexivity.
    + vm_compute. reflexivity.
    + vm_compute. reflexivity.
  - set (run := @Execute X (Sample.Args "Publish") Sample.TheHost
                  Sample.EmptyStorage).
    apply (proj2 (@BuildAllNodes_fails_fast X) (Sample.Args "Publish")
             Sample.TheHost Sample.EmptyStorage (removelast (TraceOf run)) []
             Sample.Package
             (<["Archive" := Some ∅]>
                (<["ObjFiles" := Some {[ "/Compile/ObjFiles" ]}]>
                   (SeedTagNames (Sample.SelectNodes Sample.TheGraph
                                    [Sample.Publish]))))).
    vm_compute. reflexivity.
Defined.

(** An unknown target, an unknown trigger and a task element with two
    handlers. *)
Lemma configuration_errors_are_fatal_witness :
  ResultOf (@Execute Sample.Plain (Sample.Args "Nowhere") Sample.TheHost
              Sample.EmptyStorage) = Ok Error_Unknown
  /\ ResultOf (@Execute Sample.Plain (Sample.TriggerArgs "Package" "Nightly")
                 Sample.TheHost Sample.EmptyStorage) = Ok Error_Unknown
  /\ ResultOf (@Execute Sample.Plain (Sample.Args "Package") Sample.ClashingHost
                 Sample.EmptyStorage) = Ok Error_Unknown.
Proof.
  set (Tasks := ({[ "Copy" := MkScriptTask "Copy" "CopyTask" "CopyTaskParameters";
                    "Log" := MkScriptTask "Log" "LogTask" "LogTaskParameters" ]}
                 : gmap string ScriptTask)).
  split; [|split].
  - apply (@configuration_errors_are_fatal Sample.Plain (Sample.Args "Nowhere")
             Sample.TheHost Sample.EmptyStorage (TargetNotInGraph "Nowhere")).
    apply (UnknownTarget _ _ _ "Build.xml" "Nowhere" Tasks Sample.TheGraph).
    + reflexivity.
    + reflexivity.
    + vm_compute. reflexivity.
    + vm_compute. reflexivity.
    + vm_compute. left.
    + vm_compute. reflexivity.
  - apply (@configuration_errors_are_fatal Sample.Plain
             (Sample.TriggerArgs "Package" "Nightly")
             Sample.TheHost Sample.EmptyStorage (TriggerNotFound "Nightly")).
    apply (UnknownTrigger _ _ _ "Build.xml" "Package" Tasks Sample.TheGraph
             [Sample.Package]).
    + reflexivity.
    + reflexivity.
    + vm_compute. reflexivity.
    + vm_compute. reflexivity.
    + vm_compute. reflexivity.
    + vm_compute. left.
    + vm_compute. reflexivity.
  - apply (@configuration_errors_are_fatal Sample.Plain (Sample.Args "Package")
             Sample.ClashingHost Sample.EmptyStorage (MultipleHandlers "Copy")).
    apply (DuplicateHandler _ _ _ "Build.xml" "Package").
    + reflexivity.
    + reflexivity.
    + exists [], [], []. vm_compute. reflexivity.
Defined.

(** [Compile] is complete in the local cache and is built all the same
    when it is the single node. *)
Lemma single_node_is_built_without_checks_witness :
  ResultOf (IsComplete "Compile" Sample.CompileDone) = Ok true
  /\ EvBuildSingleNode Sample.Compile
     ∈ TraceOf (@Execute Sample.Plain (Sample.SingleNodeArgs false)
                  Sample.TheHost Sample.CompileDone).
Proof.
  split; [vm_compute; reflexivity|].
  set (ready := @Prepare Sample.Plain (Sample.SingleNodeArgs false)
                  Sample.TheHost Sample.CompileDone).
  apply (@single_node_is_built_without_checks Sample.Plain
           (Sample.SingleNodeArgs false) Sample.TheHost Sample.CompileDone
           (StorageOf ready)
           (Sample.SelectNodes Sample.TheGraph [Sample.Package])
           [] (Some Sample.Compile) [] "Compile" Sample.Compile).
  - vm_compute. reflexivity.
  - reflexivity.
  - vm_compute. reflexivity.
  - reflexivity.
  - reflexivity.
Defined.

(** C10, as stated, fails with [-ListOnly]: the node of
    [-SingleNode=Compile] is in the culled graph and [BuildSingleNode] is
    not called; [Execute] only looks for the completed nodes and prints the
    graph. *)
Lemma single_node_is_not_built_when_listing :
  SingleNodeParam (Sample.SingleNodeArgs true) = Some "Compile"
  /\ (exists G Triggers s1 Pre,
        @Prepare Sample.Plain (Sample.SingleNodeArgs true) Sample.TheHost
          Sample.EmptyStorage
        = (Ok (Some (G, Triggers, Some Sample.Compile)), s1, Pre)
        /\ NameToNode G !! "Compile" = Some Sample.Compile)
  /\ @Execute Sample.Plain (Sample.SingleNodeArgs true) Sample.TheHost
       Sample.EmptyStorage
     = (Ok Success, Sample.EmptyStorage,
        [EvIsComplete "Compile" false; EvIsComplete "Package" false;
         EvPrint [] false false]).
Proof.
  split; [reflexivity|]. split.
  - exists (Sample.SelectNodes Sample.TheGraph [Sample.Package]), [],
           Sample.EmptyStorage, [].
    split; vm_compute; reflexivity.
  - vm_compute. reflexivity.
Qed.

(** The build of [Package] from a cache in which [Compile] is complete ends
    with the marker of [Package], after its output was archived. *)
Lemma MarkAsComplete_after_every_Archive_witness :
  exists Before Files bPush,
    TraceOf (@BuildSingleNode Sample.Plain Sample.TheGraph Sample.Package
               Sample.CompileDone)
    = Before ++ [EvMarkAsComplete "Package"]
    /\ EvArchive "Package" "Archive" Files bPush ∈ Before.
Proof.
  set (run := @BuildSingleNode Sample.Plain Sample.TheGraph Sample.Package
                Sample.CompileDone).
  assert (TraceOf run
          = removelast (TraceOf run) ++ EvMarkAsComplete "Package" :: [])
    as Heq by (vm_compute; reflexivity).
  destruct (proj1 (@MarkAsComplete_after_every_Archive Sample.Plain
                     Sample.TheGraph Sample.Package Sample.CompileDone)
              _ _ _ Heq) as (_ & _ & _ & _ & Harchived).
  destruct (Harchived "Archive") as (Files & bPush & Hin).
  { simpl. left. }
  exists (removelast (TraceOf run)), Files, bPush. split; [exact Heq|exact Hin].
Defined.

(** [Package] is built from a cache in which [Compile] is complete: its
    output [Archive], which [Publish] consumes on another agent, is
    archived with the files that the build logic wrote and is pushed. *)
Lemma pushed_iff_consumed_outside_scope_witness :
  ResultOf (@BuildSingleNode Sample.Plain Sample.TheGraph Sample.Package
              Sample.CompileDone) = Ok true
  /\ EvArchive "Package" "Archive" {[ "/Package/Archive" ]} true
     ∈ TraceOf (@BuildSingleNode Sample.Plain Sample.TheGraph Sample.Package
                  Sample.CompileDone)
  /\ ConsumedOutsideScope Sample.TheGraph Sample.Package "Archive".
Proof.
  destruct (@pushed_iff_consumed_outside_scope Sample.Plain Sample.TheGraph
              Sample.Package Sample.CompileDone) as (Hbuilt & _ & Hflags).
  destruct Hbuilt as (Tags & _ & Harchived).
  { intros i Hi. apply list_elem_of_singleton in Hi as ->.
    exists Sample.Compile, ["Compile/ObjFiles"]. split; vm_compute; reflexivity. }
  destruct Harchived as (Hresult & Hall).
  { reflexivity. }
  { intros o Ho. apply list_elem_of_singleton in Ho as ->.
    eexists. simpl. apply lookup_insert_eq. }
  destruct (Hall "Archive") as (Files & bPush & HFiles & Hin & Hiff); [left|].
  simpl in HFiles. rewrite lookup_insert_eq in HFiles.
  injection HFiles as <-.
  destruct (Hflags _ _ _ _ Hin) as (_ & _ & Hpush).
  assert (Hconsumed : ConsumedOutsideScope Sample.TheGraph Sample.Package "Archive").
  { exists Sample.PublishAgent, Sample.Publish.
    split; [right; left|]. split; [left|]. split; [left|]. left.
    intros m Hm. apply list_elem_of_singleton in Hm as ->. discriminate. }
  split; [exact Hresult|]. split; [|exact Hconsumed].
  by rewrite (proj2 Hpush Hconsumed) in Hin.
Defined.

(** The build logic of [Package] is called with the files of the manifest
    of [ObjFiles], an empty set for [Archive] and no set for
    [Published]. *)
Lemma tag_map_passed_to_build_witness :
  exists Tags : TagMap,
    EvNodeBuild Sample.Package Tags true
    ∈ TraceOf (@BuildSingleNode Sample.Plain Sample.TheGraph Sample.Package
                 Sample.CompileDone)
    /\ Tags !! "ObjFiles" = Some (Some {[ "/Compile/ObjFiles" ]})
    /\ Tags !! "Archive" = Some (Some ∅)
    /\ Tags !! "Published" = Some None.
Proof.
  destruct (@tag_map_passed_to_build Sample.Plain Sample.TheGraph
              Sample.Package Sample.CompileDone) as (Hcalled & Hmap).
  destruct Hcalled as (Tags & Hev).
  { intros i Hi. apply list_elem_of_singleton in Hi as ->.
    exists Sample.Compile, ["Compile/ObjFiles"]. split; vm_compute; reflexivity. }
  destruct (Hmap _ _ _ Hev) as (_ & _ & _ & Hall & Hinputs & Houtputs).
  exists Tags. split; [exact Hev|]. split; [|split].
  - destruct (Hinputs "ObjFiles") as (P & Manifest & HP & HM & Hl); [left|].
    vm_compute in HP, HM. inversion HP; subst P. inversion HM; subst Manifest.
    rewrite Hl; [vm_compute; reflexivity|].
    simpl. intros Hin. apply list_elem_of_singleton in Hin. discriminate.
  - apply Houtputs. left.
  - apply (Hall "Published").
    + vm_compute. do 3 right. left.
    + simpl. intros Hin. apply list_elem_of_singleton in Hin. discriminate.
    + simpl. intros Hin. apply list_elem_of_singleton in Hin. discriminate.
Defined.

(** ** Triggers *)

Section Triggers.
Context `{!Collaborators}.

Lemma ManualTrigger_induction (P : ManualTrigger -> Prop) :
  (forall r n, P (MkTrigger r n None)) ->
  (forall r n Up, P Up -> P (MkTrigger r n (Some Up))) ->
  forall t, P t.
Proof.
  intros Hroot Hchild. fix IH 1. intros [r n [Up|]].
  - apply Hchild, IH.
  - apply Hroot.
Qed.

Lemma AddTrigger_active Triggers t x :
  Active (AddTrigger Triggers t) x
  <-> Active Triggers x \/ TriggerRef x = TriggerRef t.
Proof.
  unfold AddTrigger, Active.
  destruct (existsb _ Triggers) eqn:Hin.
  - split; [by left|]. intros [H'|Heq]; [done|].
    apply existsb_exists in Hin as (y & Hy & Href).
    apply bool_decide_eq_true in Href. exists y.
    split; [by apply list_elem_of_In|congruence].
  - split.
    + intros (y & [Hy|Hy]%elem_of_app & Href); [left; by exists y|].
      apply list_elem_of_singleton in Hy. subst y. by right.
    + intros [(y & Hy & Href)|Heq].
      * exists y. split; [apply elem_of_app; by left|done].
      * exists t. split; [apply elem_of_app; right; left|done].
Qed.

Lemma AddWithUpstream_active t :
  forall Triggers x,
  Active (AddWithUpstream t Triggers) x
  <-> Active Triggers x
      \/ exists a, a ∈ t :: Ancestors t /\ TriggerRef x = TriggerRef a.
Proof.
  induction t as [r n|r n Up IH] using ManualTrigger_induction;
    intros Triggers x; simpl.
  - rewrite AddTrigger_active. split.
    + intros [?|Heq]; [by left|]. right. eexists. split; [left|done].
    + intros [?|(a & Ha & Heq)]; [by left|]. right.
      apply list_elem_of_singleton in Ha. by subst a.
  - rewrite IH, AddTrigger_active. split.
    + intros [[?|Heq]|(a & Ha & Heq)]; [by left|..].
      * right. eexists. split; [left|done].
      * right. exists a. split; [by right|done].
    + intros [?|(a & [->|Ha]%elem_of_cons & Heq)].
      * left. by left.
      * left. by right.
      * right. by exists a.
Qed.

(** The set of active triggers that [Execute] computes is closed upward:
    it holds every trigger that is named with [-Trigger=], and with it all
    the triggers above it. *)
Lemma active_triggers_closed_upward G Names :
  forall Triggers0 Triggers s s' t,
  FindTriggers G Names Triggers0 s = (Ok (Some Triggers), s', t) ->
  (forall x, Active Triggers0 x -> Active Triggers x)
  /\ forall TriggerName, TriggerName ∈ Names ->
       exists Trigger,
         NameToTrigger G !! TriggerName = Some Trigger
         /\ forall a, a ∈ Trigger :: Ancestors Trigger -> Active Triggers a.
Proof.
  induction Names as [|nm Names IH]; intros Triggers0 Triggers s s' t Hrun;
    simpl in Hrun.
  - inversion Hrun; subst. split; [done|].
    intros x Hx. by apply elem_of_nil in Hx.
  - destruct (NameToTrigger G !! nm) as [Trigger|] eqn:Hnm; [|discriminate].
    destruct (IH _ _ _ _ _ Hrun) as [Hmono Hnames]. split.
    + intros x Hx. apply Hmono, AddWithUpstream_active. by left.
    + intros y [->|Hy]%elem_of_cons; [|by apply Hnames].
      exists Trigger. split; [done|]. intros a Ha.
      apply Hmono, AddWithUpstream_active. right. by exists a.
Qed.

(** With [-SkipTriggers], every trigger of the graph is active. *)
Lemma UnionWithTriggers_active Other :
  forall Triggers x,
  Active (UnionWithTriggers Triggers Other) x
  <-> Active Triggers x \/ exists a, a ∈ Other /\ TriggerRef x = TriggerRef a.
Proof.
  unfold UnionWithTriggers.
  induction Other as [|o Other IH]; intros Triggers x; simpl.
  - split; [by left|]. intros [?|(a & Ha & _)]; [done|].
    by apply elem_of_nil in Ha.
  - rewrite IH, AddTrigger_active. split.
    + intros [[?|Heq]|(a & Ha & Heq)]; [by left|..].
      * right. exists o. split; [left|done].
      * right. exists a. split; [by right|done].
    + intros [?|(a & [->|Ha]%elem_of_cons & Heq)].
      * left. by left.
      * left. by right.
      * right. by exists a.
Qed.

End Triggers.

(** C1: [BuildSingleNode] does not check the ownership of the files that
    the build logic produced.  The build logic of [Compile] writes the file
    [/a.obj] to both of its outputs [ObjFiles] and [Debug]; the run archives
    both outputs, marks the node as complete and returns [true], although
    [FindFileToOutputNameMapping] returns [false] on the tag map that the
    build logic left. *)
Lemma ambiguous_output_is_archived :
  let X := Sample.Tools Sample.WriteSameFile [] in
  let Tags : TagMap :=
    AddPlaceholders ["ObjFiles"; "Debug"] (SeedTagNames Sample.TheGraph) in
  let run := @BuildSingleNode X Sample.TheGraph Sample.Compile
               Sample.EmptyStorage in
  ResultOf run = Ok true
  /\ TraceOf run
     = [EvBuildSingleNode Sample.Compile;
        EvNodeBuild Sample.Compile Tags true;
        EvArchive "Compile" "ObjFiles" {[ "/a.obj" ]} false;
        EvArchive "Compile" "Debug" {[ "/a.obj" ]} false;
        EvMarkAsComplete "Compile"]
  /\ ResultOf (IsComplete "Compile" (StorageOf run)) = Ok true
  /\ @FindFileToOutputNameMapping X Sample.Compile
       (snd (Sample.WriteSameFile Sample.Compile Tags)) ∅ Sample.EmptyStorage
     = (Ok ({[ "/a.obj" := "ObjFiles" ]}, false), Sample.EmptyStorage,
        [EvLogError (AddedToMultipleOutputs "a.obj" "ObjFiles" "Debug")]).
Proof. repeat split; vm_compute; reflexivity. Qed.

(** C4: the engine does not gate nodes on their trigger.  No trigger is
    requested, so that the set of active triggers is empty; the node
    [Publish] is behind the trigger [QA], and [Execute] builds it. *)
Lemma node_behind_inactive_trigger_is_built :
  let run := @Execute Sample.Plain (Sample.Args "Publish") Sample.TheHost
               Sample.EmptyStorage in
  (exists G s1 Pre,
      @Prepare Sample.Plain (Sample.Args "Publish") Sample.TheHost
        Sample.EmptyStorage = (Ok (Some (G, [], None)), s1, Pre))
  /\ ControllingTrigger Sample.Publish = Some Sample.QA
  /\ ResultOf run = Ok Success
  /\ TraceOf run !! 25 = Some (EvBuildSingleNode Sample.Publish)
  /\ exists Tags, TraceOf run !! 27 = Some (EvNodeBuild Sample.Publish Tags true).
Proof.
  split; [|split; [|split; [|split]]].
  - exists (Sample.SelectNodes Sample.TheGraph [Sample.Publish]),
           Sample.EmptyStorage, [].
    vm_compute. reflexivity.
  - reflexivity.
  - vm_compute. reflexivity.
  - vm_compute. reflexivity.
  - eexists. vm_compute. reflexivity.
Qed.

(** ** Further properties of the engine *)

Section ActiveTriggers.
Context `{!Collaborators}.

Lemma FindTriggers_active G Names :
  forall Triggers0 Triggers s s' t x,
  FindTriggers G Names Triggers0 s = (Ok (Some Triggers), s', t) ->
  Active Triggers x
  <-> Active Triggers0 x
      \/ exists TriggerName Trigger a,
           TriggerName ∈ Names
           /\ NameToTrigger G !! TriggerName = Some Trigger
           /\ a ∈ Trigger :: Ancestors Trigger
           /\ TriggerRef x = TriggerRef a.
Proof.
  induction Names as [|nm Names IH]; intros Triggers0 Triggers s s' t x Hrun;
    simpl in Hrun.
  - inversion Hrun; subst. split; [by left|].
    intros [?|(y & _ & _ & Hy & _)]; [done|]. by apply elem_of_nil in Hy.
  - destruct (NameToTrigger G !! nm) as [Trigger|] eqn:Hnm; [|discriminate].
    rewrite (IH _ _ _ _ _ x Hrun), AddWithUpstream_active. split.
    + intros [[?|(a & Ha & Heq)]|(y & T & a & Hy & HT & Ha & Heq)].
      * by left.
      * right. exists nm, Trigger, a. split; [left|done].
      * right. exists y, T, a. split; [by right|done].
    + intros [?|(y & T & a & [->|Hy]%elem_of_cons & HT & Ha & Heq)].
      * left. by left.
      * left. right. exists a. split; [congruence|done].
      * right. by exists y, T, a.
Qed.

(** X15: The triggers that [Execute] finds active from [-Trigger=] are exactly
    the triggers named there and the triggers above them. *)
Theorem active_triggers_are_named_or_upstream G Names Triggers s s' t x :
  FindTriggers G Names [] s = (Ok (Some Triggers), s', t) ->
  Active Triggers x
  <-> exists TriggerName Trigger a,
        TriggerName ∈ Names
        /\ NameToTrigger G !! TriggerName = Some Trigger
        /\ a ∈ Trigger :: Ancestors Trigger
        /\ TriggerRef x = TriggerRef a.
Proof.
  intros Hrun. rewrite (FindTriggers_active _ _ _ _ _ _ _ x Hrun). split.
  - intros [(y & Hy & _)|?]; [|done]. by apply elem_of_nil in Hy.
  - by right.
Qed.

End ActiveTriggers.

Lemma active_triggers_are_named_or_upstream_witness :
  Active [Sample.Release; Sample.QA] Sample.QA.
Proof.
  apply (active_triggers_are_named_or_upstream Sample.TheGraph
           ["Release"] [Sample.Release; Sample.QA] Sample.EmptyStorage
           Sample.EmptyStorage [] Sample.QA).
  - vm_compute. reflexivity.
  - exists "Release", Sample.Release, Sample.QA.
    split; [left|]. split; [vm_compute; reflexivity|].
    split; [right; left|reflexivity].
Defined.
Section CompletedNodes.
Context `{!Collaborators}.

Lemma AddNode_contains Set_ n x :
  ContainsNode (AddNode Set_ n) x = true
  <-> ContainsNode Set_ x = true \/ NodeRef n = NodeRef x.
Proof.
  unfold AddNode. destruct (ContainsNode Set_ n) eqn:Hn.
  - split; [by left|]. intros [?|Heq]; [done|].
    apply ContainsNode_true in Hn as (m & Hm & Hr).
    apply ContainsNode_true. exists m. split; [done|congruence].
  - rewrite !ContainsNode_true. split.
    + intros (m & [Hm|Hm]%elem_of_app & Hr); [left; by exists m|].
      apply list_elem_of_singleton in Hm. subst m. by right.
    + intros [(m & Hm & Hr)|Heq].
      * exists m. split; [apply elem_of_app; by left|done].
      * exists n. split; [apply elem_of_app; right; left|done].
Qed.

Lemma AddNode_NoDup Set_ n :
  NoDup (map NodeRef Set_) -> NoDup (map NodeRef (AddNode Set_ n)).
Proof.
  intros Hnd. unfold AddNode. destruct (ContainsNode Set_ n) eqn:Hn; [done|].
  rewrite map_app. apply NoDup_app. split; [done|]. split.
  - intros r Hr Hr'. apply list_elem_of_singleton in Hr'. subst r.
    apply list_elem_of_fmap in Hr as (m & Heq & Hm).
    apply (proj1 (ContainsNode_false _ _) Hn m Hm). done.
  - apply NoDup_singleton.
Qed.

Lemma CollectCompleted_spec l :
  forall Completed s,
  exists Completed',
    CollectCompleted l Completed s
    = (Ok Completed', s, map (CompletionCheck s) l)
    /\ (forall n, ContainsNode Completed' n = true
                  <-> ContainsNode Completed n = true
                      \/ exists m, m ∈ l /\ NodeRef m = NodeRef n
                                   /\ Name m ∈ CompleteMarkers s)
    /\ (NoDup (map NodeRef Completed) -> NoDup (map NodeRef Completed')).
Proof.
  induction l as [|n l IH]; intros Completed s; simpl.
  - exists Completed. split; [done|]. split; [|done].
    intros x. split; [by left|]. intros [?|(m & Hm & _)]; [done|].
    by apply elem_of_nil in Hm.
  - rewrite (bind_ok _ _ _ _ _ _ (IsComplete_run _ _)).
    destruct (IH (if bool_decide (Name n ∈ CompleteMarkers s)
                  then AddNode Completed n else Completed) s)
      as (C' & Hrun & Hin & Hnd).
    rewrite Hrun. unfold ResultOf, StorageOf, TraceOf. simpl.
    exists C'. split; [done|]. split.
    + intros x. rewrite Hin. destruct (bool_decide_reflect (Name n ∈ CompleteMarkers s))
        as [Hc|Hc].
      * rewrite AddNode_contains. split.
        -- intros [[?|Heq]|(m & Hm & Hr & Hmk)]; [by left|..].
           ++ right. exists n. split; [left|done].
           ++ right. exists m. split; [by right|done].
        -- intros [?|(m & [->|Hm]%elem_of_cons & Hr & Hmk)].
           ++ left. by left.
           ++ left. by right.
           ++ right. by exists m.
      * split.
        -- intros [?|(m & Hm & Hr & Hmk)]; [by left|].
           right. exists m. split; [by right|done].
        -- intros [?|(m & [->|Hm]%elem_of_cons & Hr & Hmk)]; [by left|done|].
           right. by exists m.
    + intros Hc. apply Hnd. destruct (bool_decide _); [|done].
      by apply AddNode_NoDup.
Qed.

(** X16: [FindCompletedNodes] asks the storage once for every node of the
    graph, in order, and changes nothing.  The set it returns holds each
    node at most once, and holds a node exactly when the graph has it and
    the storage reports it complete. *)
Theorem FindCompletedNodes_finds_the_complete_nodes G s :
  exists CompletedNodes,
    FindCompletedNodes G s
    = (Ok CompletedNodes, s, map (CompletionCheck s) (AllNodes G))
    /\ NoDup (map NodeRef CompletedNodes)
    /\ forall n,
         ContainsNode CompletedNodes n = true
         <-> exists m, m ∈ AllNodes G /\ NodeRef m = NodeRef n
                       /\ Name m ∈ CompleteMarkers s.
Proof.
  destruct (CollectCompleted_spec (AllNodes G) [] s) as (C & Hrun & Hin & Hnd).
  exists C. split; [exact Hrun|]. split; [apply Hnd; constructor|].
  intros n. rewrite Hin. split; [|by right].
  intros [Hc|?]; [discriminate|done].
Qed.

(** ** Nodes that are built are complete *)

Lemma BuildSingleNode_marks G n s :
  ResultOf (BuildSingleNode G n s) = Ok true ->
  Name n ∈ CompleteMarkers (StorageOf (BuildSingleNode G n s)).
Proof.
  destruct (BuildSingleNode G n s) as [[r s'] t] eqn:Hrun.
  unfold ResultOf, StorageOf. simpl. intros ->.
  unfold BuildSingleNode in Hrun.
  apply bind_inv in Hrun as ([] & sa & ta & tb & _ & Hrun & _).
  apply bind_inv in Hrun as (Tags & sb & tc & td & _ & Hrun & _).
  cbv zeta in Hrun.
  apply bind_inv in Hrun as ([] & sc & te & tf & _ & Hrun & _).
  destruct (negb _); [discriminate|].
  apply bind_inv in Hrun as ([] & sd & tg & th & _ & Hrun & _).
  apply bind_inv in Hrun as ([] & se & ti & tj & Hmark & Hrun & _).
  inversion Hrun; subst.
  unfold MarkAsComplete, bind, get, emit, put, ret in Hmark. simpl in Hmark.
  inversion Hmark; subst. simpl. set_solver.
Qed.

Lemma ExecuteInOrder_completes G Total l :
  forall idx s,
  ResultOf (ExecuteInOrder G Total idx l s) = Ok true ->
  CompleteMarkers s ⊆ CompleteMarkers (StorageOf (ExecuteInOrder G Total idx l s))
  /\ forall n, n ∈ l ->
       Name n ∈ CompleteMarkers (StorageOf (ExecuteInOrder G Total idx l s)).
Proof.
  induction l as [|n l IH]; intros idx s.
  - simpl. intros _. split; [done|]. intros n Hn. by apply elem_of_nil in Hn.
  - rewrite ExecuteInOrder_cons.
    destruct (bool_decide_reflect (Name n ∈ CompleteMarkers s)) as [Hc|Hc];
      cbv zeta.
    + unfold ResultOf at 1, StorageOf at 1 2. simpl. intros Hr.
      destruct (IH _ _ Hr) as [Hsub Hall]. split; [done|].
      intros m [->|Hm]%elem_of_cons; [by apply Hsub|by apply Hall].
    + pose proof (BuildSingleNode_marks G n s) as Hmark.
      pose proof (BuildSingleNode_markers G n s) as Hkeep.
      destruct (ResultOf (BuildSingleNode G n s)) as [[]|e];
        unfold ResultOf at 1, StorageOf at 1 2; simpl; try discriminate.
      intros Hr. destruct (IH _ _ Hr) as [Hsub Hall]. split.
      * set_solver.
      * intros m [->|Hm]%elem_of_cons; [|by apply Hall].
        apply Hsub, Hmark. done.
Qed.

(** X17: When [BuildAllNodes] returns [true], every node of the graph is marked
    as complete in the storage that it leaves. *)
Theorem BuildAllNodes_leaves_every_node_complete G s n :
  ResultOf (BuildAllNodes G s) = Ok true ->
  n ∈ AllNodes G ->
  Name n ∈ CompleteMarkers (StorageOf (BuildAllNodes G s)).
Proof.
  unfold BuildAllNodes. rewrite emit_bind.
  destruct (IntegrityPass_inv (AllNodes G) ∅ s)
    as (C & s' & t & Hrun & _).
  rewrite (then_ok _ _ _ _ _ _ Hrun).
  unfold ResultOf at 1, StorageOf at 1. simpl.
  unfold ResultOf at 1, StorageOf at 1. simpl.
  intros Hr Hn. by apply (ExecuteInOrder_completes _ _ _ _ _ Hr).
Qed.

(** ** Inputs that are missing *)

Lemma FetchInputs_missing G Inputs :
  forall Tags s,
  (exists i, i ∈ Inputs /\ InputIsMissing G s i) ->
  exists e, ResultOf (FetchInputs G Inputs Tags s) = Raise e.
Proof.
  induction Inputs as [|i Inputs IH]; intros Tags s (j & Hj & Hmiss).
  - by apply elem_of_nil in Hj.
  - simpl. destruct (OutputNameToNode G !! i) as [P|] eqn:HP; [|by eexists].
    pose proof (Retreive_run (Name P) i s) as HR.
    destruct (StoredManifest s (Name P) i) as [m|] eqn:Hm.
    + destruct HR as (s1 & HR & Hkeep & _).
      rewrite (bind_ok _ _ _ _ _ _ HR). unfold ResultOf at 1. simpl.
      apply elem_of_cons in Hj as [->|Hj].
      { unfold InputIsMissing in Hmiss. rewrite HP in Hmiss. congruence. }
      apply IH. exists j. split; [done|].
      unfold InputIsMissing in *.
      destruct (OutputNameToNode G !! j); [|done]. by rewrite Hkeep.
    + rewrite (bind_raise _ _ _ _ _ _ HR). by eexists.
Qed.

(** X18: When an input of the node has no producer in the graph, or no manifest
    in the storage, [BuildSingleNode] throws: it only retrieves manifests,
    never calls the build logic, archives nothing and does not mark the
    node as complete. *)
Theorem missing_input_stops_the_build G n s :
  (exists i, i ∈ InputNames n /\ InputIsMissing G s i) ->
  (exists e, ResultOf (BuildSingleNode G n s) = Raise e)
  /\ (exists Fetched,
        TraceOf (BuildSingleNode G n s) = EvBuildSingleNode n :: Fetched
        /\ Forall IsRetreive Fetched)
  /\ CompleteMarkers (StorageOf (BuildSingleNode G n s)) = CompleteMarkers s.
Proof.
  intros Hmiss.
  destruct (FetchInputs_missing G (InputNames n) (SeedTagNames G) s Hmiss)
    as [e He].
  pose proof (FetchInputs_trace G (InputNames n) (SeedTagNames G) s) as Ht.
  pose proof (FetchInputs_markers G (InputNames n) (SeedTagNames G) s) as Hm.
  unfold BuildSingleNode. rewrite emit_bind.
  destruct (FetchInputs G (InputNames n) (SeedTagNames G) s)
    as [[r s1] Fetched] eqn:Hf.
  unfold ResultOf in He. unfold TraceOf in Ht. unfold StorageOf in Hm.
  simpl in He, Ht, Hm. subst r.
  rewrite (bind_raise _ _ _ _ _ _ Hf).
  unfold ResultOf, TraceOf, StorageOf. simpl.
  split; [by exists e|]. split; [by exists Fetched|done].
Qed.

End CompletedNodes.

Lemma BuildAllNodes_leaves_every_node_complete_witness :
  "Publish" ∈ CompleteMarkers
                (StorageOf (@BuildAllNodes Sample.Plain Sample.TheGraph
                              Sample.EmptyStorage)).
Proof.
  apply (@BuildAllNodes_leaves_every_node_complete Sample.Plain Sample.TheGraph
           Sample.EmptyStorage Sample.Publish).
  - vm_compute. reflexivity.
  - vm_compute. do 2 right. left.
Defined.

Lemma missing_input_stops_the_build_witness :
  CompleteMarkers (StorageOf (@BuildSingleNode Sample.Plain Sample.TheGraph
                                Sample.Package Sample.EmptyStorage))
  = CompleteMarkers Sample.EmptyStorage.
Proof.
  apply (@missing_input_stops_the_build Sample.Plain Sample.TheGraph
           Sample.Package Sample.EmptyStorage).
  exists "ObjFiles". split; [left|]. vm_compute. reflexivity.
Defined.
Section Listing.
Context `{!Collaborators}.

Lemma front_is_not_build_work e : IsFrontEvent e -> ¬ IsBuildWork e.
Proof. destruct e; simpl; tauto. Qed.

(** X19: With [-ListOnly] or [-Export=], [Execute] builds nothing: after its
    preparations it only asks the storage which nodes are complete, prints
    and exports.  It never calls the build logic, retrieves, archives,
    checks the integrity of the cache or marks a node as complete, leaves
    the storage as the preparations left it, and returns success when the
    preparations succeeded. *)
Theorem listing_builds_nothing cl host s :
  ListOnlyParam cl = true \/ is_Some (ExportParam cl) ->
  exists Ready s1 Pre,
    Prepare cl host s = (Ok Ready, s1, Pre)
    /\ StorageOf (Execute cl host s) = s1
    /\ ResultOf (Execute cl host s)
       = Ok (match Ready with Some _ => Success | None => Error_Unknown end)
    /\ Forall (fun e => ¬ IsBuildWork e) (TraceOf (Execute cl host s)).
Proof.
  intros Hlist.
  destruct (Execute_run cl host s) as (Ready & s1 & Pre & Hprep & Hfront & Hrun).
  exists Ready, s1, Pre. split; [exact Hprep|].
  assert (Hpre : Forall (fun e => ¬ IsBuildWork e) Pre).
  { eapply Forall_impl; [exact Hfront|]. apply front_is_not_build_work. }
  destruct Ready as [[[G Triggers] SingleNode]|].
  2:{ rewrite Hrun. unfold StorageOf, ResultOf, TraceOf. simpl. done. }
  rewrite Hrun. unfold StorageOf at 1, ResultOf at 1, TraceOf at 1. simpl.
  destruct (CollectCompleted_run (AllNodes G) [] s1) as (C & t & Hc & Ht).
  assert (Hchecks : Forall (fun e => ¬ IsBuildWork e) t).
  { eapply Forall_impl; [exact Ht|]. intros e (n & b & ->). simpl. tauto. }
  unfold ExecuteCommand, FindCompletedNodes.
  destruct (ListOnlyParam cl) eqn:Hl.
  - rewrite (bind_ok _ _ _ _ _ _ Hc).
    unfold StorageOf, ResultOf, TraceOf, emit, bind, ret. simpl.
    split; [done|]. split; [done|].
    apply Forall_app. split; [done|]. apply Forall_app. split; [done|].
    repeat constructor; simpl; tauto.
  - destruct Hlist as [?|[ExportFileName He]]; [discriminate|]. rewrite He.
    rewrite (bind_ok _ _ _ _ _ _ Hc).
    unfold StorageOf, ResultOf, TraceOf, emit, bind, ret. simpl.
    split; [done|]. split; [done|].
    apply Forall_app. split; [done|]. apply Forall_app. split; [done|].
    repeat constructor; simpl; tauto.
Qed.

(** ** A single node that is not in the culled graph *)

Lemma Prepare_graph cl host s ScriptFileName TargetNames Tasks G r t :
  ScriptParam cl = Some ScriptFileName ->
  TargetParam cl = Some TargetNames ->
  ResultOf (FindAvailableTasks host ∅ (PublicTasksOnlyParam cl) s)
  = Ok (Tasks, true) ->
  TryRead ScriptFileName cl Tasks = Some G ->
  (forall s', ResolveGraph cl G TargetNames s' = (Ok r, s', t)) ->
  exists s1 Pre, Prepare cl host s = (Ok r, s1, Pre ++ t).
Proof.
  intros HS HT HTasks HRead Hres.
  destruct (FindAvailableTasks_run host (PublicTasksOnlyParam cl))
    as (Tasks' & b & t0 & Hscan & Htrue & _).
  rewrite Hscan in HTasks. unfold ResultOf in HTasks. simpl in HTasks.
  inversion HTasks; subst Tasks' b. destruct (Htrue eq_refl) as (-> & _).
  destruct (Front_CreateTempStorage cl host s) as [[[] Hok] _].
  destruct (CreateTempStorage cl host s) as [[r1 s1] t1] eqn:Hcreate.
  unfold ResultOf in Hok. simpl in Hok. subst r1.
  exists s1.
  exists (match SchemaParam cl with
          | Some SchemaFileName => [EvSchemaExport SchemaFileName]
          | None => []
          end ++ t1).
  unfold Prepare. rewrite HS, HT. rewrite (bind_ok _ _ _ _ _ _ (Hscan s)).
  cbn [fst snd negb]. rewrite HRead.
  unfold PrepareGraph.
  destruct (SchemaParam cl) as [SchemaFileName|].
  - rewrite emit_bind. rewrite (then_ok _ _ _ _ _ _ Hcreate). rewrite Hres.
    unfold ResultOf, StorageOf, TraceOf. simpl. reflexivity.
  - rewrite ret_then. rewrite (then_ok _ _ _ _ _ _ Hcreate). rewrite Hres.
    unfold ResultOf, StorageOf, TraceOf. simpl. reflexivity.
Qed.

(** X20: When the tasks, the script, the targets and the triggers are all
    found but the node named with [-SingleNode=] is not in the graph culled
    to the targets, [Execute] logs that the node is not in the trimmed
    graph as its last event, builds nothing and returns an error. *)
Theorem unknown_single_node_is_an_error cl host s ScriptFileName TargetNames
    Tasks G TargetNodes Triggers SingleNodeName :
  ScriptParam cl = Some ScriptFileName ->
  TargetParam cl = Some TargetNames ->
  ResultOf (FindAvailableTasks host ∅ (PublicTasksOnlyParam cl) s)
  = Ok (Tasks, true) ->
  TryRead ScriptFileName cl Tasks = Some G ->
  ResultOf (ResolveTargets G (TargetNamesOf TargetNames) [] s)
  = Ok (Some TargetNodes) ->
  ResultOf (FindTriggers (Select G TargetNodes) (TriggerNamesOf cl) [] s)
  = Ok (Some Triggers) ->
  SingleNodeParam cl = Some SingleNodeName ->
  NameToNode (Select G TargetNodes) !! SingleNodeName = None ->
  exists s1 Pre,
    Execute cl host s
    = (Ok Error_Unknown, s1,
       Pre ++ [EvLogError (NodeNotInTrimmedGraph SingleNodeName)])
    /\ Forall IsFrontEvent Pre.
Proof.
  intros HS HT HTasks HRead HTargets HTriggers HSingle Hnone.
  destruct (ResolveTargets_run G (TargetNamesOf TargetNames) [])
    as (r & t & Hrun & Hr).
  rewrite Hrun in HTargets. unfold ResultOf in HTargets. simpl in HTargets.
  inversion HTargets; subst r. destruct Hr as [-> _].
  destruct (FindTriggers_run (Select G TargetNodes) (TriggerNamesOf cl) [])
    as (r & t & Hfind & Hr).
  rewrite Hfind in HTriggers. unfold ResultOf in HTriggers. simpl in HTriggers.
  inversion HTriggers; subst r. destruct Hr as [-> _].
  destruct (Prepare_graph cl host s _ _ _ _ None
              [EvLogError (NodeNotInTrimmedGraph SingleNodeName)]
              HS HT HTasks HRead) as (s1 & Pre & Hprep).
  { intros s'. unfold ResolveGraph.
    change (map Trim (SplitRemoveEmptyEntries ["+"%char] TargetNames))
      with (TargetNamesOf TargetNames).
    rewrite (bind_ok _ _ _ _ _ _ (Hrun s')).
    change (SplitRemoveEmptyEntries ["+"%char] (TriggerParam cl))
      with (TriggerNamesOf cl).
    unfold ResultOf at 1, StorageOf at 1, TraceOf at 1. simpl.
    rewrite (bind_ok _ _ _ _ _ _ (Hfind s')).
    rewrite HSingle, Hnone. reflexivity. }
  destruct (Execute_run cl host s) as (Ready & s2 & Pre' & Hprep' & Hfront & Hex).
  rewrite Hprep in Hprep'. inversion Hprep'; subst Ready s2 Pre'.
  exists s1, Pre. split; [exact Hex|].
  apply Forall_app in Hfront. tauto.
Qed.

(** ** The tasks that are found *)

Lemma ScanFlat_contents l :
  forall (NameToTask NameToTask' : gmap string ScriptTask) s s' t,
  ScanFlat l NameToTask s = (Ok (NameToTask', true), s', t) ->
  forall x task,
    NameToTask' !! x = Some task
    <-> NameToTask !! x = Some task
        \/ exists Ta, Ta ∈ l /\ ElementName (snd Ta) = x /\ task = TaskOf Ta.
Proof.
  induction l as [|[T a] l IH]; intros M M' s s' t Hrun x task; simpl in Hrun.
  - inversion Hrun; subst. split; [by left|].
    intros [?|(Ta & HTa & _)]; [done|]. by apply elem_of_nil in HTa.
  - destruct (negb (IsSubclassOfCustomTask T)); [discriminate|].
    destruct (bool_decide_reflect (is_Some (M !! ElementName a))) as [Hs|Hs];
      [discriminate|].
    apply eq_None_not_Some in Hs.
    rewrite (IH _ _ _ _ _ Hrun x task). split.
    + intros [Hl|(Ta & HTa & Hn & Ht)].
      * destruct (decide (ElementName a = x)) as [<-|Hne].
        -- rewrite lookup_insert_eq in Hl. inversion Hl; subst.
           right. exists (T, a). split; [left|done].
        -- rewrite lookup_insert_ne in Hl by done. by left.
      * right. exists Ta. split; [by right|done].
    + intros [Hl|(Ta & [->|HTa]%elem_of_cons & Hn & Ht)].
      * left. rewrite lookup_insert_ne; [done|]. intros <-. congruence.
      * left. simpl in Hn. subst x task. apply lookup_insert_eq.
      * right. by exists Ta.
Qed.

(** X21: [FindAvailableTasks], from an empty dictionary, returns [true] exactly
    when every scanned class with a task element is a task and no element
    name is scanned twice.  The dictionary then binds exactly the scanned
    element names, each to the task made of its name, its class and its
    parameters type; and the storage is not touched. *)
Theorem FindAvailableTasks_registers_each_task host bPublicTasksOnly :
  exists Tasks b t,
    (forall s,
       FindAvailableTasks host ∅ bPublicTasksOnly s = (Ok (Tasks, b), s, t))
    /\ (b = true
        <-> NoDup (ElementNames
                     (ScannedAttributes (ScannedAssemblies host bPublicTasksOnly)))
            /\ forall Ta,
                 Ta ∈ ScannedAttributes (ScannedAssemblies host bPublicTasksOnly) ->
                 IsSubclassOfCustomTask (fst Ta) = true)
    /\ (b = true ->
        forall x task,
          Tasks !! x = Some task
          <-> exists Ta,
                Ta ∈ ScannedAttributes (ScannedAssemblies host bPublicTasksOnly)
                /\ ElementName (snd Ta) = x /\ task = TaskOf Ta).
Proof.
  destruct (FindAvailableTasks_run host bPublicTasksOnly)
    as (Tasks & b & t & Hrun & Htrue & Hfalse).
  exists Tasks, b, t. split; [exact Hrun|]. split.
  - split.
    + intros Hb. destruct (Htrue Hb) as (_ & Hnd & Hall). done.
    + intros [Hnd Hall]. destruct b; [done|].
      destruct (Hfalse eq_refl) as (msg & _ & [(T & a & Hin & Hsub & _)|(x & _ & Htw)]).
      * apply Hall in Hin. simpl in Hin. congruence.
      * by apply OccursTwice_not_NoDup in Htw.
  - intros -> x task.
    pose proof (Hrun (MkStorage ∅ ∅ None false)) as Hr.
    unfold FindAvailableTasks in Hr. rewrite ScanAssemblies_flat in Hr.
    rewrite (ScanFlat_contents _ _ _ _ _ _ Hr x task), lookup_empty.
    split; [intros [?|?]; done | by right].
Qed.

End Listing.

Lemma listing_builds_nothing_witness :
  ResultOf (@Execute Sample.Plain MoreSamples.ListArgs Sample.TheHost
              Sample.CompileDone) = Ok Success
  /\ CompleteMarkers (StorageOf (@Execute Sample.Plain MoreSamples.ListArgs
                                   Sample.TheHost Sample.CompileDone)) = ∅.
Proof.
  destruct (@listing_builds_nothing Sample.Plain MoreSamples.ListArgs
              Sample.TheHost Sample.CompileDone)
    as (Ready & s1 & Pre & Hprep & Hs & Hr & _).
  - left. reflexivity.
  - vm_compute in Hprep. injection Hprep as HReady Hs1 HPre.
    rewrite Hr, Hs, <- HReady, <- Hs1. split; reflexivity.
Defined.

Lemma unknown_single_node_is_an_error_witness :
  ResultOf (@Execute Sample.Plain MoreSamples.CulledNodeArgs Sample.TheHost
              Sample.EmptyStorage) = Ok Error_Unknown.
Proof.
  destruct (@unknown_single_node_is_an_error Sample.Plain
              MoreSamples.CulledNodeArgs Sample.TheHost Sample.EmptyStorage
              "Build.xml" "Package"
              {[ "Copy" := MkScriptTask "Copy" "CopyTask" "CopyTaskParameters";
                 "Log" := MkScriptTask "Log" "LogTask" "LogTaskParameters" ]}
              Sample.TheGraph [Sample.Package] [] "Publish")
    as (s1 & Pre & Hrun & _); [reflexivity .. | rewrite Hrun; reflexivity].
Defined.
Section FileMapping.
Context `{!Collaborators}.

(** The inner loop: a file that is bound keeps its output name and is
    reported, a file that is not bound is bound to the output name. *)
Lemma MapFilesToOutputName_spec OutputName Files :
  forall (FileToOutputName : gmap string string) (bResult : bool),
  NoDup Files ->
  exists Map b t,
    (forall s,
       MapFilesToOutputName OutputName Files FileToOutputName bResult s
       = (Ok (Map, b), s, t))
    /\ (forall File,
          Map !! File
          = match FileToOutputName !! File with
            | Some Existing => Some Existing
            | None => if decide (File ∈ Files) then Some OutputName else None
            end)
    /\ (b = true <->
        bResult = true /\ forall File, File ∈ Files -> FileToOutputName !! File = None)
    /\ (t = [] <-> forall File, File ∈ Files -> FileToOutputName !! File = None)
    /\ Forall IsMultipleOutputsError t.
Proof.
  induction Files as [|f Files IH]; intros M b0 Hnd; simpl.
  - exists M, b0, []. split; [done|]. split.
    { intros File. destruct (M !! File); [done|].
      destruct (decide (File ∈ [])) as [Hin|]; [by apply elem_of_nil in Hin|done]. }
    split; [|split; [|constructor]].
    + split; [intros ->; split; [done|]|tauto].
      intros File HF. by apply elem_of_nil in HF.
    + split; [|done]. intros _ File HF. by apply elem_of_nil in HF.
  - apply NoDup_cons in Hnd as [Hf Hnd].
    destruct (M !! f) as [Existing|] eqn:HMf.
    + destruct (IH M false Hnd) as (Map & b & t & Hrun & Hmap & Hb & Ht & Herr).
      exists Map, b,
        (EvLogError (AddedToMultipleOutputs (MakeRelativeTo f) Existing OutputName)
         :: t).
      split.
      { intros s. rewrite emit_bind, Hrun.
        unfold ResultOf, StorageOf, TraceOf. simpl. done. }
      split.
      { intros File. rewrite Hmap. destruct (M !! File) eqn:HMF; [done|].
        destruct (decide (File ∈ Files)) as [Hin|Hin].
        - rewrite decide_True; [done|by right].
        - rewrite decide_False; [done|].
          intros [->|?]%elem_of_cons; [congruence|done]. }
      split; [|split].
      * split.
        -- intros Hbt. apply Hb in Hbt as [? _]. discriminate.
        -- intros [_ Hall]. specialize (Hall f (list_elem_of_here _ _)). congruence.
      * split; [discriminate|].
        intros Hall. specialize (Hall f (list_elem_of_here _ _)). congruence.
      * constructor; [exact I|exact Herr].
    + destruct (IH (<[f := OutputName]> M) b0 Hnd)
        as (Map & b & t & Hrun & Hmap & Hb & Ht & Herr).
      assert (Hiff : (forall File, File ∈ Files ->
                        (<[f := OutputName]> M) !! File = None)
                     <-> forall File, File ∈ f :: Files -> M !! File = None).
      { split.
        - intros Hall File [->|HF]%elem_of_cons; [done|].
          specialize (Hall File HF).
          rewrite lookup_insert_ne in Hall; [done|]. intros <-. done.
        - intros Hall File HF. rewrite lookup_insert_ne; [|by intros <-].
          apply Hall. by right. }
      exists Map, b, t. split; [exact Hrun|]. split.
      { intros File. rewrite Hmap.
        destruct (decide (f = File)) as [<-|Hne].
        - rewrite lookup_insert_eq, HMf. rewrite decide_True; [done|left].
        - rewrite lookup_insert_ne by done. destruct (M !! File); [done|].
          destruct (decide (File ∈ Files)) as [Hin|Hin].
          + rewrite decide_True; [done|by right].
          + rewrite decide_False; [done|].
            intros [->|?]%elem_of_cons; done. }
      split; [|split; [|exact Herr]].
      * rewrite Hb, Hiff. done.
      * rewrite Ht, Hiff. done.
Qed.

Lemma OutputsWithFile_cons Tags o Outputs File :
  OutputsWithFile Tags (o :: Outputs) File
  = if decide (File ∈ FilesOfOutput Tags o)
    then o :: OutputsWithFile Tags Outputs File
    else OutputsWithFile Tags Outputs File.
Proof.
  unfold OutputsWithFile. rewrite filter_cons. by destruct (decide _).
Qed.

(** The outer loop. *)
Lemma MapOutputNames_spec Tags Outputs :
  forall (FileToOutputName : gmap string string) (bResult : bool),
  (forall o, o ∈ Outputs -> Tags !! o ≠ Some None) ->
  exists Map b t,
    (forall s,
       MapOutputNames Outputs Tags FileToOutputName bResult s
       = (Ok (Map, b), s, t))
    /\ (forall File,
          Map !! File
          = match FileToOutputName !! File with
            | Some Existing => Some Existing
            | None => head (OutputsWithFile Tags Outputs File)
            end)
    /\ (b = true <->
        bResult = true
        /\ forall File,
             match FileToOutputName !! File with
             | Some _ => OutputsWithFile Tags Outputs File = []
             | None => List.length (OutputsWithFile Tags Outputs File) <= 1
             end)
    /\ (t = [] <->
        forall File,
          match FileToOutputName !! File with
          | Some _ => OutputsWithFile Tags Outputs File = []
          | None => List.length (OutputsWithFile Tags Outputs File) <= 1
          end)
    /\ Forall IsMultipleOutputsError t.
Proof.
  induction Outputs as [|o Outputs IH]; intros M b0 Hnull; simpl.
  - exists M, b0, []. split; [done|]. split.
    { intros File. by destruct (M !! File). }
    split; [|split; [|constructor]].
    + split; [intros ->; split; [done|]|tauto].
      intros File. destruct (M !! File); simpl; [done|lia].
    + split; [|done]. intros _ File. destruct (M !! File); simpl; [done|lia].
  - assert (Hrest : forall o', o' ∈ Outputs -> Tags !! o' ≠ Some None).
    { intros o' Ho'. apply Hnull. by right. }
    destruct (Tags !! o) as [[FileSet|]|] eqn:Ho.
    + destruct (MapFilesToOutputName_spec o (elements FileSet) M b0
                  (NoDup_elements FileSet))
        as (M1 & b1 & t1 & Hrun1 & Hmap1 & Hb1 & Ht1 & Herr1).
      destruct (IH M1 b1 Hrest) as (M2 & b2 & t2 & Hrun2 & Hmap2 & Hb2 & Ht2 & Herr2).
      assert (HF : forall File, File ∈ FilesOfOutput Tags o <-> File ∈ elements FileSet).
      { intros File. unfold FilesOfOutput. rewrite Ho. by rewrite elem_of_elements. }
      assert (Hiff :
        (forall File, File ∈ elements FileSet -> M !! File = None)
        /\ (forall File,
              match M1 !! File with
              | Some _ => OutputsWithFile Tags Outputs File = []
              | None => List.length (OutputsWithFile Tags Outputs File) <= 1
              end)
        <-> forall File,
              match M !! File with
              | Some _ => OutputsWithFile Tags (o :: Outputs) File = []
              | None => List.length (OutputsWithFile Tags (o :: Outputs) File) <= 1
              end).
      { split.
        - intros [Hfree Hall] File. specialize (Hall File).
          rewrite Hmap1 in Hall. rewrite OutputsWithFile_cons.
          destruct (M !! File) as [x|] eqn:HMF.
          + rewrite decide_False; [done|]. rewrite HF. intros Hin.
            specialize (Hfree File Hin). congruence.
          + destruct (decide (File ∈ elements FileSet)) as [Hin|Hin].
            * rewrite decide_True by by apply HF. rewrite Hall. simpl. lia.
            * rewrite decide_False by by rewrite HF. done.
        - intros Hall. split.
          + intros File Hin. specialize (Hall File).
            rewrite OutputsWithFile_cons, decide_True in Hall by by apply HF.
            destruct (M !! File); [discriminate|done].
          + intros File. specialize (Hall File). rewrite Hmap1.
            rewrite OutputsWithFile_cons in Hall.
            destruct (M !! File) as [x|] eqn:HMF.
            * destruct (decide (File ∈ FilesOfOutput Tags o)); [discriminate|done].
            * destruct (decide (File ∈ elements FileSet)) as [Hin|Hin].
              -- rewrite decide_True in Hall by by apply HF. simpl in Hall.
                 destruct (OutputsWithFile Tags Outputs File); [done|simpl in Hall; lia].
              -- rewrite decide_False in Hall by by rewrite HF. done. }
      exists M2, b2, (t1 ++ t2). split.
      { intros s. rewrite (bind_ok _ _ _ _ _ _ (Hrun1 s)). simpl. rewrite Hrun2.
        done. }
      split.
      { intros File. rewrite Hmap2, Hmap1, OutputsWithFile_cons.
        destruct (M !! File); [done|].
        destruct (decide (File ∈ elements FileSet)) as [Hin|Hin].
        - rewrite decide_True by by apply HF. done.
        - rewrite decide_False by by rewrite HF. done. }
      split; [|split].
      * rewrite Hb2, Hb1, <- Hiff. tauto.
      * rewrite <- Hiff, <- Ht1, <- Ht2. split.
        -- intros [-> ->]%app_eq_nil. done.
        -- intros [-> ->]. done.
      * apply Forall_app. done.
    + exfalso. apply (Hnull o); [left|done].
    + destruct (IH M b0 Hrest) as (M2 & b2 & t2 & Hrun2 & Hmap2 & Hb2 & Ht2 & Herr2).
      assert (Hsame : forall File,
                OutputsWithFile Tags (o :: Outputs) File
                = OutputsWithFile Tags Outputs File).
      { intros File. rewrite OutputsWithFile_cons, decide_False; [done|].
        unfold FilesOfOutput. rewrite Ho. apply not_elem_of_empty. }
      assert (Hiff :
        (forall File,
           match M !! File with
           | Some _ => OutputsWithFile Tags Outputs File = []
           | None => List.length (OutputsWithFile Tags Outputs File) <= 1
           end)
        <-> forall File,
              match M !! File with
              | Some _ => OutputsWithFile Tags (o :: Outputs) File = []
              | None => List.length (OutputsWithFile Tags (o :: Outputs) File) <= 1
              end).
      { split; intros Hall File; specialize (Hall File);
          [by rewrite Hsame | by rewrite Hsame in Hall]. }
      exists M2, b2, t2. split; [exact Hrun2|]. split.
      { intros File. rewrite Hmap2, Hsame. done. }
      split; [|split; [|exact Herr2]].
      * rewrite Hb2, Hiff. done.
      * rewrite Ht2, Hiff. done.
Qed.

(** X22: [FindFileToOutputNameMapping], from an empty dictionary and a tag map
    that binds no output of the node to [null], binds every file to the
    first output of the node that holds it and does not touch the storage.
    It returns [true] exactly when no file is held by two outputs of the
    node, which is exactly when it logs nothing; and it logs nothing but
    errors about files added to multiple outputs. *)
Theorem FindFileToOutputNameMapping_binds_first_output n Tags :
  (forall o, o ∈ OutputNames n -> Tags !! o ≠ Some None) ->
  exists FileToOutputName b t,
    (forall s,
       FindFileToOutputNameMapping n Tags ∅ s = (Ok (FileToOutputName, b), s, t))
    /\ (forall File,
          FileToOutputName !! File
          = head (OutputsWithFile Tags (OutputNames n) File))
    /\ (b = true <->
        forall File, List.length (OutputsWithFile Tags (OutputNames n) File) <= 1)
    /\ (b = true <-> t = [])
    /\ Forall IsMultipleOutputsError t.
Proof.
  intros Hnull.
  destruct (MapOutputNames_spec Tags (OutputNames n) ∅ true Hnull)
    as (Map & b & t & Hrun & Hmap & Hb & Ht & Herr).
  exists Map, b, t. split; [exact Hrun|].
  assert (Hiff : (forall File,
                    match (∅ : gmap string string) !! File with
                    | Some _ => OutputsWithFile Tags (OutputNames n) File = []
                    | None =>
                        List.length (OutputsWithFile Tags (OutputNames n) File) <= 1
                    end)
                 <-> forall File,
                       List.length (OutputsWithFile Tags (OutputNames n) File) <= 1).
  { split; intros Hall File; specialize (Hall File);
      by rewrite lookup_empty in *. }
  split; [|split; [|split; [|exact Herr]]].
  - intros File. rewrite Hmap, lookup_empty. done.
  - rewrite Hb, Hiff. tauto.
  - rewrite Hb, Ht. tauto.
Qed.

End FileMapping.

Lemma FindFileToOutputNameMapping_binds_first_output_witness :
  exists FileToOutputName t,
    @FindFileToOutputNameMapping Sample.Plain Sample.Compile
      MoreSamples.SharedFile ∅ Sample.EmptyStorage
    = (Ok (FileToOutputName, false), Sample.EmptyStorage, t)
    /\ FileToOutputName !! "/a.obj" = Some "ObjFiles".
Proof.
  destruct (@FindFileToOutputNameMapping_binds_first_output Sample.Plain
              Sample.Compile MoreSamples.SharedFile)
    as (Map & b & t & Hrun & Hmap & Hb & _).
  - intros o Ho. vm_compute in Ho.
    apply elem_of_cons in Ho as [->|Ho]; [vm_compute; discriminate|].
    apply list_elem_of_singleton in Ho as ->. vm_compute. discriminate.
  - exists Map, t. split.
    + rewrite Hrun. destruct b; [|reflexivity].
      pose proof (proj1 Hb eq_refl "/a.obj") as Hlen.
      vm_compute in Hlen. lia.
    + rewrite Hmap. vm_compute. reflexivity.
Defined.
Section BuildOrder.
Context `{!Collaborators}.

Lemma BuiltNodes_none t :
  Forall (fun e => EnteredNode e = None) t -> BuiltNodes t = [].
Proof.
  induction 1 as [|e t He _ IH]; [done|].
  unfold BuiltNodes in *. simpl. rewrite He. exact IH.
Qed.

Lemma BuiltNodes_app t1 t2 : BuiltNodes (t1 ++ t2) = BuiltNodes t1 ++ BuiltNodes t2.
Proof. apply omap_app. Qed.

Lemma BuildSingleNode_enters_once G n s :
  BuiltNodes (TraceOf (BuildSingleNode G n s)) = [n].
Proof.
  pose proof (BuildSingleNode_run G n s) as Hrun.
  destruct (BuildSingleNode G n s) as [[r s'] t].
  unfold ResultOf, TraceOf in *. simpl in *.
  assert (forall l, Forall IsRetreive l -> BuiltNodes l = []) as Hfetch.
  { intros l Hl. apply BuiltNodes_none. eapply Forall_impl; [exact Hl|].
    by intros []. }
  assert (forall Tags R l, BuiltNodes (map (ArchiveEvent n Tags R) l) = [])
    as Hpub.
  { intros Tags R l. apply BuiltNodes_none, Forall_forall.
    by intros e (o & -> & _)%list_elem_of_fmap. }
  inversion Hrun as
    [e' s1 Fetched Hf|Tags s1 Fetched Hf Hb
    |e' Tags s1 Fetched Done Rest Hf Hb Hsplit Hrest
    |Tags s1 Fetched Hf Hb]; subst; apply FetchInputs_fetched in Hf;
    change (BuiltNodes (EvBuildSingleNode n :: ?l)) with (n :: BuiltNodes l);
    f_equal.
  - by apply Hfetch.
  - rewrite BuiltNodes_app, (Hfetch _ Hf). done.
  - rewrite BuiltNodes_app, (Hfetch _ Hf). simpl.
    change (BuiltNodes (EvNodeBuild ?a ?b ?c :: ?l)) with (BuiltNodes l).
    apply Hpub.
  - rewrite BuiltNodes_app, (Hfetch _ Hf). simpl.
    change (BuiltNodes (EvNodeBuild ?a ?b ?c :: ?l)) with (BuiltNodes l).
    rewrite BuiltNodes_app, Hpub. done.
Qed.

Lemma ExecuteInOrder_order G Total l :
  forall idx s,
  BuiltNodes (TraceOf (ExecuteInOrder G Total idx l s)) `sublist_of` l.
Proof.
  induction l as [|n l IH]; intros idx s.
  - simpl. constructor.
  - rewrite ExecuteInOrder_cons.
    destruct (bool_decide (Name n ∈ CompleteMarkers s)); cbv zeta.
    + unfold TraceOf at 1. simpl.
      change (BuiltNodes (EvLog ?a :: EvIsComplete ?b ?c :: ?t))
        with (BuiltNodes t).
      apply sublist_cons, IH.
    + pose proof (BuildSingleNode_enters_once G n s) as Hn.
      destruct (ResultOf (BuildSingleNode G n s)) as [[]|e];
        unfold TraceOf at 1; simpl;
        change (BuiltNodes (EvLog ?a :: EvIsComplete ?b ?c :: EvLog ?d :: ?t))
          with (BuiltNodes t).
      * rewrite BuiltNodes_app, Hn. simpl.
        change (BuiltNodes (EvLog ?a :: ?t)) with (BuiltNodes t).
        apply sublist_skip, IH.
      * rewrite Hn. apply sublist_skip, sublist_nil_l.
      * rewrite Hn. apply sublist_skip, sublist_nil_l.
Qed.

(** X23: [BuildAllNodes] enters [BuildSingleNode] for the nodes of the graph in
    the order of the graph, and at most once for each place of a node in
    that order. *)
Theorem BuildAllNodes_builds_in_graph_order G s :
  BuiltNodes (TraceOf (BuildAllNodes G s)) `sublist_of` AllNodes G.
Proof.
  unfold BuildAllNodes. rewrite emit_bind.
  destruct (IntegrityPass_inv (AllNodes G) ∅ s)
    as (C & s' & t & Hrun & _ & _ & _ & _ & Hev).
  rewrite (then_ok _ _ _ _ _ _ Hrun).
  unfold TraceOf at 1. simpl. unfold TraceOf at 1. simpl.
  change (BuiltNodes (EvBuildAllNodes :: ?l)) with (BuiltNodes l).
  rewrite BuiltNodes_app, (BuiltNodes_none t).
  - apply ExecuteInOrder_order.
  - eapply Forall_impl; [exact Hev|]. intros [] He; simpl in *; tauto.
Qed.

(** X24: With [-SkipTriggers], every trigger of the culled graph is among the
    active triggers that [Execute] passes on. *)
Theorem SkipTriggers_activates_every_trigger cl G0 TargetNames s G Triggers
    SingleNode s1 t TriggerName Trigger :
  ResolveGraph cl G0 TargetNames s = (Ok (Some (G, Triggers, SingleNode)), s1, t) ->
  SkipTriggersParam cl = true ->
  NameToTrigger G !! TriggerName = Some Trigger ->
  Active Triggers Trigger.
Proof.
  unfold ResolveGraph. intros Hrun Hskip Hname.
  apply bind_inv in Hrun as ([TargetNodes|] & sa & ta & tb & _ & Hrun & _);
    [|discriminate].
  apply bind_inv in Hrun as ([Found|] & sb & tc & td & _ & Hrun & _);
    [|discriminate].
  rewrite Hskip in Hrun.
  assert (HG : G = Select G0 TargetNodes
               /\ Triggers
                  = UnionWithTriggers Found
                      (snd <$> map_to_list (NameToTrigger (Select G0 TargetNodes)))).
  { destruct (SingleNodeParam cl) as [SingleNodeName|].
    - destruct (NameToNode _ !! SingleNodeName); [|discriminate].
      by inversion Hrun.
    - by inversion Hrun. }
  destruct HG as [-> ->].
  apply UnionWithTriggers_active. right. exists Trigger. split; [|done].
  apply list_elem_of_fmap. exists (TriggerName, Trigger). split; [done|].
  by apply elem_of_map_to_list.
Qed.

End BuildOrder.

Lemma SkipTriggers_activates_every_trigger_witness :
  Active [Sample.QA; Sample.Release] Sample.Release.
Proof.
  apply (@SkipTriggers_activates_every_trigger Sample.Plain
           {| ScriptParam := Some "Build.xml"; TargetParam := Some "Publish";
              SchemaParam := None; ExportParam := None;
              SharedStorageDirParam := None; SingleNodeParam := None;
              TriggerParam := ""; SkipTriggersParam := true;
              CleanParam := false; ListOnlyParam := false;
              WriteToSharedStorageParam := false; PublicTasksOnlyParam := false;
              ShowDepsParam := false; ShowNotificationsParam := false;
              CleanNodeParams := [] |}
           Sample.TheGraph "Publish" Sample.EmptyStorage
           (Sample.SelectNodes Sample.TheGraph [Sample.Publish])
           [Sample.QA; Sample.Release] None Sample.EmptyStorage []
           "Release" Sample.Release).
  - vm_compute. reflexivity.
  - reflexivity.
  - vm_compute. reflexivity.
Defined.
(** * Properties of the animation curves *)

Module AnimCurveFacts.
Import AnimCurve.

(** ** Flags *)

Lemma land_lor_same (c f : Z) : Z.land (Z.lor c f) f = f.
Proof.
  apply Z.bits_inj'. intros n Hn.
  rewrite Z.land_spec, Z.lor_spec. destruct (Z.testbit c n), (Z.testbit f n); done.
Qed.

Lemma land_clear_same (c f : Z) : Z.land (Z.land c (Z.lnot f)) f = 0%Z.
Proof.
  apply Z.bits_inj'. intros n Hn.
  rewrite !Z.land_spec, Z.lnot_spec, Z.bits_0 by done.
  destruct (Z.testbit c n), (Z.testbit f n); done.
Qed.

Lemma disjoint_bits (f g : Z) n :
  Z.land f g = 0%Z -> Z.testbit f n && Z.testbit g n = false.
Proof. intros H. rewrite <- Z.land_spec, H. apply Z.bits_0. Qed.

(** Reading the flag that was just set or cleared; the flag [0] is never
    read as set. *)
Lemma Get_Set_same (c f : Z) (b : bool) :
  GetCurveTypeFlag (SetCurveTypeFlag c f b) f = b && negb (f =? 0)%Z.
Proof.
  unfold GetCurveTypeFlag, SetCurveTypeFlag. destruct b.
  - by rewrite land_lor_same.
  - by rewrite land_clear_same.
Qed.

(** X1: a flag that was set is read back.  After [SetCurveTypeFlag] with
    a flag that is not zero, [GetCurveTypeFlag] of that flag is the value
    that was set. *)
Theorem get_after_set (c f : Z) (b : bool) :
  f ≠ 0%Z -> GetCurveTypeFlag (SetCurveTypeFlag c f b) f = b.
Proof.
  intros Hf. rewrite Get_Set_same. apply Z.eqb_neq in Hf as ->.
  apply andb_true_r.
Qed.

Lemma get_after_set_witness :
  GetCurveTypeFlag (SetCurveTypeFlag 5 2 true) 2 = true.
Proof. apply get_after_set. discriminate. Defined.

(** X2: setting or clearing a flag leaves the flags alone that share no
    bit with it. *)
Theorem set_keeps_other_flags (c f g : Z) (b : bool) :
  Z.land f g = 0%Z ->
  GetCurveTypeFlag (SetCurveTypeFlag c f b) g = GetCurveTypeFlag c g.
Proof.
  intros Hfg. unfold GetCurveTypeFlag, SetCurveTypeFlag.
  assert (Z.land (if b then Z.lor c f else Z.land c (Z.lnot f)) g = Z.land c g)
    as ->; [|done].
  apply Z.bits_inj'. intros n Hn. pose proof (disjoint_bits f g n Hfg) as Hd.
  destruct b; rewrite !Z.land_spec, ?Z.lor_spec, ?Z.lnot_spec by done;
    destruct (Z.testbit c n), (Z.testbit f n), (Z.testbit g n); done.
Qed.

Lemma set_keeps_other_flags_witness :
  GetCurveTypeFlag (SetCurveTypeFlag 4 2 true) 4 = GetCurveTypeFlag 4 4.
Proof. apply set_keeps_other_flags. reflexivity. Defined.

(** X3: toggling a flag that is not zero inverts what [GetCurveTypeFlag]
    gives for it. *)
Theorem toggle_inverts (c f : Z) :
  f ≠ 0%Z ->
  GetCurveTypeFlag (ToggleCurveTypeFlag c f) f = negb (GetCurveTypeFlag c f).
Proof.
  intros Hf. unfold ToggleCurveTypeFlag. rewrite Get_Set_same.
  apply Z.eqb_neq in Hf as ->. apply andb_true_r.
Qed.

Lemma toggle_inverts_witness :
  GetCurveTypeFlag (ToggleCurveTypeFlag 6 2) 2 = negb (GetCurveTypeFlag 6 2).
Proof. apply toggle_inverts. discriminate. Defined.

(** X4: toggling twice a flag of one bit gives the flags back.  (A flag of
    several bits of which only some are set is not given back: the first
    toggle clears them all and the second sets them all.) *)
Theorem toggle_twice (c : Z) (k : Z) :
  (0 <= k)%Z ->
  ToggleCurveTypeFlag (ToggleCurveTypeFlag c (2 ^ k)) (2 ^ k) = c.
Proof.
  intros Hk. set (f := (2 ^ k)%Z).
  assert (f ≠ 0%Z) as Hf by (apply Z.pow_nonzero; lia).
  assert (GetCurveTypeFlag (ToggleCurveTypeFlag c f) f
          = negb (GetCurveTypeFlag c f)) as Hinv.
  { unfold ToggleCurveTypeFlag. rewrite Get_Set_same.
    apply Z.eqb_neq in Hf as ->. apply andb_true_r. }
  unfold ToggleCurveTypeFlag at 1. rewrite Hinv, negb_involutive.
  unfold ToggleCurveTypeFlag.
  assert (GetCurveTypeFlag c f = Z.testbit c k) as Hget.
  { unfold GetCurveTypeFlag.
    destruct (Z.testbit c k) eqn:Hbit.
    - apply negb_true_iff, Z.eqb_neq. intros H0.
      assert (Z.testbit (Z.land c f) k = false) as Hz by (rewrite H0; apply Z.bits_0).
      rewrite Z.land_spec, Hbit in Hz. unfold f in Hz.
      rewrite Z.pow2_bits_true in Hz by done. done.
    - apply negb_false_iff, Z.eqb_eq. apply Z.bits_inj'. intros n Hn.
      rewrite Z.land_spec, Z.bits_0. unfold f.
      rewrite Z.pow2_bits_eqb by done.
      destruct (Z.eqb_spec k n) as [->|]; [by rewrite Hbit|]. apply andb_false_r. }
  rewrite Hget. unfold SetCurveTypeFlag.
  apply Z.bits_inj'. intros n Hn.
  destruct (Z.testbit c k) eqn:Hbit; simpl;
    rewrite ?Z.lor_spec, ?Z.land_spec, ?Z.lnot_spec, ?Z.lor_spec by done;
    unfold f; rewrite Z.pow2_bits_eqb by done;
    destruct (Z.eqb_spec k n) as [->|]; rewrite ?Hbit;
    destruct (Z.testbit c n); done.
Qed.

Lemma toggle_twice_witness :
  ToggleCurveTypeFlag (ToggleCurveTypeFlag 5 (2 ^ 1)) (2 ^ 1) = 5%Z.
Proof. apply toggle_twice. lia. Defined.

Lemma toggle_twice_mask :
  ToggleCurveTypeFlag (ToggleCurveTypeFlag 1 3) 3 = 3%Z.
Proof. reflexivity. Qed.

Lemma IsInt32_shiftr (x : Z) :
  IsInt32 x <-> Z.shiftr x 31 = 0%Z \/ Z.shiftr x 31 = (-1)%Z.
Proof.
  unfold IsInt32. rewrite Z.shiftr_div_pow2 by lia.
  change (2 ^ 31)%Z with 2147483648%Z.
  pose proof (Z.div_mod x 2147483648 ltac:(lia)) as Hdiv.
  pose proof (Z.mod_pos_bound x 2147483648 ltac:(lia)) as Hmod.
  lia.
Qed.

(** X5: the flags stay an [int32].  When the flags and the flag are
    [int32] values, so are the flags that [SetCurveTypeFlag] and
    [ToggleCurveTypeFlag] leave: the operations on bits never leave the
    range. *)
Theorem flags_stay_int32 (c f : Z) (b : bool) :
  IsInt32 c -> IsInt32 f ->
  IsInt32 (SetCurveTypeFlag c f b) /\ IsInt32 (ToggleCurveTypeFlag c f).
Proof.
  intros Hc Hf.
  assert (forall b', IsInt32 (SetCurveTypeFlag c f b')) as Hset.
  { intros b'. apply IsInt32_shiftr in Hc, Hf. apply IsInt32_shiftr.
    unfold SetCurveTypeFlag. destruct b'.
    - rewrite Z.shiftr_lor. destruct Hc as [-> | ->], Hf as [-> | ->]; auto.
    - rewrite Z.shiftr_land, <- Z.lnot_shiftr by lia.
      destruct Hc as [-> | ->], Hf as [-> | ->]; auto. }
  split; [apply Hset|]. unfold ToggleCurveTypeFlag. apply Hset.
Qed.

Lemma flags_stay_int32_witness :
  IsInt32 (SetCurveTypeFlag (- 2 ^ 31) (2 ^ 31 - 1) true)
  /\ IsInt32 (ToggleCurveTypeFlag (- 2 ^ 31) (2 ^ 31 - 1)).
Proof. apply flags_stay_int32; unfold IsInt32; lia. Defined.

(** ** The curve arrays *)

Section TemplateFacts.
Context {FName : Type} {DataType : Type}
        {TheCurveType : @CurveType FName DataType}.
Implicit Types (Curves : list DataType) (Uid : N).

Lemma Get_None Curves Uid :
  GetCurveDataImpl Curves Uid = None <-> Uid ∉ Uids Curves.
Proof.
  unfold GetCurveDataImpl, Uids. rewrite fmap_None, list_find_None.
  rewrite Forall_forall, list_elem_of_fmap. split.
  - intros H [c [-> Hc]]. exact (H c Hc eq_refl).
  - intros H c Hc He. apply H. exists c. auto.
Qed.

Lemma Get_Some Curves Uid i :
  GetCurveDataImpl Curves Uid = Some i ->
  exists Curve, Curves !! i = Some Curve /\ CurveUid (Base Curve) = Uid.
Proof.
  unfold GetCurveDataImpl. rewrite fmap_Some. intros [[j c] [Hf ->]].
  apply list_find_Some in Hf as (Hl & Hu & _). exists c. auto.
Qed.

Lemma Get_is_Some Curves Uid :
  is_Some (GetCurveDataImpl Curves Uid) <-> Uid ∈ Uids Curves.
Proof.
  rewrite <- not_eq_None_Some, Get_None. split; [apply dec_stable | auto].
Qed.

Lemma Get_cons Curve Curves Uid :
  GetCurveDataImpl (Curve :: Curves) Uid
  = if decide (CurveUid (Base Curve) = Uid) then Some 0
    else S <$> GetCurveDataImpl Curves Uid.
Proof.
  unfold GetCurveDataImpl. simpl. destruct (decide _); [reflexivity|].
  destruct (list_find _ Curves) as [[j c]|]; reflexivity.
Qed.

Lemma FindCurve_cons Curve Curves Uid :
  FindCurve (Curve :: Curves) Uid
  = if decide (CurveUid (Base Curve) = Uid) then Some Curve
    else FindCurve Curves Uid.
Proof.
  unfold FindCurve. rewrite Get_cons. destruct (decide _); [reflexivity|].
  destruct (GetCurveDataImpl Curves Uid); reflexivity.
Qed.

Lemma FindCurve_None Curves Uid :
  FindCurve Curves Uid = None <-> Uid ∉ Uids Curves.
Proof.
  rewrite <- Get_None. unfold FindCurve.
  destruct (GetCurveDataImpl Curves Uid) as [i|] eqn:Hg; simpl; [|tauto].
  apply Get_Some in Hg as (c & -> & _). split; discriminate.
Qed.

Lemma FindCurve_uid Curves Uid Curve :
  FindCurve Curves Uid = Some Curve ->
  Curve ∈ Curves /\ CurveUid (Base Curve) = Uid.
Proof.
  unfold FindCurve. destruct (GetCurveDataImpl Curves Uid) as [i|] eqn:Hg;
    [|discriminate].
  simpl. intros Hl. apply Get_Some in Hg as (c & Hc & Hu).
  rewrite Hc in Hl. injection Hl as <-. split; [|exact Hu].
  eapply list_elem_of_lookup_2; eauto.
Qed.

Lemma Get_app Curves Curve Uid :
  GetCurveDataImpl (Curves ++ [Curve]) Uid
  = match GetCurveDataImpl Curves Uid with
    | Some i => Some i
    | None => if decide (CurveUid (Base Curve) = Uid)
              then Some (List.length Curves) else None
    end.
Proof.
  induction Curves as [|c l IH]; simpl.
  - rewrite Get_cons. unfold GetCurveDataImpl. simpl.
    destruct (decide _); reflexivity.
  - rewrite !Get_cons. destruct (decide (CurveUid (Base c) = Uid)); [reflexivity|].
    rewrite IH. destruct (GetCurveDataImpl l Uid); [reflexivity|].
    destruct (decide _); reflexivity.
Qed.

Lemma FindCurve_app Curves Curve Uid :
  FindCurve (Curves ++ [Curve]) Uid
  = match FindCurve Curves Uid with
    | Some c => Some c
    | None => if decide (CurveUid (Base Curve) = Uid) then Some Curve else None
    end.
Proof.
  induction Curves as [|c l IH]; simpl.
  - rewrite FindCurve_cons. unfold FindCurve, GetCurveDataImpl. simpl.
    destruct (decide _); reflexivity.
  - rewrite !FindCurve_cons.
    destruct (decide (CurveUid (Base c) = Uid)); [reflexivity | exact IH].
Qed.

Lemma Uids_app Curves Curve :
  Uids (Curves ++ [Curve]) = Uids Curves ++ [CurveUid (Base Curve)].
Proof. unfold Uids. rewrite fmap_app. reflexivity. Qed.

Lemma Delete_Uids Curves Uid :
  Uids (fst (DeleteCurveDataImpl Curves Uid)) `sublist_of` Uids Curves.
Proof.
  induction Curves as [|c l IH]; simpl; [constructor|].
  destruct (decide _); simpl.
  - apply sublist_cons, reflexivity.
  - apply sublist_skip, IH.
Qed.

(** X6: [AddCurveDataImpl] returns [true] exactly when no curve of the array
    has the uid.  It then appends one curve, which has the uid and the
    flags given and is the curve found for the uid afterwards; otherwise
    it leaves the array as it is.  In both cases the curve found for any
    other uid is the one found before. *)
Theorem add_curve_then_get Curves Uid CurveFlags :
  ConstructorStores DataType ->
  let r := AddCurveDataImpl Curves Uid CurveFlags in
  (snd r = true <-> GetCurveDataImpl Curves Uid = None)
  /\ (snd r = false -> fst r = Curves)
  /\ (snd r = true ->
      exists Curve,
        fst r = Curves ++ [Curve]
        /\ CurveUid (Base Curve) = Uid
        /\ CurveTypeFlags (Base Curve) = CurveFlags
        /\ GetCurveDataImpl (fst r) Uid = Some (List.length Curves))
  /\ (forall Other, Other <> Uid ->
        GetCurveDataImpl (fst r) Other = GetCurveDataImpl Curves Other).
Proof.
  intros Hc r. subst r. unfold AddCurveDataImpl.
  destruct (Hc Uid CurveFlags) as [Hu Hf].
  destruct (GetCurveDataImpl Curves Uid) as [i|] eqn:Hg; simpl.
  - repeat split; try discriminate; auto.
  - repeat split; try discriminate; auto.
    + intros _. eexists. repeat split; eauto.
      rewrite Get_app, Hg, decide_True by exact Hu. reflexivity.
    + intros Other Ho. rewrite Get_app.
      destruct (GetCurveDataImpl Curves Other); [reflexivity|].
      rewrite decide_False; [reflexivity|]. rewrite Hu. auto.
Qed.

(** X7: When no two curves of an array have the same uid, the same holds of
    the array that [AddCurveDataImpl] and [DeleteCurveDataImpl] leave. *)
Theorem uids_stay_unique Curves Uid CurveFlags :
  ConstructorStores DataType ->
  NoDup (Uids Curves) ->
  NoDup (Uids (fst (AddCurveDataImpl Curves Uid CurveFlags)))
  /\ NoDup (Uids (fst (DeleteCurveDataImpl Curves Uid))).
Proof.
  intros Hc Hn. split.
  - unfold AddCurveDataImpl.
    destruct (GetCurveDataImpl Curves Uid) as [i|] eqn:Hg; simpl; [exact Hn|].
    rewrite Uids_app. apply NoDup_app. split; [exact Hn|]. split.
    + intros x Hx Hx'. apply list_elem_of_singleton in Hx'. subst x.
      rewrite (proj1 (Hc Uid CurveFlags)) in Hx. apply Get_None in Hg. auto.
    + apply NoDup_singleton.
  - eapply sublist_NoDup; [exact Hn | apply Delete_Uids].
Qed.

Lemma Delete_snd Curves Uid :
  snd (DeleteCurveDataImpl Curves Uid) = true <-> Uid ∈ Uids Curves.
Proof.
  induction Curves as [|c l IH]; simpl.
  - split; [discriminate | intros H; inversion H].
  - destruct (decide _) as [He|Hne]; simpl.
    + split; auto. intros _. rewrite He. left.
    + rewrite IH. unfold Uids. simpl. rewrite elem_of_cons. split; auto.
      intros [He|H]; [congruence | exact H].
Qed.

Lemma Delete_absent Curves Uid :
  Uid ∉ Uids Curves -> DeleteCurveDataImpl Curves Uid = (Curves, false).
Proof.
  induction Curves as [|c l IH]; simpl; [reflexivity|].
  unfold Uids. simpl. rewrite not_elem_of_cons. intros [Hne Hl].
  rewrite decide_False by auto. rewrite (IH Hl). reflexivity.
Qed.

Lemma Delete_length Curves Uid :
  List.length Curves
  = (List.length (fst (DeleteCurveDataImpl Curves Uid))
     + if snd (DeleteCurveDataImpl Curves Uid) then 1 else 0)%nat.
Proof.
  induction Curves as [|c l IH]; simpl; [reflexivity|].
  destruct (decide _); simpl; lia.
Qed.

Lemma Delete_FindCurve Curves Uid Other :
  Other <> Uid ->
  FindCurve (fst (DeleteCurveDataImpl Curves Uid)) Other = FindCurve Curves Other.
Proof.
  intros Ho. induction Curves as [|c l IH]; simpl; [reflexivity|].
  destruct (decide (CurveUid (Base c) = Uid)) as [He|Hne]; simpl.
  - rewrite FindCurve_cons, decide_False by congruence. reflexivity.
  - rewrite !FindCurve_cons, IH. reflexivity.
Qed.

Lemma Delete_first Curves Uid :
  snd (DeleteCurveDataImpl Curves Uid) = true ->
  exists Before Curve After,
    Curves = Before ++ Curve :: After
    /\ CurveUid (Base Curve) = Uid
    /\ (Uid ∉ Uids Before)
    /\ GetCurveDataImpl Curves Uid = Some (List.length Before)
    /\ fst (DeleteCurveDataImpl Curves Uid) = Before ++ After.
Proof.
  induction Curves as [|c l IH]; simpl; [discriminate|].
  rewrite Get_cons.
  destruct (decide (CurveUid (Base c) = Uid)) as [He|Hne]; simpl.
  - intros _. exists [], c, l. repeat split; auto. apply not_elem_of_nil.
  - intros Hs. destruct (IH Hs) as (B & x & A & -> & Hx & HB & Hg & Hd).
    exists (c :: B), x, A. repeat split; auto.
    + unfold Uids. simpl. apply not_elem_of_cons. split; [auto|exact HB].
    + rewrite Hg. reflexivity.
    + rewrite Hd. reflexivity.
Qed.

(** X8: [DeleteCurveDataImpl] returns [true] exactly when a curve of the array
    has the uid.  It then removes the first curve with the uid, the one
    that [GetCurveDataImpl] finds, and keeps the curves before and after
    it in their order, so that the array is one curve shorter; otherwise
    the array is unchanged.  The curve found for any other uid is the one
    found before, and when the uids of the array are distinct no curve is
    found for the deleted uid afterwards. *)
Theorem delete_curve_then_get Curves Uid :
  let r := DeleteCurveDataImpl Curves Uid in
  (snd r = true <-> is_Some (GetCurveDataImpl Curves Uid))
  /\ (snd r = true ->
      exists Before Curve After,
        Curves = Before ++ Curve :: After
        /\ CurveUid (Base Curve) = Uid
        /\ (Uid ∉ Uids Before)
        /\ GetCurveDataImpl Curves Uid = Some (List.length Before)
        /\ fst r = Before ++ After)
  /\ (snd r = true -> S (List.length (fst r)) = List.length Curves)
  /\ (snd r = false -> fst r = Curves)
  /\ (forall Other, Other <> Uid -> FindCurve (fst r) Other = FindCurve Curves Other)
  /\ (NoDup (Uids Curves) -> GetCurveDataImpl (fst r) Uid = None).
Proof.
  intros r. subst r. split; [|split; [|split; [|split; [|split]]]].
  - rewrite Delete_snd, Get_is_Some. reflexivity.
  - apply Delete_first.
  - intros H. rewrite (Delete_length Curves Uid), H. lia.
  - intros H. rewrite Delete_absent; [reflexivity|].
    rewrite <- Delete_snd, H. discriminate.
  - intros Other Ho. apply Delete_FindCurve, Ho.
  - intros Hn. apply Get_None.
    induction Curves as [|c l IH]; simpl; [apply not_elem_of_nil|].
    unfold Uids in Hn. simpl in Hn. apply NoDup_cons in Hn as [Hc Hn].
    destruct (decide _) as [He|Hne]; simpl.
    + rewrite <- He. exact Hc.
    + unfold Uids. simpl. apply not_elem_of_cons. split; [auto|]. apply IH, Hn.
Qed.

(** X9: Deleting the uid that [AddCurveDataImpl] has just added gives back the
    array from before the addition. *)
Theorem delete_undoes_add Curves Uid CurveFlags :
  ConstructorStores DataType ->
  GetCurveDataImpl Curves Uid = None ->
  DeleteCurveDataImpl (fst (AddCurveDataImpl Curves Uid CurveFlags)) Uid
  = (Curves, true).
Proof.
  intros Hc Hg. unfold AddCurveDataImpl. rewrite Hg. simpl.
  apply Get_None in Hg. destruct (Hc Uid CurveFlags) as [Hu _].
  induction Curves as [|c l IH]; simpl.
  - rewrite decide_True by exact Hu. reflexivity.
  - unfold Uids in Hg. simpl in Hg. apply not_elem_of_cons in Hg as [Hne Hl].
    rewrite decide_False by auto. rewrite (IH Hl). reflexivity.
Qed.

Lemma alter_last (f : DataType -> DataType) Curves Curve :
  alter f (Nat.pred (List.length (Curves ++ [Curve]))) (Curves ++ [Curve])
  = Curves ++ [f Curve].
Proof.
  rewrite length_app. simpl.
  replace (Nat.pred (List.length Curves + 1)) with (List.length Curves + 0)%nat
    by lia.
  rewrite alter_app_r. reflexivity.
Qed.

(** X10: [DuplicateCurveDataImpl] leaves the array as it is and returns
    [false] when no curve has the uid to copy or a curve has the new uid.
    Otherwise it appends a curve; when that moves the array, the function
    reads through a dangling pointer and what it does is not defined.
    When the array is not moved, it returns [true] and the curve appended
    is the copy of the existing curve onto a new curve with the new uid and
    the flags of the existing curve: it has that uid and those flags, it is
    the curve found for the new uid afterwards, the existing curve is still
    found, and uids that were distinct stay distinct. *)
Theorem duplicate_curve_then_get Curves ToCopyUid NewUid :
  ConstructorStores DataType ->
  CopyKeepsBase DataType ->
  (GetCurveDataImpl Curves ToCopyUid = None
   \/ is_Some (GetCurveDataImpl Curves NewUid) ->
   forall bAddMovesArray,
     DuplicateCurveDataImpl bAddMovesArray Curves ToCopyUid NewUid
     = Some (Curves, false))
  /\ (is_Some (GetCurveDataImpl Curves ToCopyUid) ->
      GetCurveDataImpl Curves NewUid = None ->
      DuplicateCurveDataImpl true Curves ToCopyUid NewUid = None
      /\ exists ExistingCurve Curve,
           FindCurve Curves ToCopyUid = Some ExistingCurve
           /\ Curve
              = CopyCurve
                  (Construct NewUid (CurveTypeFlags (Base ExistingCurve)))
                  ExistingCurve
           /\ DuplicateCurveDataImpl false Curves ToCopyUid NewUid
              = Some (Curves ++ [Curve], true)
           /\ CurveUid (Base Curve) = NewUid
           /\ CurveTypeFlags (Base Curve) = CurveTypeFlags (Base ExistingCurve)
           /\ GetCurveDataImpl (Curves ++ [Curve]) NewUid
              = Some (List.length Curves)
           /\ FindCurve (Curves ++ [Curve]) ToCopyUid = Some ExistingCurve
           /\ (NoDup (Uids Curves) -> NoDup (Uids (Curves ++ [Curve])))).
Proof.
  intros Hc Hk. split.
  - intros Hno b. unfold DuplicateCurveDataImpl.
    destruct (GetCurveDataImpl Curves ToCopyUid) as [i|]; [|reflexivity].
    destruct Hno as [Hno|[j Hj]]; [discriminate|]. rewrite Hj. reflexivity.
  - intros [i Hi] Hg.
    destruct (Get_Some _ _ _ Hi) as (c & Hl & Hu).
    assert (Hf : FindCurve Curves ToCopyUid = Some c).
    { unfold FindCurve. rewrite Hi. exact Hl. }
    destruct (Hc NewUid (CurveTypeFlags (Base c))) as [Hnu Hnf].
    unfold DuplicateCurveDataImpl. rewrite Hi, Hg, Hl. simpl.
    split; [reflexivity|].
    exists c, (CopyCurve (Construct NewUid (CurveTypeFlags (Base c))) c).
    split; [exact Hf|]. split; [reflexivity|]. split.
    { rewrite lookup_app_l by (eapply lookup_lt_Some, Hl). rewrite Hl. simpl.
      unfold GetCurveTypeFlags. rewrite alter_last. reflexivity. }
    split; [rewrite Hk; exact Hnu|]. split; [rewrite Hk; exact Hnf|].
    split; [|split].
    + rewrite Get_app, Hg, decide_True; [reflexivity|]. rewrite Hk. exact Hnu.
    + rewrite FindCurve_app, Hf. reflexivity.
    + intros Hn. rewrite Uids_app, Hk, Hnu. apply NoDup_app.
      split; [exact Hn|]. split; [|apply NoDup_singleton].
      intros x Hx Hx'. apply list_elem_of_singleton in Hx'. subst x.
      apply Get_None in Hg. auto.
Qed.

End TemplateFacts.

Section TemplateWitnesses.
Import CurveSample.

Lemma Floats_store : @ConstructorStores unit _ Floats.
Proof. intros Uid CurveFlags. split; reflexivity. Defined.

Lemma Floats_keep : @CopyKeepsBase unit _ Floats.
Proof. intros This SourceCurve. reflexivity. Defined.

Lemma add_curve_then_get_witness :
  @GetCurveDataImpl unit _ Floats
    (fst (@AddCurveDataImpl unit _ Floats TwoCurves 3%N 2%Z)) 3%N = Some 2%nat.
Proof.
  destruct (@add_curve_then_get unit _ Floats TwoCurves 3%N 2%Z Floats_store)
    as (Ht & _ & Hnew & _).
  destruct Hnew as (Curve & _ & _ & _ & Hg).
  - apply Ht. vm_compute. reflexivity.
  - exact Hg.
Defined.

Lemma uids_stay_unique_witness :
  NoDup (@Uids unit _ Floats (fst (@AddCurveDataImpl unit _ Floats TwoCurves 3%N 0%Z))).
Proof.
  apply (@uids_stay_unique unit _ Floats TwoCurves 3%N 0%Z Floats_store).
  vm_compute. apply NoDup_cons. split.
  - intros H. apply list_elem_of_singleton in H. discriminate.
  - apply NoDup_singleton.
Defined.

Lemma delete_curve_then_get_witness :
  fst (@DeleteCurveDataImpl unit _ Floats Repeated 7%N)
  = [MkFloatCurve (MkBase tt 9%N 4%Z) []; MkFloatCurve (MkBase tt 7%N 2%Z) []]
  /\ @GetCurveDataImpl unit _ Floats
       (fst (@DeleteCurveDataImpl unit _ Floats TwoCurves 7%N)) 7%N = None.
Proof.
  split.
  - destruct (@delete_curve_then_get unit _ Floats Repeated 7%N)
      as (_ & Hfirst & _).
    destruct Hfirst as (Before & Curve & After & Heq & _ & _ & Hg & Hr).
    { vm_compute. reflexivity. }
    vm_compute in Hg. injection Hg as Hlen.
    destruct Before; [|discriminate Hlen].
    simpl in Heq, Hr. injection Heq as _ <-. exact Hr.
  - apply (@delete_curve_then_get unit _ Floats TwoCurves 7%N).
    vm_compute. apply NoDup_cons. split.
    + intros H. apply list_elem_of_singleton in H. discriminate.
    + apply NoDup_singleton.
Defined.

Lemma delete_undoes_add_witness :
  @DeleteCurveDataImpl unit _ Floats
    (fst (@AddCurveDataImpl unit _ Floats TwoCurves 3%N 2%Z)) 3%N
  = (TwoCurves, true).
Proof.
  apply (@delete_undoes_add unit _ Floats TwoCurves 3%N 2%Z Floats_store).
  vm_compute. reflexivity.
Defined.

Lemma duplicate_curve_then_get_witness :
  @DuplicateCurveDataImpl unit _ Floats true TwoCurves 7%N 3%N = None
  /\ @DuplicateCurveDataImpl unit _ Floats false TwoCurves 7%N 3%N
     = Some (TwoCurves ++ [MkFloatCurve (MkBase tt 3%N 1%Z) [(0, 5)%Z]], true).
Proof.
  destruct (proj2 (@duplicate_curve_then_get unit _ Floats TwoCurves 7%N 3%N
                     Floats_store Floats_keep))
    as (Hmoved & c & Curve & Hf & -> & Hrun & _).
  - exists 0%nat. vm_compute. reflexivity.
  - vm_compute. reflexivity.
  - split; [exact Hmoved|]. rewrite Hrun.
    vm_compute in Hf. injection Hf as <-. reflexivity.
Defined.

End TemplateWitnesses.

(** ** The three arrays of [FRawCurveTracks] *)

Section TrackFacts.
Context {FRichCurve FName Float FQuat : Type}
        {TheHeaders : @Headers FRichCurve FName Float FQuat}.

(** [CopyCurve] of each of the three curve types leaves the base. *)
Lemma curves_keep_base :
  CopyKeepsBase FFloatCurve /\ CopyKeepsBase FVectorCurve
  /\ CopyKeepsBase FTransformCurve.
Proof. repeat split. Qed.

Lemma Get_Uids {DataType} {TheCurveType : @CurveType FName DataType}
    (Curves Curves' : list DataType) Uid :
  Uids Curves = Uids Curves' ->
  GetCurveDataImpl Curves Uid = GetCurveDataImpl Curves' Uid.
Proof.
  revert Curves'. induction Curves as [|c l IH]; intros [|c' l'] H;
    try discriminate; [reflexivity|].
  unfold Uids in H. simpl in H. injection H as Hc Hl.
  rewrite !Get_cons, Hc, (IH l' Hl). reflexivity.
Qed.

Lemma Uids_insert {DataType} {TheCurveType : @CurveType FName DataType}
    (Curves : list DataType) i Curve Curve' :
  Curves !! i = Some Curve ->
  CurveUid (Base Curve') = CurveUid (Base Curve) ->
  Uids (<[i := Curve']> Curves) = Uids Curves.
Proof.
  intros Hl Hu. unfold Uids. rewrite list_fmap_insert, Hu.
  apply list_insert_id. rewrite list_lookup_fmap, Hl. reflexivity.
Qed.

Lemma FindCurve_insert {DataType} {TheCurveType : @CurveType FName DataType}
    (Curves : list DataType) Uid i Curve Curve' :
  GetCurveDataImpl Curves Uid = Some i ->
  Curves !! i = Some Curve ->
  CurveUid (Base Curve') = CurveUid (Base Curve) ->
  FindCurve (<[i := Curve']> Curves) Uid = Some Curve'
  /\ forall Other, Other <> Uid ->
       FindCurve (<[i := Curve']> Curves) Other = FindCurve Curves Other.
Proof.
  intros Hg Hl Hu.
  assert (HU := Uids_insert Curves i Curve Curve' Hl Hu).
  destruct (Get_Some _ _ _ Hg) as (c & Hc & Huid).
  rewrite Hl in Hc. injection Hc as <-.
  split.
  - unfold FindCurve. rewrite (Get_Uids _ _ Uid HU), Hg. simpl.
    apply list_lookup_insert_eq. eapply lookup_lt_Some, Hl.
  - intros Other Ho. unfold FindCurve. rewrite (Get_Uids _ _ Other HU).
    destruct (GetCurveDataImpl Curves Other) as [j|] eqn:Hj; [|reflexivity].
    simpl. apply list_lookup_insert_ne. intros <-.
    destruct (Get_Some _ _ _ Hj) as (c & Hc & Huid').
    rewrite Hl in Hc. injection Hc as <-. congruence.
Qed.

(** X11: With the editor, the float, vector and transform curves are three
    separate arrays: adding or deleting a curve of one type, or deleting
    all curves of one type, changes no lookup of another type. *)
Theorem curve_types_are_separate (This : FRawCurveTracks)
    (Uid Other : N) (CurveFlags : Z) (Type1 Type2 : ESupportedCurveType) :
  WITH_EDITOR = true ->
  Type1 <> Type2 ->
  GetCurveData (fst (AddCurveData This Uid CurveFlags Type1)) Other Type2
  = GetCurveData This Other Type2
  /\ GetCurveData (fst (DeleteCurveData This Uid Type1)) Other Type2
     = GetCurveData This Other Type2
  /\ GetCurveData (DeleteAllCurveData This Type1) Other Type2
     = GetCurveData This Other Type2.
Proof.
  intros He Hne.
  unfold GetCurveData, AddCurveData, DeleteCurveData, DeleteAllCurveData,
    Selected.
  rewrite He. destruct Type1, Type2; try congruence; repeat split.
Qed.

(** X12: Without the editor every curve type selects the float curves: a curve
    added as a vector or transform curve is refused exactly when a float
    curve has the uid, is stored among the float curves and found there,
    and the vector and transform arrays are never changed. *)
Theorem without_editor_all_curves_are_float (This : FRawCurveTracks)
    (Uid : N) (CurveFlags : Z) (SupportedCurveType : ESupportedCurveType) :
  WITH_EDITOR = false ->
  ConstructorStores FFloatCurve ->
  let r := AddCurveData This Uid CurveFlags SupportedCurveType in
  (snd r = true <-> GetCurveData This Uid FloatType = None)
  /\ VectorCurves (fst r) = VectorCurves This
  /\ TransformCurves (fst r) = TransformCurves This
  /\ GetCurveData (fst r) Uid SupportedCurveType
     = GetCurveData (fst r) Uid FloatType
  /\ is_Some (GetCurveData (fst r) Uid FloatType)
  /\ FloatCurves (DeleteAllCurveData This SupportedCurveType) = [].
Proof.
  intros He Hc r. subst r.
  unfold GetCurveData, AddCurveData, DeleteAllCurveData, Selected.
  rewrite He. simpl. unfold AddCurveDataImpl.
  destruct (GetCurveDataImpl (FloatCurves This) Uid) as [i|] eqn:Hg; simpl.
  - rewrite Hg. simpl. repeat split; try discriminate; eauto.
  - rewrite Get_app, Hg, decide_True by apply Hc. simpl.
    repeat split; eauto.
Qed.

(** X13: [AddFloatCurveKey] never dereferences a null pointer.  Afterwards the
    float curve found for the uid has the uid, its flags are the flags it
    had before (those given, for a curve that was missing) or-ed with the
    flags given, and its rich curve is the one from before updated with the
    value at the time; the curve found for any other uid, and the vector
    and transform curves, are unchanged. *)
Theorem AddFloatCurveKey_adds_key (This : FRawCurveTracks) (Uid : N)
    (CurveFlags : Z) (Time Value : Float) :
  ConstructorStores FFloatCurve ->
  let Before :=
    default (NewFloatCurve Uid CurveFlags) (FindCurve (FloatCurves This) Uid) in
  exists After Curve,
    AddFloatCurveKey This Uid CurveFlags Time Value = Some After
    /\ FindCurve (FloatCurves After) Uid = Some Curve
    /\ CurveUid (FloatBase Curve) = Uid
    /\ CurveTypeFlags (FloatBase Curve)
       = Z.lor (CurveTypeFlags (FloatBase Before)) CurveFlags
    /\ FloatCurve Curve = RichUpdateOrAddKey (FloatCurve Before) Time Value
    /\ (forall Other, Other <> Uid ->
          FindCurve (FloatCurves After) Other
          = FindCurve (FloatCurves This) Other)
    /\ VectorCurves After = VectorCurves This
    /\ TransformCurves After = TransformCurves This.
Proof.
  intros Hc Before.
  assert (Hshape : exists Curves i,
    (let '(This', Ptr) :=
       match GetCurveDataImpl (FloatCurves This) Uid with
       | Some i => (This, Some i)
       | None =>
           let This' := fst (AddCurveData This Uid CurveFlags FloatType) in
           (This', GetCurveDataImpl (FloatCurves This') Uid)
       end in (FloatCurves This', VectorCurves This', TransformCurves This', Ptr))
    = (Curves, VectorCurves This, TransformCurves This, Some i)
    /\ GetCurveDataImpl Curves Uid = Some i
    /\ Curves !! i = Some Before
    /\ (GetCurveDataImpl (FloatCurves This) Uid = None ->
        CurveTypeFlags (FloatBase Before) = CurveFlags)
    /\ forall Other, Other <> Uid ->
         FindCurve Curves Other = FindCurve (FloatCurves This) Other).
  { subst Before. unfold FindCurve.
    destruct (GetCurveDataImpl (FloatCurves This) Uid) as [i|] eqn:Hg.
    - destruct (Get_Some _ _ _ Hg) as (c & Hl & Hu).
      exists (FloatCurves This), i. simpl. rewrite Hl. simpl.
      repeat split; auto. discriminate.
    - unfold AddCurveData, Selected. 
      assert (Hsel : (if WITH_EDITOR then FloatType else FloatType) = FloatType)
        by (destruct WITH_EDITOR; reflexivity).
      rewrite Hsel. cbv zeta. unfold AddCurveDataImpl. rewrite Hg. simpl.
      exists (FloatCurves This ++ [NewFloatCurve Uid CurveFlags]),
             (List.length (FloatCurves This)).
      assert (Hn : GetCurveDataImpl
                     (FloatCurves This ++ [NewFloatCurve Uid CurveFlags]) Uid
                   = Some (List.length (FloatCurves This))).
      { rewrite Get_app, Hg, decide_True by apply (Hc Uid CurveFlags).
        reflexivity. }
      rewrite Hn. repeat split; auto.
      + rewrite lookup_app_r, Nat.sub_diag by lia. reflexivity.
      + intros _. apply (Hc Uid CurveFlags).
      + intros Other Ho. fold (FindCurve (FloatCurves This ++ [NewFloatCurve Uid CurveFlags]) Other).
        rewrite FindCurve_app. fold (FindCurve (FloatCurves This) Other).
        destruct (FindCurve (FloatCurves This) Other); [reflexivity|].
        rewrite decide_False; [reflexivity|].
        intros He. apply Ho. rewrite <- He. symmetry.
        exact (eq_sym (proj1 (Hc Uid CurveFlags))). }
  destruct Hshape as (Curves & i & Hsh & Hg & Hl & Hnew & Hother).
  unfold AddFloatCurveKey.
  destruct (match GetCurveDataImpl (FloatCurves This) Uid with
            | Some i => (This, Some i)
            | None => _ end) as [This' Ptr].
  injection Hsh as HF HV HT HP. subst Ptr. simpl. rewrite HF, Hl. simpl.
  destruct (Get_Some _ _ _ Hg) as (c & Hc' & Hu).
  rewrite Hl in Hc'. injection Hc' as <-.
  set (Flagged := if decide (GetCurveTypeFlags (FloatBase Before) <> CurveFlags)
                  then _ else Before).
  assert (HFl : FloatBase Flagged
                = SetCurveTypeFlags
                    (Z.lor (CurveTypeFlags (FloatBase Before)) CurveFlags)
                    (FloatBase Before)
                /\ FloatCurve Flagged = FloatCurve Before).
  { subst Flagged. destruct (decide _) as [Hd|Hd]; simpl; [split; reflexivity|].
    apply dec_stable in Hd. unfold GetCurveTypeFlags in Hd.
    split; [|reflexivity]. rewrite <- Hd, Z.lor_diag.
    generalize (FloatBase Before). intros []. reflexivity. }
  destruct HFl as [HFb HFc].
  destruct (FindCurve_insert Curves Uid i Before
              (FloatUpdateOrAddKey Flagged Value Time) Hg Hl) as [Hfound Hrest].
  { simpl. rewrite HFb. reflexivity. }
  eexists _, _. split; [reflexivity|]. simpl.
  split; [exact Hfound|]. simpl. rewrite HFb, HFc. simpl.
  repeat split; auto.
  intros Other Ho. rewrite (Hrest Other Ho). apply Hother, Ho.
Qed.


End TrackFacts.

Section TrackWitnesses.
Import CurveSample.

Lemma curve_types_are_separate_witness :
  GetCurveData (TheHeaders := Editor)
    (fst (AddCurveData (TheHeaders := Editor) TheTracks 9%N 0%Z VectorType))
    9%N FloatType
  = Some (FloatType, 1%nat).
Proof.
  rewrite (proj1 (@curve_types_are_separate _ _ _ _ Editor TheTracks
                    9%N 9%N 0%Z VectorType FloatType eq_refl
                    ltac:(discriminate))).
  vm_compute. reflexivity.
Defined.

Lemma without_editor_all_curves_are_float_witness :
  is_Some (GetCurveData (TheHeaders := Runtime)
             (fst (AddCurveData (TheHeaders := Runtime) TheTracks 3%N 0%Z
                     VectorType))
             3%N FloatType).
Proof.
  apply (@without_editor_all_curves_are_float _ _ _ _ Runtime TheTracks
           3%N 0%Z VectorType eq_refl).
  intros Uid CurveFlags. split; reflexivity.
Defined.

Lemma AddFloatCurveKey_adds_key_witness :
  exists After Curve,
    AddFloatCurveKey (TheHeaders := Editor) TheTracks 9%N 3%Z 2%Z 8%Z = Some After
    /\ @FindCurve unit _ Floats (FloatCurves After) 9%N = Some Curve
    /\ CurveTypeFlags (FloatBase Curve) = 7%Z
    /\ FloatCurve Curve = [(2, 8)%Z].
Proof.
  destruct (@AddFloatCurveKey_adds_key _ _ _ _ Editor TheTracks 9%N 3%Z 2%Z 8%Z
              Floats_store)
    as (After & Curve & H1 & H2 & _ & H4 & H5 & _).
  exists After, Curve. repeat split; assumption.
Defined.


End TrackWitnesses.

End AnimCurveFacts.
